(** * Vaayu: the risk-aware route planner of [services/navigation.py]

    A shallow embedding of the routing core ([get_edge_risk_weight],
    [create_map_graph], [find_safest_route]), of the endpoint that serves it
    ([get_safest_route] in [api/routes.py]) and of the parts of [networkx]
    the planner calls ([Graph.add_node], [Graph.add_edge], [dijkstra_path]),
    followed by the properties of the planner stated in the specification.

    The other endpoints of [api/routes.py] come after the planner's: the
    handlers for users, guardians, locations, the risk score, the SOS alert
    and the situation report, over the tables of [db/models.py], with the
    greeting of [main.py]; and, after the planner's properties, those that
    the code of the planner and of these handlers shows.

    Conventions of the embedding:
    - Python [float] is the kernel's binary64 [float]; [int] is [Z];
      [str] is [string]; a [dict] is an insertion-ordered association list.
    - A call either returns, raises, or (for the one [while] loop, which is
      run on fuel) exhausts its fuel: type [outcome].
    - The SQLAlchemy session [db] is the only mutable object the planner
      touches.  It is threaded explicitly: a computation takes the session
      and returns its outcome with the session after the call. *)

From Stdlib Require Import ZArith List String Ascii Bool Floats Lia.
From Stdlib Require Import DecimalString.
Import ListNotations.

Local Open Scope string_scope.
Local Open Scope Z_scope.

(** A decimal literal stands, as in Python, for the nearest binary64 value. *)
Set Warnings "-inexact-float".

(** ** Python values *)

(** A coordinate tuple [(longitude, latitude)]. *)
Definition coords : Type := (float * float)%type.

(** The exceptions that can cross the functions modelled here. *)
Inductive exn : Type :=
| KeyError (key : string)
| ValueError (msg : string)
| NodeNotFound (msg : string)
| NetworkXNoPath (msg : string)
| DBAPIError (msg : string)
| HTTPException (status_code : Z) (detail : string).

Inductive outcome (A : Type) : Type :=
| Ok (a : A)
| Raise (e : exn)
| NoFuel.
Arguments Ok {A} a.
Arguments Raise {A} e.
Arguments NoFuel {A}.

(** Sequencing of calls that may raise. *)
Definition obind {A B : Type} (x : outcome A) (f : A -> outcome B) : outcome B :=
  match x with
  | Ok a => f a
  | Raise e => Raise e
  | NoFuel => NoFuel
  end.

(** ** Insertion-ordered dictionaries with [str] keys *)
Module dict.

Definition t (V : Type) : Type := list (string * V).

Definition empty {V : Type} : t V := [].

(** [d.get(k)] *)
Fixpoint get {V : Type} (d : t V) (k : string) : option V :=
  match d with
  | [] => None
  | (k', v) :: d' => if String.eqb k' k then Some v else get d' k
  end.

(** [k in d] *)
Definition mem {V : Type} (d : t V) (k : string) : bool :=
  match get d k with Some _ => true | None => false end.

(** [d.get(k, default)] *)
Definition get_default {V : Type} (d : t V) (k : string) (default : V) : V :=
  match get d k with Some v => v | None => default end.

(** [d[k]], which raises [KeyError] on a missing key. *)
Definition getitem {V : Type} (d : t V) (k : string) : outcome V :=
  match get d k with Some v => Ok v | None => Raise (KeyError k) end.

(** [d[k] = v]: an existing key keeps its position, a new key goes last. *)
Fixpoint set {V : Type} (d : t V) (k : string) (v : V) : t V :=
  match d with
  | [] => [(k, v)]
  | (k', v') :: d' =>
      if String.eqb k' k then (k', v) :: d' else (k', v') :: set d' k v
  end.

(** [d.update(other)] *)
Definition update {V : Type} (d other : t V) : t V :=
  fold_left (fun acc kv => set acc (fst kv) (snd kv)) other d.

(** [d.keys()] and [d.items()], in insertion order. *)
Definition keys {V : Type} (d : t V) : list string := map fst d.
Definition items {V : Type} (d : t V) : list (string * V) := d.

End dict.

(** ** The database session and the risk-zone query *)

(** A row of [risk_zones] ([db/models.py], class [RiskZone]); the polygon is
    kept as its ring of vertices. *)
Module models.

Record RiskZone : Type := {
  id : Z;
  name : string;
  zone : list coords;
  risk_score : Z
}.

End models.

(** What the database does with the one query the planner sends,
    [db.query(RiskZone).filter(ST_DWithin(RiskZone.zone, point, 0)).first()]:
    it returns the first matching row or [None], or the driver raises. *)
Inductive reply : Type :=
| Row (first : option models.RiskZone)
| Fault (e : exn).

(** The session.  [answer] is the data behind it: the reply to the query at
    each point.  The point reaches the database as the text
    [POINT(lon lat)]; Python prints a float so that it reads back as the same
    float, so the text is determined by the pair of floats and the pair is
    kept instead.  [issued] records the points queried through the session
    so far. *)
Record Session : Type := {
  answer : coords -> reply;
  issued : list coords
}.

(** A computation that uses the session. *)
Definition M (A : Type) : Type := Session -> outcome A * Session.

Definition ret {A : Type} (a : A) : M A := fun db => (Ok a, db).

Definition raise {A : Type} (e : exn) : M A := fun db => (Raise e, db).

Definition bind {A B : Type} (m : M A) (f : A -> M B) : M B :=
  fun db =>
    match m db with
    | (Ok a, db') => f a db'
    | (Raise e, db') => (Raise e, db')
    | (NoFuel, db') => (NoFuel, db')
    end.

(** A call that does not touch the session. *)
Definition lift {A : Type} (x : outcome A) : M A := fun db => (x, db).

Declare Scope py_scope.
Delimit Scope py_scope with py.
Notation "x <- m ;; k" := (bind m (fun x => k))
  (at level 61, m at next level, right associativity) : py_scope.
Notation "m ;;; k" := (bind m (fun _ => k))
  (at level 61, right associativity) : py_scope.

(** [db.query(models.RiskZone).filter(func.ST_DWithin(zone, point, 0)).first()] *)
Definition query_first_zone_within (point : coords) : M (option models.RiskZone) :=
  fun db =>
    (match answer db point with
     | Row first => Ok first
     | Fault e => Raise e
     end,
     {| answer := answer db; issued := issued db ++ [point] |}).

(** [for x in xs: acc = body(acc, x)], the loop's mutable object threaded
    as an accumulator. *)
Fixpoint for_each {A S : Type} (xs : list A) (body : S -> A -> M S) (acc : S)
  : M S :=
  match xs with
  | [] => ret acc
  | x :: xs' => (acc' <- body acc x ;; for_each xs' body acc')%py
  end.

(** The same loop for a body that does not use the session. *)
Fixpoint ofold {A S : Type} (xs : list A) (body : S -> A -> outcome S) (acc : S)
  : outcome S :=
  match xs with
  | [] => Ok acc
  | x :: xs' => obind (body acc x) (ofold xs' body)
  end.

(** [[f(x) for x in xs]] *)
Fixpoint omap {A B : Type} (f : A -> outcome B) (xs : list A)
  : outcome (list B) :=
  match xs with
  | [] => Ok []
  | x :: xs' =>
      obind (f x) (fun y => obind (omap f xs') (fun ys => Ok (y :: ys)))
  end.

(** ** networkx: the graph class and Dijkstra's search *)
Module nx.

(** Attribute dictionaries: a node carries [pos], an edge [weight]. *)
Definition node_attr : Type := dict.t coords.
Definition edge_attr : Type := dict.t Z.

(** [nx.Graph]: [_node] maps a node to its attributes, [_adj] maps a node
    to the dictionary of its neighbours, each with the edge's attributes. *)
Record Graph : Type := {
  _node : dict.t node_attr;
  _adj : dict.t (dict.t edge_attr)
}.

(** [nx.Graph()] *)
Definition Graph_init : Graph := {| _node := dict.empty; _adj := dict.empty |}.

(** [n in G] *)
Definition contains (G : Graph) (n : string) : bool := dict.mem (_node G) n.

(** [G.add_node(node_for_adding, **attr)] *)
Definition add_node (G : Graph) (node_for_adding : string) (attr : node_attr)
  : Graph :=
  if negb (dict.mem (_node G) node_for_adding) then
    {| _adj := dict.set (_adj G) node_for_adding dict.empty;
       _node := dict.set (_node G) node_for_adding (dict.update dict.empty attr) |}
  else
    {| _adj := _adj G;
       _node := dict.set (_node G) node_for_adding
                  (dict.update (dict.get_default (_node G) node_for_adding dict.empty)
                     attr) |}.

(** The first lines of [add_edge]: an endpoint not yet in the graph is
    added with no attributes. *)
Definition ensure_node (G : Graph) (u : string) : Graph :=
  if negb (dict.mem (_node G) u) then
    {| _adj := dict.set (_adj G) u dict.empty;
       _node := dict.set (_node G) u dict.empty |}
  else G.

(** [G.add_edge(u_of_edge, v_of_edge, **attr)]: the edge's attribute
    dictionary is updated and stored under both orientations. *)
Definition add_edge (G : Graph) (u_of_edge v_of_edge : string) (attr : edge_attr)
  : outcome Graph :=
  let u := u_of_edge in
  let v := v_of_edge in
  let G := ensure_node G u in
  let G := ensure_node G v in
  obind (dict.getitem (_adj G) u) (fun adj_u =>
  let datadict := dict.update (dict.get_default adj_u v dict.empty) attr in
  let adj := dict.set (_adj G) u (dict.set adj_u v datadict) in
  obind (dict.getitem adj v) (fun adj_v =>
  let adj := dict.set adj v (dict.set adj_v u datadict) in
  Ok {| _node := _node G; _adj := adj |})).

(** [_weight_function(G, weight)] for a graph that is not a multigraph:
    [lambda u, v, data: data.get(weight, 1)]. *)
Definition _weight_function (weight : string)
  : string -> string -> edge_attr -> Z :=
  fun _ _ data => dict.get_default data weight 1.

(** *** The fringe
    [heapq] keeps the 3-tuples [(distance, c, node)]; the counter [c] is
    different in every tuple, so the tuples are strictly ordered by their
    first two components and [heappop] returns the one least pair, however
    the heap is laid out.  The fringe is kept as a list. *)
Definition item : Type := (Z * nat * string)%type.

Definition item_lt (a b : item) : bool :=
  let '(da, ca, _) := a in
  let '(db, cb, _) := b in
  (da <? db) || ((da =? db) && (ca <? cb)%nat).

Definition heappush (heap : list item) (x : item) : list item :=
  (heap ++ [x])%list.

(** The least of [x :: xs] and the others. *)
Fixpoint pop_min (x : item) (xs : list item) : item * list item :=
  match xs with
  | [] => (x, [])
  | y :: ys =>
      let (m, rest) := pop_min y ys in
      if item_lt m x then (m, x :: rest) else (x, y :: ys)
  end.

Definition heappop (heap : list item) : option (item * list item) :=
  match heap with
  | [] => None
  | x :: xs => Some (pop_min x xs)
  end.

(** *** [_dijkstra_multisource] (called with [pred=None], [cutoff=None]) *)
Record search : Type := {
  dist : dict.t Z;
  seen : dict.t Z;
  paths : dict.t (list string);
  fringe : list item;
  c : nat
}.

(** The body of [for u, e in G_succ[v].items()]. *)
Definition relax (weight : string -> string -> edge_attr -> Z) (v : string)
    (st : search) (ue : string * edge_attr) : outcome search :=
  let (u, e) := ue in
  let cost := weight v u e in
  obind (dict.getitem (dist st) v) (fun dist_v =>
  let vu_dist := dist_v + cost in
  match dict.get (dist st) u with
  | Some u_dist =>
      if vu_dist <? u_dist
      then Raise (ValueError "Contradictory paths found: negative weights?")
      else Ok st
  | None =>
      if match dict.get (seen st) u with
         | None => true
         | Some seen_u => vu_dist <? seen_u
         end
      then
        obind (dict.getitem (paths st) v) (fun paths_v =>
        Ok {| dist := dist st;
              seen := dict.set (seen st) u vu_dist;
              paths := dict.set (paths st) u (paths_v ++ [u])%list;
              fringe := heappush (fringe st) (vu_dist, c st, u);
              c := S (c st) |})
      else Ok st
  end).

(** [while fringe: ...], one iteration per unit of fuel. *)
Fixpoint search_loop (fuel : nat) (G_succ : dict.t (dict.t edge_attr))
    (weight : string -> string -> edge_attr -> Z) (target : string)
    (st : search) : outcome search :=
  match fuel with
  | O => NoFuel
  | S fuel' =>
      match heappop (fringe st) with
      | None => Ok st
      | Some ((d, _, v), rest) =>
          if dict.mem (dist st) v then
            search_loop fuel' G_succ weight target
              {| dist := dist st; seen := seen st; paths := paths st;
                 fringe := rest; c := c st |}
          else
            let st := {| dist := dict.set (dist st) v d; seen := seen st;
                         paths := paths st; fringe := rest; c := c st |} in
            if String.eqb v target then Ok st
            else
              obind (dict.getitem G_succ v) (fun nbrs =>
              obind (ofold (dict.items nbrs) (relax weight v) st)
                (search_loop fuel' G_succ weight target))
      end
  end.

(** Every pop takes a tuple that was pushed: once per source, and at most
    once per neighbour entry of a node, when that node is settled. *)
Definition search_fuel (G : Graph) (sources : list string) : nat :=
  S (List.length sources
     + list_sum (map (fun kv => List.length (snd kv)) (_adj G))).

(** The state when the loop is entered: [dist = {}], the caller's [paths],
    and [seen] and [fringe] after
    [for source in sources: seen[source] = 0; push(fringe, (0, next(c), source))]. *)
Definition push_sources (sources : list string) (paths0 : dict.t (list string))
  : search :=
  fold_left
    (fun st source =>
       {| dist := dist st;
          seen := dict.set (seen st) source 0;
          paths := paths st;
          fringe := heappush (fringe st) (0, c st, source);
          c := S (c st) |})
    sources
    {| dist := dict.empty; seen := dict.empty; paths := paths0;
       fringe := []; c := O |}.

(** [_dijkstra_multisource(G, sources, weight, paths=paths, target=target)].
    The Python function returns [dist] and fills in the dictionary [paths]
    it was passed; both are read from the state returned here. *)
Definition _dijkstra_multisource (G : Graph) (sources : list string)
    (weight : string -> string -> edge_attr -> Z)
    (paths0 : dict.t (list string)) (target : string)
  : outcome search :=
  search_loop (search_fuel G sources) (_adj G) weight target
    (push_sources sources paths0).

(** [{source: [source] for source in sources}] *)
Definition source_paths (sources : list string) : dict.t (list string) :=
  fold_left (fun paths0 source => dict.set paths0 source [source]) sources
    dict.empty.

(** [multi_source_dijkstra(G, sources, target=target, weight=weight)]; the
    planner reaches it with the one-element set [{source}]. *)
Definition multi_source_dijkstra (G : Graph) (sources : list string)
    (target : string) (weight : string) : outcome (Z * list string) :=
  match sources with
  | [] => Raise (ValueError "sources must not be empty")
  | _ =>
      match find (fun s => negb (contains G s)) sources with
      | Some s => Raise (NodeNotFound ("Node " ++ s ++ " not found in graph"))
      | None =>
          if existsb (String.eqb target) sources then Ok (0, [target])
          else
            obind (_dijkstra_multisource G sources (_weight_function weight)
                     (source_paths sources) target)
              (fun st =>
                 match dict.get (dist st) target, dict.get (paths st) target with
                 | Some d, Some p => Ok (d, p)
                 | _, _ => Raise (NetworkXNoPath ("No path to " ++ target ++ "."))
                 end)
      end
  end.

Definition single_source_dijkstra (G : Graph) (source target weight : string)
  : outcome (Z * list string) :=
  multi_source_dijkstra G [source] target weight.

(** [nx.dijkstra_path(G, source, target, weight)] *)
Definition dijkstra_path (G : Graph) (source target weight : string)
  : outcome (list string) :=
  obind (single_source_dijkstra G source target weight)
    (fun length_path => Ok (snd length_path)).

End nx.

(** ** services/navigation.py *)
Module navigation.

(** The dictionary [find_safest_route] returns on success. *)
Record route : Type := {
  path_nodes : list string;
  path_coordinates : list coords
}.

(** [try: body except nx.NetworkXNoPath: handler]: only that exception is
    caught. *)
Definition try_except_NetworkXNoPath {A : Type} (body handler : outcome A)
  : outcome A :=
  match body with
  | Raise (NetworkXNoPath _) => handler
  | other => other
  end.

(** "Calculates the risk weight of a street (edge).  A street is considered
    risky if its midpoint falls within a defined RiskZone."  The point goes
    to the query as [f'POINT({mid_lon} {mid_lat})']; here, as the pair. *)
Definition get_edge_risk_weight (node1_coords node2_coords : coords) : M Z :=
  let mid_lon := ((fst node1_coords + fst node2_coords) / 2)%float in
  let mid_lat := ((snd node1_coords + snd node2_coords) / 2)%float in
  let geography_midpoint := (mid_lon, mid_lat) in
  (is_in_risk_zone <- query_first_zone_within geography_midpoint ;;
   match is_in_risk_zone with
   | Some _ => ret 100
   | None => ret 1
   end)%py.

(** The module's globals are read when a function runs; the functions that
    read them take them as parameters, and the values the module assigns
    follow the section. *)
Section globals.

Variable MAP_NODES : dict.t coords.
Variable MAP_EDGES : list (string * string).

(** "Builds a networkx graph from our mocked map data.  The weight of each
    edge is calculated based on its risk." *)
Definition create_map_graph : M nx.Graph :=
  let G :=
    fold_left
      (fun G item => nx.add_node G (fst item) [("pos", snd item)])
      (dict.items MAP_NODES) nx.Graph_init in
  for_each MAP_EDGES
    (fun G uv =>
       let (u, v) := uv in
       (node1_coords <- lift (dict.getitem MAP_NODES u) ;;
        node2_coords <- lift (dict.getitem MAP_NODES v) ;;
        weight <- get_edge_risk_weight node1_coords node2_coords ;;
        lift (nx.add_edge G u v [("weight", weight)]))%py)
    G.

(** "The main function that finds the safest path between two nodes.  It
    builds the graph and then runs Dijkstra's algorithm." *)
Definition find_safest_route (start_node end_node : string)
  : M (option route) :=
  if negb (dict.mem MAP_NODES start_node) || negb (dict.mem MAP_NODES end_node)
  then ret None
  else
    (graph <- create_map_graph ;;
     lift
       (try_except_NetworkXNoPath
          (obind (nx.dijkstra_path graph start_node end_node "weight")
             (fun path_nodes =>
              obind (omap (dict.getitem MAP_NODES) path_nodes)
                (fun path_coordinates =>
                 Ok (Some {| path_nodes := path_nodes;
                             path_coordinates := path_coordinates |}))))
          (Ok None)))%py.

End globals.

Definition MAP_NODES : dict.t coords :=
  [ ("A_Home", (-74.0060, 40.7128)%float);
    ("B_Intersection", (-73.9960, 40.7228)%float);
    ("C_Risky_Area", (-73.9860, 40.7328)%float);
    ("D_Intersection", (-73.9950, 40.7428)%float);
    ("E_Work", (-73.9850, 40.7528)%float) ].

Definition MAP_EDGES : list (string * string) :=
  [ ("A_Home", "B_Intersection");
    ("B_Intersection", "C_Risky_Area");
    ("B_Intersection", "D_Intersection");
    ("C_Risky_Area", "E_Work");
    ("D_Intersection", "E_Work") ].

End navigation.

(** ** db/models.py: the tables [users] and [guardians] *)

(** A row of [users] ([db/models.py], class [User]), as the handlers write
    it, with a name and an email.  [created_at] is the time the server
    stamps on the row; the point of [last_known_location] is kept as its
    pair of floats, longitude first, and [None] is SQL [NULL]. *)
Module User.

Record t : Type := {
  id : Z;
  name : string;
  email : string;
  created_at : Z;
  last_known_location : option coords
}.

End User.

(** A row of [guardians] (class [Guardian]). *)
Module Guardian.

Record t : Type := {
  id : Z;
  name : string;
  phone_number : string;
  user_id : Z
}.

End Guardian.

(** ** What a request handler works on *)

(** A text message handed to Twilio: the arguments of
    [messages.create(body=, from_=, to=)]. *)
Module Sms.

Record t : Type := {
  body : string;
  from_ : string;
  to : string
}.

End Sms.

(** The result of a call to an outside service, of which the handlers use
    the value it returns or, in [except Exception as e], the text [f'{e}']
    of what it raises. *)
Inductive attempt (A : Type) : Type :=
| Returned (value : A)
| Raised (e : string).

Arguments Returned {A} value.
Arguments Raised {A} e.

(** What a handler can read and change through [db], the session of the
    request, and besides it: the session of the risk index, as the planner
    has it; the two tables behind the same session, rows in the order the
    server returns them, with the last value of each [id] sequence and the
    count of the statements sent for these tables; the messages handed to
    Twilio and the lines printed. *)
Record World : Type := {
  session : Session;
  users : list User.t;
  guardians : list Guardian.t;
  users_id_seq : Z;
  guardians_id_seq : Z;
  statements : nat;
  outbox : list Sms.t;
  stdout : list string
}.

(** A handler's computation. *)
Definition Handler (A : Type) : Type := World -> outcome A * World.

Definition hret {A : Type} (a : A) : Handler A := fun w => (Ok a, w).

Definition hraise {A : Type} (e : exn) : Handler A := fun w => (Raise e, w).

Definition hbind {A B : Type} (m : Handler A) (f : A -> Handler B) : Handler B :=
  fun w =>
    match m w with
    | (Ok a, w') => f a w'
    | (Raise e, w') => (Raise e, w')
    | (NoFuel, w') => (NoFuel, w')
    end.

Declare Scope api_scope.
Delimit Scope api_scope with api.
Notation "x <- m ;; k" := (hbind m (fun x => k))
  (at level 61, m at next level, right associativity) : api_scope.
Notation "m ;;; k" := (hbind m (fun _ => k))
  (at level 61, right associativity) : api_scope.

(** A computation on the session of the risk index, run by a handler. *)
Definition with_session {A : Type} (m : M A) : Handler A :=
  fun w =>
    let (o, s) := m (session w) in
    (o, {| session := s; users := users w; guardians := guardians w;
           users_id_seq := users_id_seq w;
           guardians_id_seq := guardians_id_seq w;
           statements := statements w; outbox := outbox w;
           stdout := stdout w |}).

(** [for x in xs: acc = body(acc, x)] in a handler. *)
Fixpoint hfor_each {A S : Type} (xs : list A) (body : S -> A -> Handler S) (acc : S)
  : Handler S :=
  match xs with
  | [] => hret acc
  | x :: xs' => (acc' <- body acc x ;; hfor_each xs' body acc')%api
  end.

(** [print(line)] *)
Definition print (line : string) : Handler unit :=
  fun w =>
    (Ok tt, {| session := session w; users := users w;
               guardians := guardians w; users_id_seq := users_id_seq w;
               guardians_id_seq := guardians_id_seq w;
               statements := statements w; outbox := outbox w;
               stdout := (stdout w ++ [line])%list |}).

(** [str(n)] of an [int]. *)
Definition str_int (n : Z) : string := NilZero.string_of_int (Z.to_int n).

(** The line feed. *)
Definition LF : string := String "010"%char EmptyString.

(** ** api/routes.py: the endpoint [POST /navigate/safest-route] *)
Module routes.

Record RouteRequest : Type := {
  start_node : string;
  end_node : string
}.

Section navigation_globals.

Variable MAP_NODES : dict.t coords.
Variable MAP_EDGES : list (string * string).

(** "Calculates the safest route between two points on our map." *)
Definition get_safest_route (request : RouteRequest) : M navigation.route :=
  (route <- navigation.find_safest_route MAP_NODES MAP_EDGES
              (start_node request) (end_node request) ;;
   match route with
   | None =>
       raise
         (HTTPException 404
            ("No path found or invalid nodes provided. Valid nodes are: "
             ++ String.concat ", " (dict.keys MAP_NODES)))
   | Some route => ret route
   end)%py.

End navigation_globals.

(** *** The other endpoints of [api/routes.py] *)

Module UserCreate.

Record t : Type := {
  name : string;
  email : string
}.

End UserCreate.

Module GuardianCreate.

Record t : Type := {
  name : string;
  phone_number : string
}.

End GuardianCreate.

Module LocationUpdate.

Record t : Type := {
  latitude : float;
  longitude : float
}.

End LocationUpdate.

(** The dictionary [get_risk_score] returns. *)
Module RiskResponse.

Record t : Type := {
  risk_score : Z;
  zone_name : string
}.

End RiskResponse.

Module SituationReportRequest.

Record t : Type := {
  transcript : string;
  heart_rate : Z
}.

(** [heart_rate: int = 90]: a request that leaves the field out. *)
Definition of_transcript (transcript : string) : t :=
  {| transcript := transcript; heart_rate := 90 |}.

End SituationReportRequest.

(** The dictionary [context] of [post_situation_report]. *)
Module context.

Record t : Type := {
  risk_score : Z;
  heart_rate : Z;
  transcript : string
}.

End context.

(** The dictionary [post_situation_report] returns. *)
Module SituationReportResponse.

Record t : Type := {
  decision : string;
  reasoning_context : context.t
}.

End SituationReportResponse.

(** The dictionary [create_sos_alert] returns; an entry of [details] is
    [{"to": ..., "sid": ...}]. *)
Module SosResponse.

Record sent : Type := {
  to : string;
  sid : string
}.

Record t : Type := {
  message : string;
  details : list sent
}.

End SosResponse.

(** What lies outside the program, and the handlers take as given. *)
Section services.

(** The database server on the two tables: [faults n] is the exception the
    driver raises for the statement sent after [n] others, if it raises
    one; [now n] is the server's time once [n] statements have been sent. *)
Variable faults : nat -> option exn.
Variable now : nat -> Z.

(** Twilio: [Client(account_sid, auth_token)], and [messages.create] for
    the message handed over after [n] others, which returns the message's
    [sid]. *)
Variable Client : attempt unit.
Variable messages_create : nat -> Sms.t -> attempt string.

(** [settings.twilio_phone_number] *)
Variable twilio_phone_number : string.

(** [create_crisis_chain().invoke(context)] *)
Variable crisis_chain_invoke : context.t -> attempt string.

(** [str(x)] of a [float], and the methods [strip] and [upper] of [str]. *)
Variable str_float : float -> string.
Variable str_strip : string -> string.
Variable str_upper : string -> string.

(** *** The session on the two tables *)

(** One statement: the server refuses it, or runs it. *)
Definition statement {A : Type} (run : World -> outcome A * World) : Handler A :=
  fun w =>
    let w1 :=
      {| session := session w; users := users w; guardians := guardians w;
         users_id_seq := users_id_seq w;
         guardians_id_seq := guardians_id_seq w;
         statements := S (statements w); outbox := outbox w;
         stdout := stdout w |} in
    match faults (statements w) with
    | Some e => (Raise e, w1)
    | None => run w1
    end.

(** [db.query(models.User).filter(models.User.id == user_id).first()] *)
Definition query_user_by_id (user_id : Z) : Handler (option User.t) :=
  statement
    (fun w => (Ok (find (fun u => User.id u =? user_id) (users w)), w)).

(** [db.query(models.User).filter(models.User.email == email).first()] *)
Definition query_user_by_email (email : string) : Handler (option User.t) :=
  statement
    (fun w => (Ok (find (fun u => String.eqb (User.email u) email) (users w)),
               w)).

(** [user.guardians], loaded when first read. *)
Definition load_guardians (user : User.t) : Handler (list Guardian.t) :=
  statement
    (fun w =>
       (Ok (filter (fun g => Guardian.user_id g =? User.id user) (guardians w)),
        w)).

(** [db.add(models.User(name=, email=)); db.commit()]: the row takes the
    next value of the sequence, and the server refuses a second row with
    the same [id] or the same [email] ([IntegrityError], a [DBAPIError]). *)
Definition add_user (name email : string) : Handler User.t :=
  statement
    (fun w =>
       let new_user :=
         {| User.id := users_id_seq w + 1; User.name := name;
            User.email := email; User.created_at := now (statements w);
            User.last_known_location := None |} in
       if existsb (fun u => (User.id u =? User.id new_user)
                            || String.eqb (User.email u) email) (users w)
       then
         (Raise (DBAPIError "duplicate key value violates unique constraint"),
          {| session := session w; users := users w; guardians := guardians w;
             users_id_seq := users_id_seq w + 1;
             guardians_id_seq := guardians_id_seq w;
             statements := statements w; outbox := outbox w;
             stdout := stdout w |})
       else
         (Ok new_user,
          {| session := session w; users := (users w ++ [new_user])%list;
             guardians := guardians w;
             users_id_seq := users_id_seq w + 1;
             guardians_id_seq := guardians_id_seq w;
             statements := statements w; outbox := outbox w;
             stdout := stdout w |})).

(** [db.add(models.Guardian(name=, phone_number=, user_id=)); db.commit()]:
    the server refuses a second row with the same [id], and a [user_id]
    that is no user's. *)
Definition add_guardian (name phone_number : string) (user_id : Z)
  : Handler Guardian.t :=
  statement
    (fun w =>
       let new_guardian :=
         {| Guardian.id := guardians_id_seq w + 1; Guardian.name := name;
            Guardian.phone_number := phone_number;
            Guardian.user_id := user_id |} in
       if existsb (fun g => Guardian.id g =? Guardian.id new_guardian)
            (guardians w)
       then
         (Raise (DBAPIError "duplicate key value violates unique constraint"),
          {| session := session w; users := users w; guardians := guardians w;
             users_id_seq := users_id_seq w;
             guardians_id_seq := guardians_id_seq w + 1;
             statements := statements w; outbox := outbox w;
             stdout := stdout w |})
       else if negb (existsb (fun u => User.id u =? user_id) (users w))
       then
         (Raise (DBAPIError "insert violates foreign key constraint"),
          {| session := session w; users := users w; guardians := guardians w;
             users_id_seq := users_id_seq w;
             guardians_id_seq := guardians_id_seq w + 1;
             statements := statements w; outbox := outbox w;
             stdout := stdout w |})
       else
         (Ok new_guardian,
          {| session := session w; users := users w;
             guardians := (guardians w ++ [new_guardian])%list;
             users_id_seq := users_id_seq w;
             guardians_id_seq := guardians_id_seq w + 1;
             statements := statements w; outbox := outbox w;
             stdout := stdout w |})).

(** [db.refresh(obj)] after the commit: the row is read back as written. *)
Definition refresh {A : Type} (obj : A) : Handler A :=
  statement (fun w => (Ok obj, w)).

(** [user.last_known_location = point_wkt; db.commit()] *)
Definition set_last_known_location (user : User.t) (point : coords) : Handler unit :=
  statement
    (fun w =>
       (Ok tt,
        {| session := session w;
           users :=
             map (fun u =>
                    if User.id u =? User.id user
                    then {| User.id := User.id u; User.name := User.name u;
                            User.email := User.email u;
                            User.created_at := User.created_at u;
                            User.last_known_location := Some point |}
                    else u)
               (users w);
           guardians := guardians w;
           users_id_seq := users_id_seq w;
           guardians_id_seq := guardians_id_seq w;
           statements := statements w; outbox := outbox w;
           stdout := stdout w |})).

(** [twilio_client.messages.create(body=, from_=, to=)] *)
Definition send_message (sms : Sms.t) : Handler (attempt string) :=
  fun w =>
    (Ok (messages_create (List.length (outbox w)) sms),
     {| session := session w; users := users w; guardians := guardians w;
        users_id_seq := users_id_seq w;
        guardians_id_seq := guardians_id_seq w;
        statements := statements w; outbox := (outbox w ++ [sms])%list;
        stdout := stdout w |}).

(** *** The handlers *)

(** "Creates a new user and stores it in the database.  Now with checks for
    duplicate emails." *)
Definition create_user (user : UserCreate.t) : Handler User.t :=
  (existing_user <- query_user_by_email (UserCreate.email user) ;;
   match existing_user with
   | Some _ =>
       hraise
         (HTTPException 400
            "Email already registered. Please use a different email.")
   | None =>
       new_user <- add_user (UserCreate.name user) (UserCreate.email user) ;;
       new_user <- refresh new_user ;;
       hret new_user
   end)%api.

(** "Retrieves the details of a specific user". *)
Definition get_user (user_id : Z) : Handler User.t :=
  (user <- query_user_by_id user_id ;;
   match user with
   | None => hraise (HTTPException 404 "User not found")
   | Some user => hret user
   end)%api.

(** "Creates a new guardian and links them to an existing user." *)
Definition create_guardian_for_user (user_id : Z) (guardian : GuardianCreate.t)
  : Handler Guardian.t :=
  (user <- query_user_by_id user_id ;;
   match user with
   | None => hraise (HTTPException 404 "User not found")
   | Some _ =>
       new_guardian <- add_guardian (GuardianCreate.name guardian)
                         (GuardianCreate.phone_number guardian) user_id ;;
       new_guardian <- refresh new_guardian ;;
       hret new_guardian
   end)%api.

(** "Retrieves a list of all guardians for a specific user." *)
Definition get_guardians_for_user (user_id : Z) : Handler (list Guardian.t) :=
  (user <- query_user_by_id user_id ;;
   match user with
   | None => hraise (HTTPException 404 "User not found")
   | Some user => load_guardians user
   end)%api.

(** "Updates the last known location for a specific user."  The point is
    written as [f'POINT({location.longitude} {location.latitude})']. *)
Definition update_user_location (user_id : Z) (location : LocationUpdate.t)
  : Handler (dict.t string) :=
  (user <- query_user_by_id user_id ;;
   match user with
   | None => hraise (HTTPException 404 "User not found")
   | Some user =>
       let point_wkt :=
         (LocationUpdate.longitude location, LocationUpdate.latitude location) in
       set_last_known_location user point_wkt ;;;
       hret [("message", "Location updated for user " ++ str_int user_id)]
   end)%api.

(** "Retrieves the risk score for a given latitude and longitude
    coordinate." *)
Definition get_risk_score (lat lon : float) : M RiskResponse.t :=
  let user_point_wkt := (lon, lat) in
  (zone <- query_first_zone_within user_point_wkt ;;
   match zone with
   | Some zone =>
       ret {| RiskResponse.risk_score := models.risk_score zone;
              RiskResponse.zone_name := models.name zone |}
   | None =>
       ret {| RiskResponse.risk_score := 1;
              RiskResponse.zone_name := "No specific risk zone" |}
   end)%py.

(** The text of the alert. *)
Definition message_body (user : User.t) (lat lon : float) : string :=
  let maps_link :=
    "https://www.google.com/maps?q=" ++ str_float lat ++ "," ++ str_float lon in
  "**SOS Alert from Vaayu**" ++ LF
  ++ "Your contact, " ++ User.name user ++ ", has triggered an SOS." ++ LF
  ++ "Last known location: " ++ str_float lat ++ ", " ++ str_float lon ++ LF
  ++ "View on map: " ++ maps_link.

(** "Triggers an SOS alert for a user.  This fetches the user's last known
    location and sends an SMS alert to all of their registered guardians
    via Twilio." *)
Definition create_sos_alert (user_id : Z) : Handler SosResponse.t :=
  (user <- query_user_by_id user_id ;;
   match user with
   | None => hraise (HTTPException 404 "User not found")
   | Some user =>
       guardians <- load_guardians user ;;
       match guardians with
       | [] => hraise (HTTPException 400 "User has no guardians registered")
       | _ :: _ =>
           match User.last_known_location user with
           | None => hraise (HTTPException 400 "User location is unknown")
           | Some location_point =>
               match Client with
               | Raised e =>
                   hraise
                     (HTTPException 500 ("Twilio configuration error: " ++ e))
               | Returned _ =>
                   let lon := fst location_point in
                   let lat := snd location_point in
                   let message_body := message_body user lat lon in
                   sent_messages <-
                     hfor_each guardians
                       (fun sent_messages guardian =>
                          message <-
                            send_message
                              {| Sms.body := message_body;
                                 Sms.from_ := twilio_phone_number;
                                 Sms.to := Guardian.phone_number guardian |} ;;
                          match message with
                          | Returned sid =>
                              hret
                                (sent_messages
                                 ++ [{| SosResponse.to :=
                                          Guardian.phone_number guardian;
                                        SosResponse.sid := sid |}])%list
                          | Raised e =>
                              print
                                ("Failed to send SMS to "
                                 ++ Guardian.phone_number guardian
                                 ++ ": " ++ e) ;;;
                              hret sent_messages
                          end)
                       [] ;;
                   match sent_messages with
                   | [] =>
                       hraise
                         (HTTPException 500
                            "Failed to send SMS to any guardian.")
                   | _ :: _ =>
                       hret
                         {| SosResponse.message :=
                              "SOS alerts sent successfully";
                            SosResponse.details := sent_messages |}
                   end
               end
           end
       end
   end)%api.

(** "Receives a Situation Report, uses the AI RAG chain to analyze it, and
    returns the AI's decision." *)
Definition post_situation_report (user_id : Z)
    (request : SituationReportRequest.t) : Handler SituationReportResponse.t :=
  (user <- query_user_by_id user_id ;;
   match user with
   | None => hraise (HTTPException 404 "User not found")
   | Some user =>
       match User.last_known_location user with
       | None => hraise (HTTPException 400 "User location is unknown")
       | Some location_point =>
           let lon := fst location_point in
           let lat := snd location_point in
           let user_point_wkt := (lon, lat) in
           zone <- with_session (query_first_zone_within user_point_wkt) ;;
           let risk_score :=
             match zone with
             | Some zone => models.risk_score zone
             | None => 1
             end in
           let context :=
             {| context.risk_score := risk_score;
                context.heart_rate := SituationReportRequest.heart_rate request;
                context.transcript := SituationReportRequest.transcript request |}
           in
           match crisis_chain_invoke context with
           | Raised e =>
               hraise (HTTPException 503 ("AI service error: " ++ e))
           | Returned ai_decision =>
               let final_decision := str_upper (str_strip ai_decision) in
               hret {| SituationReportResponse.decision := final_decision;
                       SituationReportResponse.reasoning_context := context |}
           end
       end
   end)%api.

End services.

End routes.

(** ** main.py and the router: the application's endpoints *)

(** A request, by method and path. *)
Inductive request : Type :=
| GET_root
| POST_users (user : routes.UserCreate.t)
| GET_users_id (user_id : Z)
| POST_users_id_guardians (user_id : Z) (guardian : routes.GuardianCreate.t)
| GET_users_id_guardians (user_id : Z)
| POST_users_id_location (user_id : Z) (location : routes.LocationUpdate.t)
| GET_location_risk (lat lon : float)
| POST_users_id_sos (user_id : Z)
| POST_users_id_sitrep (user_id : Z)
    (report : routes.SituationReportRequest.t)
| POST_navigate_safest_route (route : routes.RouteRequest).

(** What a handler returns. *)
Inductive response : Type :=
| Message (body : dict.t string)
| OneUser (user : User.t)
| OneGuardian (guardian : Guardian.t)
| Guardians (guardians : list Guardian.t)
| Risk (risk : routes.RiskResponse.t)
| Sos (sos : routes.SosResponse.t)
| Sitrep (sitrep : routes.SituationReportResponse.t)
| Route (route : navigation.route).

(** [read_root] *)
Definition read_root : dict.t string :=
  [("message", "Welcome to Vaayu - The GenAI Guardian Angel")].

Section application.

Variable faults : nat -> option exn.
Variable now : nat -> Z.
Variable Client : attempt unit.
Variable messages_create : nat -> Sms.t -> attempt string.
Variable twilio_phone_number : string.
Variable crisis_chain_invoke : routes.context.t -> attempt string.
Variable str_float : float -> string.
Variable str_strip : string -> string.
Variable str_upper : string -> string.

(** The handler the router calls for a request. *)
Definition endpoint (r : request) : Handler response :=
  match r with
  | GET_root => hret (Message read_root)
  | POST_users user =>
      (x <- routes.create_user faults now user ;; hret (OneUser x))%api
  | GET_users_id user_id =>
      (x <- routes.get_user faults user_id ;; hret (OneUser x))%api
  | POST_users_id_guardians user_id guardian =>
      (x <- routes.create_guardian_for_user faults user_id guardian ;;
       hret (OneGuardian x))%api
  | GET_users_id_guardians user_id =>
      (x <- routes.get_guardians_for_user faults user_id ;;
       hret (Guardians x))%api
  | POST_users_id_location user_id location =>
      (x <- routes.update_user_location faults user_id location ;;
       hret (Message x))%api
  | GET_location_risk lat lon =>
      (x <- with_session (routes.get_risk_score lat lon) ;; hret (Risk x))%api
  | POST_users_id_sos user_id =>
      (x <- routes.create_sos_alert faults Client messages_create
              twilio_phone_number str_float user_id ;;
       hret (Sos x))%api
  | POST_users_id_sitrep user_id report =>
      (x <- routes.post_situation_report faults crisis_chain_invoke
              str_strip str_upper user_id report ;;
       hret (Sitrep x))%api
  | POST_navigate_safest_route route =>
      (x <- with_session
              (routes.get_safest_route navigation.MAP_NODES
                 navigation.MAP_EDGES route) ;;
       hret (Route x))%api
  end.


End application.

(** * Vocabulary of the specification *)

(** ** The risk index *)

(** The arithmetic midpoint of two coordinates: the average of the
    longitudes and the average of the latitudes. *)
Definition midpoint (a b : coords) : coords :=
  ((fst a + fst b) / 2, (snd a + snd b) / 2)%float.

(** The risk index classifies a point as inside a zone when the query finds
    a row (a zone within zero distance of the point), and as outside when it
    finds none. *)
Definition in_zone (db : Session) (p : coords) : Prop :=
  exists z, answer db p = Row (Some z).

(** The query at [p] finds no zone. *)
Definition zone_free (db : Session) (p : coords) : Prop :=
  answer db p = Row None.

(** The risk index is reachable: every lookup returns. *)
Definition available (db : Session) : Prop :=
  forall p, exists first, answer db p = Row first.

(** Two sessions over the same risk-zone data. *)
Definition same_data (db db' : Session) : Prop :=
  forall p, answer db p = answer db' p.

(** ** Computations on the session *)

(** A computation keeps the data of the session. *)
Definition keeps_data {A : Type} (m : M A) : Prop :=
  forall db, answer (snd (m db)) = answer db.

(** A computation whose outcome, and the points it sends to the risk index,
    depend on the session only through the replies at the points of [P]. *)
Definition reads {A : Type} (P : coords -> Prop) (m : M A) : Prop :=
  forall db db',
    (forall p, P p -> answer db p = answer db' p) ->
    fst (m db) = fst (m db') /\
    exists sent,
      issued (snd (m db)) = (issued db ++ sent)%list /\
      issued (snd (m db')) = (issued db' ++ sent)%list.

(** The sample points of a map: the midpoint of every street whose two ends
    are in the node table. *)
Definition sample_points (MAP_NODES : dict.t coords)
    (MAP_EDGES : list (string * string)) : list coords :=
  flat_map
    (fun uv =>
       match dict.get MAP_NODES (fst uv), dict.get MAP_NODES (snd uv) with
       | Some a, Some b => [midpoint a b]
       | _, _ => []
       end)
    MAP_EDGES.

(** The sample points of a map, as a predicate. *)
Definition sampled (MAP_NODES : dict.t coords)
    (MAP_EDGES : list (string * string)) (p : coords) : Prop :=
  In p (sample_points MAP_NODES MAP_EDGES).

(** ** Graphs and walks *)

(** [v] is a neighbour of [u]. *)
Definition adjacent (G_succ : dict.t (dict.t nx.edge_attr)) (u v : string)
  : Prop :=
  exists nbrs e, dict.get G_succ u = Some nbrs /\ dict.get nbrs v = Some e.

(** [walk_in G_succ sources u p]: [p] starts at one of the sources, ends at
    [u], and each of its hops goes to a neighbour. *)
Inductive walk_in (G_succ : dict.t (dict.t nx.edge_attr))
    (sources : list string) : string -> list string -> Prop :=
| walk_start (s : string) : In s sources -> walk_in G_succ sources s [s]
| walk_snoc (v u : string) (p : list string) :
    walk_in G_succ sources v p -> adjacent G_succ v u ->
    walk_in G_succ sources u (p ++ [u]).

(** Every path on record is a walk. *)
Definition paths_are_walks (G_succ : dict.t (dict.t nx.edge_attr))
    (sources : list string) (st : nx.search) : Prop :=
  forall u p, dict.get (nx.paths st) u = Some p -> walk_in G_succ sources u p.

(** The weight the graph stores for the edge from [u] to [v]. *)
Definition edge_weight (G : nx.Graph) (u v : string) : option Z :=
  match dict.get (nx._adj G) u with
  | Some nbrs =>
      match dict.get nbrs v with
      | Some data => Some (nx._weight_function "weight" u v data)
      | None => None
      end
  | None => None
  end.

(** The total weight of a node sequence in the graph. *)
Fixpoint path_weight (G : nx.Graph) (p : list string) : option Z :=
  match p with
  | a :: (b :: _) as rest =>
      match edge_weight G a b, path_weight G rest with
      | Some w, Some r => Some (w + r)
      | _, _ => None
      end
  | _ => Some 0
  end.

(** The neighbour entries of the nodes that are not settled yet. *)
Definition unsettled (G_succ : dict.t (dict.t nx.edge_attr)) (dist : dict.t Z)
  : nat :=
  list_sum
    (map (fun kv => if dict.mem dist (fst kv) then O else List.length (snd kv))
       G_succ).

(** What bounds the iterations left: the tuples on the fringe and the pushes
    still to come. *)
Definition work (G_succ : dict.t (dict.t nx.edge_attr)) (st : nx.search) : nat :=
  (List.length (nx.fringe st) + unsettled G_succ (nx.dist st))%nat.

(** ** The shipped map *)

(** [find_safest_route] on the shipped map. *)
Definition plan (s t : string) (db : Session)
  : outcome (option navigation.route) :=
  fst (navigation.find_safest_route navigation.MAP_NODES navigation.MAP_EDGES
         s t db).

(** [create_map_graph] on the shipped map. *)
Definition built (db : Session) : outcome nx.Graph :=
  fst (navigation.create_map_graph navigation.MAP_NODES navigation.MAP_EDGES
         db).

(** A known node identifier. *)
Definition valid (n : string) : Prop := dict.mem navigation.MAP_NODES n = true.

(** The five identifiers, in the order of [MAP_NODES]. *)
Definition names : list string := dict.keys navigation.MAP_NODES.

(** A declared street, in either orientation. *)
Definition street (u v : string) : Prop :=
  In (u, v) navigation.MAP_EDGES \/ In (v, u) navigation.MAP_EDGES.

(** The sample point of the street between two known nodes. *)
Definition street_midpoint (u v : string) : option coords :=
  match dict.get navigation.MAP_NODES u, dict.get navigation.MAP_NODES v with
  | Some a, Some b => Some (midpoint a b)
  | _, _ => None
  end.

(** The street between [u] and [v] has its sample point in a zone. *)
Definition street_in_zone (db : Session) (u v : string) : Prop :=
  exists p, street_midpoint u v = Some p /\ in_zone db p.

(** The street between [u] and [v] has its sample point outside all zones. *)
Definition street_zone_free (db : Session) (u v : string) : Prop :=
  exists p, street_midpoint u v = Some p /\ zone_free db p.

(** The weight the policy gives a street: 100 when its sample point is in a
    zone, 1 otherwise. *)
Definition risk_weight (db : Session) (u v : string) : Z :=
  match street_midpoint u v with
  | Some p => match answer db p with Row (Some _) => 100 | _ => 1 end
  | None => 1
  end.

(** The consecutive pairs of a node sequence. *)
Fixpoint hops (p : list string) : list (string * string) :=
  match p with
  | a :: (b :: _) as rest => (a, b) :: hops rest
  | _ => []
  end.

(** [connects s t p]: the node sequence [p] leads from [s] to [t] along
    declared streets. *)
Inductive connects : string -> string -> list string -> Prop :=
| connects_end (t : string) : valid t -> connects t t [t]
| connects_hop (s u t : string) (p : list string) :
    street s u -> connects u t p -> connects s t (s :: p).

(** The five sample points of the shipped map, in the order of [MAP_EDGES]. *)
Definition shipped_points : list coords :=
  sample_points navigation.MAP_NODES navigation.MAP_EDGES.

(** The risk index answers at the five sample points. *)
Definition sampled_available (db : Session) : Prop :=
  forall p, In p shipped_points -> exists first, answer db p = Row first.

(** ** The endpoint's failure *)

(** The one failure the endpoint reports. *)
Definition not_found (MAP_NODES : dict.t coords) : exn :=
  HTTPException 404
    ("No path found or invalid nodes provided. Valid nodes are: "
     ++ String.concat ", " (dict.keys MAP_NODES)).


(** ** Tables of replies and checks by evaluation *)

(** The two points compare equal, component by component. *)
Definition coords_eqb (p q : coords) : bool :=
  PrimFloat.eqb (fst p) (fst q) && PrimFloat.eqb (snd p) (snd q).

(** The reply a table gives at [p]: the one listed for [p], and no row for
    a point that is not listed. *)
Fixpoint table_answer (points : list coords) (replies : list reply)
    (p : coords) : reply :=
  match points, replies with
  | q :: points', r :: replies' =>
      if coords_eqb q p then r else table_answer points' replies' p
  | _, _ => Row None
  end.

(** A fresh session whose data is a table of replies, one per sample point
    of the shipped map. *)
Definition table (replies : list reply) : Session :=
  {| answer := table_answer shipped_points replies; issued := [] |}.

(** [check s t (plan s t db)] for all known [s] and [t]. *)
Definition every_route
    (check : string -> string -> outcome (option navigation.route) -> bool)
    (db : Session) : bool :=
  forallb (fun s => forallb (fun t => check s t (plan s t db)) names) names.

(** [street], decided. *)
Definition streetb (u v : string) : bool :=
  existsb
    (fun e => (String.eqb (fst e) u && String.eqb (snd e) v)
              || (String.eqb (fst e) v && String.eqb (snd e) u))
    navigation.MAP_EDGES.

(** Every hop of the route an outcome carries is a street. *)
Definition streets_only (s t : string) (o : outcome (option navigation.route))
  : bool :=
  match o with
  | Ok (Some r) =>
      forallb (fun uv => streetb (fst uv) (snd uv))
        (hops (navigation.path_nodes r))
  | _ => true
  end.

(** The outcome carries a route. *)
Definition returns_route (s t : string) (o : outcome (option navigation.route))
  : bool :=
  match o with
  | Ok (Some _) => true
  | _ => false
  end.

(** The weight, in the graph, of the route an outcome carries. *)
Definition route_weight (G : nx.Graph) (o : outcome (option navigation.route))
  : option Z :=
  match o with
  | Ok (Some r) => path_weight G (navigation.path_nodes r)
  | _ => None
  end.

(** The route planned from [u] to [t] weighs no more than the edge from [u]
    to [v] followed by the route planned from [v] to [t]. *)
Definition relaxed (G : nx.Graph) (db : Session) (t u v : string) : bool :=
  match route_weight G (plan u t db), route_weight G (plan v t db),
        edge_weight G u v with
  | Some a, Some b, Some w => a <=? w + b
  | _, _, _ => false
  end.

(** The planned routes to [t] form a feasible potential: the route from [t]
    to itself weighs 0 and every street is relaxed in both orientations. *)
Definition potential_at (G : nx.Graph) (db : Session) (t : string) : bool :=
  match route_weight G (plan t t db) with
  | Some 0 => true
  | _ => false
  end
  && forallb
       (fun uv => relaxed G db t (fst uv) (snd uv)
                  && relaxed G db t (snd uv) (fst uv))
       navigation.MAP_EDGES.

(** The graph is built and the planned routes form a feasible potential
    towards every node. *)
Definition potential_ok (db : Session) : bool :=
  match built db with
  | Ok G => forallb (potential_at G db) names
  | _ => false
  end.

(** ** Zones and zoning *)

(** Two replies of the same kind: both a row, both none, or the same error. *)
Definition same_kind (r r' : reply) : Prop :=
  match r, r' with
  | Row (Some _), Row (Some _) => True
  | Row None, Row None => True
  | Fault e, Fault e' => e = e'
  | _, _ => False
  end.

(** Two sessions that place the same points in zones, whatever the zones. *)
Definition same_zoning (db db' : Session) : Prop :=
  forall p, same_kind (answer db p) (answer db' p).

(** ** More checks by evaluation *)

(** No name occurs twice. *)
Fixpoint nodupb (l : list string) : bool :=
  match l with
  | [] => true
  | x :: l' => negb (existsb (String.eqb x) l') && nodupb l'
  end.

(** The route an outcome carries visits known nodes, each at most once. *)
Definition simple_route (s t : string) (o : outcome (option navigation.route))
  : bool :=
  match o with
  | Ok (Some r) =>
      nodupb (navigation.path_nodes r)
      && forallb (dict.mem navigation.MAP_NODES) (navigation.path_nodes r)
  | _ => true
  end.

(** Every neighbour entry of the adjacency joins the two ends of a street. *)
Definition adjacency_in_map (G : nx.Graph) : bool :=
  forallb
    (fun un => forallb (fun ve => streetb (fst un) (fst ve)) (snd un))
    (nx._adj G).

(** The node sequence leads from [s] to [t]: it starts at [s], ends at [t],
    and each of its hops is a declared street. *)
Fixpoint leadsb (s t : string) (p : list string) : bool :=
  match p with
  | [] => false
  | a :: rest =>
      String.eqb a s
      && match rest with
         | [] => String.eqb a t
         | b :: _ => streetb a b && leadsb b t rest
         end
  end.

(** The route an outcome carries leads from [s] to [t]. *)
Definition leads_there (s t : string) (o : outcome (option navigation.route))
  : bool :=
  match o with
  | Ok (Some r) => leadsb s t (navigation.path_nodes r)
  | _ => true
  end.

(** The route an outcome carries weighs at most 4 or at least 100 in [G]. *)
Definition light_or_heavy (G : nx.Graph) (s t : string)
    (o : outcome (option navigation.route)) : bool :=
  match o with
  | Ok (Some r) =>
      match path_weight G (navigation.path_nodes r) with
      | Some w => (w <=? 4) || (100 <=? w)
      | None => false
      end
  | _ => true
  end.

(** Every planned route weighs at most 4 or at least 100 in the graph built
    over the same session. *)
Definition weights_split (db : Session) : bool :=
  match built db with
  | Ok G => every_route (light_or_heavy G) db
  | _ => true
  end.

(** ** The tables *)

(** [user_id] is the [id] of a row of [users]. *)
Definition known_user (w : World) (user_id : Z) : Prop :=
  In user_id (map User.id (users w)).

(** The guardians of a user, in the order of the table. *)
Definition guardians_of (w : World) (user_id : Z) : list Guardian.t :=
  filter (fun g => Guardian.user_id g =? user_id) (guardians w).

(** The rows of the two tables are the same. *)
Definition rows_kept (w w' : World) : Prop :=
  users w' = users w /\ guardians w' = guardians w.

(** Nothing is written, sent, printed or asked of the risk index; [n]
    statements are counted. *)
Definition read_only (n : nat) (w w' : World) : Prop :=
  rows_kept w w' /\ session w' = session w /\ outbox w' = outbox w /\
  stdout w' = stdout w /\ statements w' = (n + statements w)%nat.

(** The server refuses no statement. *)
Definition reachable (faults : nat -> option exn) : Prop :=
  forall n, faults n = None.

(** What the schema of [db/models.py] promises of the tables: [id] is a
    key of each, no two users share an [email], every guardian belongs to
    a user, and the sequences are not behind the rows. *)
Definition consistent (w : World) : Prop :=
  NoDup (map User.id (users w)) /\
  NoDup (map User.email (users w)) /\
  NoDup (map Guardian.id (guardians w)) /\
  Forall (fun g => known_user w (Guardian.user_id g)) (guardians w) /\
  Forall (fun u => User.id u <= users_id_seq w) (users w) /\
  Forall (fun g => Guardian.id g <= guardians_id_seq w) (guardians w).

(** The failure of the handlers that are given a user who is not there. *)
Definition user_not_found : exn := HTTPException 404 "User not found".

(** A handler refuses with [e] after [n] statements that change nothing. *)
Definition refuses {A : Type} (n : nat) (m : Handler A) (w : World) (e : exn)
  : Prop :=
  fst (m w) = Raise e /\ read_only n w (snd (m w)).


(** ** Alerts *)

(** The message [create_sos_alert] writes to a guardian of [user], whose
    last known location is [location]. *)
Definition alert (str_float : float -> string) (twilio_phone_number : string)
    (user : User.t) (location : coords) (guardian : Guardian.t) : Sms.t :=
  {| Sms.body := routes.message_body str_float user (snd location)
                   (fst location);
     Sms.from_ := twilio_phone_number;
     Sms.to := Guardian.phone_number guardian |}.

(** What Twilio does with the messages of a list that is handed over after
    [n] other messages. *)
Fixpoint deliveries (messages_create : nat -> Sms.t -> attempt string)
    (n : nat) (messages : list Sms.t) : list (Sms.t * attempt string) :=
  match messages with
  | [] => []
  | m :: messages' =>
      (m, messages_create n m) :: deliveries messages_create (S n) messages'
  end.

(** The messages Twilio took, each with its [sid]. *)
Definition delivered (ds : list (Sms.t * attempt string))
  : list routes.SosResponse.sent :=
  flat_map
    (fun d =>
       match snd d with
       | Returned sid =>
           [{| routes.SosResponse.to := Sms.to (fst d);
               routes.SosResponse.sid := sid |}]
       | Raised _ => []
       end)
    ds.

(** The lines printed for the messages Twilio did not take. *)
Definition failures (ds : list (Sms.t * attempt string)) : list string :=
  flat_map
    (fun d =>
       match snd d with
       | Returned _ => []
       | Raised e => ["Failed to send SMS to " ++ Sms.to (fst d) ++ ": " ++ e]
       end)
    ds.

(** ** Example data *)

(** One zone: a rectangle over the two streets through [C_Risky_Area]. *)
Definition east_village : models.RiskZone :=
  {| models.id := 1;
     models.name := "East Village";
     models.zone :=
       [ (-73.992, 40.727); (-73.985, 40.727); (-73.985, 40.744);
         (-73.992, 40.744); (-73.992, 40.727) ]%float;
     models.risk_score := 8 |}.

(** [p] lies in the rectangle with corners [lo] and [hi]. *)
Definition in_box (lo hi p : coords) : bool :=
  PrimFloat.leb (fst lo) (fst p) && PrimFloat.leb (fst p) (fst hi)
  && PrimFloat.leb (snd lo) (snd p) && PrimFloat.leb (snd p) (snd hi).

(** A stand-in database holding that zone, which it finds by the
    rectangle test. *)
Definition east_village_db : Session :=
  {| answer :=
       fun p =>
         if in_box (-73.992, 40.727)%float (-73.985, 40.744)%float p
         then Row (Some east_village)
         else Row None;
     issued := [] |}.

(** A database with no zones. *)
Definition no_zones : Session := {| answer := fun _ => Row None; issued := [] |}.



(** The same rectangle, held as a zone of the lowest severity. *)
Definition quiet_village : models.RiskZone :=
  {| models.id := 7;
     models.name := "East Village (quiet)";
     models.zone := models.zone east_village;
     models.risk_score := 1 |}.

Definition quiet_village_db : Session :=
  {| answer :=
       fun p =>
         if in_box (-73.992, 40.727)%float (-73.985, 40.744)%float p
         then Row (Some quiet_village)
         else Row None;
     issued := [] |}.

(** A database whose index fails inside the East Village rectangle. *)
Definition east_village_outage : Session :=
  {| answer :=
       fun p =>
         if in_box (-73.992, 40.727)%float (-73.985, 40.744)%float p
         then Fault (DBAPIError "statement timeout")
         else Row None;
     issued := [] |}.

(** The shipped map with a street to a node that is not declared. *)
Definition edges_with_typo : list (string * string) :=
  (navigation.MAP_EDGES ++ [("E_Work", "F_Harbor")])%list.

(** The graph built over [east_village_db]. *)
Definition east_village_graph : nx.Graph :=
  Eval vm_compute in
    match built east_village_db with
    | Ok G => G
    | _ => nx.Graph_init
    end.

(** ** Example tables and services *)

(** A server that refuses no statement, and one that refuses the third. *)
Definition no_faults : nat -> option exn := fun _ => None.

Definition third_fails : nat -> option exn :=
  fun n =>
    if (n =? 2)%nat then Some (DBAPIError "server closed the connection")
    else None.

Definition server_time : nat -> Z := fun n => 1700000000 + Z.of_nat n.

(** Two users: Ada, last seen at [C_Risky_Area], with two guardians, and
    Bo, who has no guardian and no known location. *)
Definition ada : User.t :=
  {| User.id := 1; User.name := "Ada"; User.email := "ada@example.org";
     User.created_at := 1700000000;
     User.last_known_location := Some (-73.9860, 40.7328)%float |}.

Definition bo : User.t :=
  {| User.id := 2; User.name := "Bo"; User.email := "bo@example.org";
     User.created_at := 1700000060;
     User.last_known_location := None |}.

Definition carl : Guardian.t :=
  {| Guardian.id := 1; Guardian.name := "Carl";
     Guardian.phone_number := "+15550100"; Guardian.user_id := 1 |}.

Definition dee : Guardian.t :=
  {| Guardian.id := 2; Guardian.name := "Dee";
     Guardian.phone_number := "+15550101"; Guardian.user_id := 1 |}.

Definition two_users : World :=
  {| session := east_village_db; users := [ada; bo];
     guardians := [carl; dee]; users_id_seq := 2; guardians_id_seq := 2;
     statements := 0; outbox := []; stdout := [] |}.

(** Twilio takes every message but the first. *)
Definition first_message_fails : nat -> Sms.t -> attempt string :=
  fun n _ =>
    if (n =? 0)%nat then Raised "unreachable number" else Returned "SM0002".

(** A chain that answers in lower case, with a line feed. *)
Definition lower_case_alert : routes.context.t -> attempt string :=
  fun _ => Returned ("alert" ++ LF).

(** Stand-ins for the text of a float and for [strip] and [upper]. *)
Definition some_text : float -> string := fun _ => "0.0".
Definition same_text : string -> string := fun s => s.

(** * Properties *)

(** ** Floating-point addition commutes *)

Lemma SF64add_comm (x y : SpecFloat.spec_float) : SF64add x y = SF64add y x.
Proof.
  unfold SF64add, SpecFloat.SFadd.
  destruct x as [sx|sx| |sx mx ex], y as [sy|sy| |sy my ey];
    try reflexivity;
    try (destruct sx, sy; reflexivity).
  rewrite (Z.min_comm ey ex), Z.add_comm. reflexivity.
Qed.

Lemma float_add_comm (x y : float) : (x + y)%float = (y + x)%float.
Proof.
  apply Prim2SF_inj. rewrite !add_spec. apply SF64add_comm.
Qed.

Lemma midpoint_comm (a b : coords) : midpoint a b = midpoint b a.
Proof.
  unfold midpoint.
  rewrite (float_add_comm (fst a)), (float_add_comm (snd a)). reflexivity.
Qed.

(** ** Dictionaries *)

Lemma get_set {V : Type} (d : dict.t V) (k k' : string) (v : V) :
  dict.get (dict.set d k v) k'
  = if String.eqb k k' then Some v else dict.get d k'.
Proof.
  induction d as [|[a x] d IH]; simpl.
  - reflexivity.
  - destruct (String.eqb_spec a k) as [->|Hak]; simpl.
    + destruct (String.eqb k k'); reflexivity.
    + rewrite IH. destruct (String.eqb_spec a k') as [->|Hak'];
        [|reflexivity].
      destruct (String.eqb_spec k k') as [->|_]; [contradiction|reflexivity].
Qed.

Lemma mem_set {V : Type} (d : dict.t V) (k k' : string) (v : V) :
  dict.mem (dict.set d k v) k' = String.eqb k k' || dict.mem d k'.
Proof.
  unfold dict.mem. rewrite get_set. destruct (String.eqb k k'); reflexivity.
Qed.

Lemma get_in {V : Type} (d : dict.t V) (k : string) (x : V) :
  In (k, x) d -> exists x', dict.get d k = Some x'.
Proof.
  induction d as [|[a y] d IH]; simpl; [contradiction|].
  intros [H|H].
  - injection H as -> ->. rewrite String.eqb_refl. eexists. reflexivity.
  - destruct (String.eqb a k); [eexists; reflexivity|auto].
Qed.


Lemma omap_getitem_ends {V : Type} (d : dict.t V) (p : list string) :
  omap (dict.getitem d) p <> NoFuel.
Proof.
  induction p as [|n p IH]; simpl; [discriminate|].
  unfold dict.getitem at 1. destruct (dict.get d n); simpl; [|discriminate].
  destruct (omap (dict.getitem d) p); simpl;
    [discriminate|discriminate|contradiction].
Qed.

Lemma forallb_pointwise {A : Type} (f g : A -> bool) (l : list A) :
  (forall x, f x = g x) -> forallb f l = forallb g l.
Proof.
  intros H. induction l as [|x l IH]; simpl; [reflexivity|].
  rewrite H, IH. reflexivity.
Qed.

(** ** The session is only read *)

Lemma reads_outcome {A : Type} (P : coords -> Prop) (m : M A) (db db' : Session) :
  reads P m -> (forall p, P p -> answer db p = answer db' p) ->
  fst (m db) = fst (m db').
Proof. intros H Hagree. apply (H db db' Hagree). Qed.

Section session_lemmas.

Context {A B : Type}.

Lemma keeps_data_ret (a : A) : keeps_data (ret a).
Proof. intros db. reflexivity. Qed.

Lemma keeps_data_lift (x : outcome A) : keeps_data (lift x).
Proof. intros db. reflexivity. Qed.

Lemma keeps_data_bind (m : M A) (f : A -> M B) :
  keeps_data m -> (forall a, keeps_data (f a)) -> keeps_data (bind m f).
Proof.
  intros Hm Hf db. unfold bind. specialize (Hm db).
  destruct (m db) as [[a|e|] db1]; simpl in *; try assumption.
  rewrite Hf. assumption.
Qed.

Lemma reads_lift (P : coords -> Prop) (x : outcome A) : reads P (lift x).
Proof.
  intros db db' _. split; [reflexivity|].
  exists []. simpl. rewrite !app_nil_r. split; reflexivity.
Qed.

Lemma reads_ret (P : coords -> Prop) (a : A) : reads P (ret a).
Proof. apply (reads_lift P (Ok a)). Qed.

Lemma reads_bind (P : coords -> Prop) (m : M A) (f : A -> M B) :
  reads P m -> keeps_data m -> (forall a, reads P (f a)) ->
  reads P (bind m f).
Proof.
  intros Hm Hk Hf db db' Hagree. unfold bind.
  destruct (Hm db db' Hagree) as [Hfst (sent1 & Hs & Hs')].
  pose proof (Hk db) as Hd. pose proof (Hk db') as Hd'.
  destruct (m db) as [o db1], (m db') as [o' db1']; simpl in *.
  subst o'. destruct o as [a|e|]; simpl;
    try (split; [reflexivity|]; exists sent1; split; assumption).
  assert (Hagree1 : forall p, P p -> answer db1 p = answer db1' p).
  { intros p Hp. rewrite Hd, Hd'. auto. }
  destruct (Hf a db1 db1' Hagree1) as [Hfst2 (sent2 & H2 & H2')].
  split; [exact Hfst2|]. exists (sent1 ++ sent2)%list.
  rewrite H2, H2', Hs, Hs', !app_assoc. split; reflexivity.
Qed.

(** A pure step first: what follows is only run on the value it returns. *)
Lemma reads_lift_bind (P : coords -> Prop) (x : outcome A) (f : A -> M B) :
  (forall a, x = Ok a -> reads P (f a)) -> reads P (bind (lift x) f).
Proof.
  intros H db db' Hagree. unfold bind, lift.
  destruct x as [a|e|];
    [ apply (H a eq_refl); assumption
    | split; [reflexivity|]; exists []; simpl; rewrite !app_nil_r;
      split; reflexivity .. ].
Qed.

End session_lemmas.

Lemma keeps_data_query (p : coords) : keeps_data (query_first_zone_within p).
Proof. intros db. reflexivity. Qed.

Lemma reads_query (P : coords -> Prop) (p : coords) :
  P p -> reads P (query_first_zone_within p).
Proof.
  intros Hp db db' Hagree. unfold query_first_zone_within. simpl.
  rewrite (Hagree p Hp). split; [reflexivity|].
  exists [p]. split; reflexivity.
Qed.

Lemma keeps_data_for_each {A S : Type} (body : S -> A -> M S) (xs : list A) :
  (forall acc x, In x xs -> keeps_data (body acc x)) ->
  forall acc, keeps_data (for_each xs body acc).
Proof.
  induction xs as [|x xs IH]; intros Hb acc; simpl.
  - apply keeps_data_ret.
  - apply keeps_data_bind.
    + apply Hb. left. reflexivity.
    + intros acc'. apply IH. intros a y Hy. apply Hb. right. assumption.
Qed.

Lemma reads_for_each {A S : Type} (P : coords -> Prop) (body : S -> A -> M S)
    (xs : list A) :
  (forall acc x, In x xs -> reads P (body acc x)) ->
  (forall acc x, In x xs -> keeps_data (body acc x)) ->
  forall acc, reads P (for_each xs body acc).
Proof.
  induction xs as [|x xs IH]; intros Hr Hk acc; simpl.
  - apply reads_ret.
  - apply reads_bind.
    + apply Hr. left. reflexivity.
    + apply Hk. left. reflexivity.
    + intros acc'. apply IH; intros a y Hy; [apply Hr | apply Hk]; right; assumption.
Qed.

Lemma for_each_raises {A S : Type} (body : S -> A -> M S) (xs : list A)
    (x0 : A) (data : coords -> reply) :
  (forall acc x db, fst (body acc x db) <> NoFuel) ->
  (forall acc x, keeps_data (body acc x)) ->
  In x0 xs ->
  (forall acc db, answer db = data -> exists e, fst (body acc x0 db) = Raise e) ->
  forall acc db, answer db = data ->
    exists e, fst (for_each xs body acc db) = Raise e.
Proof.
  intros Hfuel Hkeep Hin Hbad.
  induction xs as [|x xs IH]; [contradiction|].
  intros acc db Hdb. simpl. unfold bind.
  pose proof (Hfuel acc x db) as Hnf.
  pose proof (Hkeep acc x db) as Hk.
  destruct (body acc x db) as [[acc'|e|] db1] eqn:Hrun; simpl in *.
  - destruct Hin as [->|Hin].
    + destruct (Hbad acc db Hdb) as [e He]. rewrite Hrun in He. discriminate.
    + apply IH; [assumption|]. rewrite Hk. assumption.
  - exists e. reflexivity.
  - contradiction.
Qed.

Lemma for_each_ends {A S : Type} (body : S -> A -> M S) (xs : list A) :
  (forall acc x db, fst (body acc x db) <> NoFuel) ->
  forall acc db, fst (for_each xs body acc db) <> NoFuel.
Proof.
  intros Hb. induction xs as [|x xs IH]; intros acc db; simpl; [discriminate|].
  unfold bind. pose proof (Hb acc x db) as Hx.
  destruct (body acc x db) as [[acc'|e|] db1]; simpl in *;
    [apply IH|discriminate|contradiction].
Qed.

(** ** What the planner asks the risk index *)

Lemma get_edge_risk_weight_run (a b : coords) (db : Session) :
  navigation.get_edge_risk_weight a b db =
  (match answer db (midpoint a b) with
   | Row (Some _) => Ok 100
   | Row None => Ok 1
   | Fault e => Raise e
   end,
   {| answer := answer db; issued := issued db ++ [midpoint a b] |}).
Proof.
  unfold navigation.get_edge_risk_weight, bind, query_first_zone_within, midpoint.
  destruct (answer db _) as [[z|]|e]; reflexivity.
Qed.

Lemma keeps_data_get_edge_risk_weight (a b : coords) :
  keeps_data (navigation.get_edge_risk_weight a b).
Proof. intros db. rewrite get_edge_risk_weight_run. reflexivity. Qed.

Lemma reads_get_edge_risk_weight (P : coords -> Prop) (a b : coords) :
  P (midpoint a b) -> reads P (navigation.get_edge_risk_weight a b).
Proof.
  intros Hp db db' Hagree. rewrite !get_edge_risk_weight_run. simpl.
  rewrite (Hagree _ Hp). split; [reflexivity|].
  exists [midpoint a b]. split; reflexivity.
Qed.

Section any_map.

Variable MAP_NODES : dict.t coords.
Variable MAP_EDGES : list (string * string).

Lemma sample_points_intro (u v : string) (a b : coords) :
  In (u, v) MAP_EDGES ->
  dict.get MAP_NODES u = Some a -> dict.get MAP_NODES v = Some b ->
  sampled MAP_NODES MAP_EDGES (midpoint a b).
Proof.
  intros Hin Ha Hb. unfold sampled, sample_points.
  apply in_flat_map. exists (u, v). split; [assumption|].
  simpl. rewrite Ha, Hb. left. reflexivity.
Qed.

Lemma keeps_data_create_map_graph :
  keeps_data (navigation.create_map_graph MAP_NODES MAP_EDGES).
Proof.
  unfold navigation.create_map_graph.
  apply keeps_data_for_each. intros G [u v] _.
  apply keeps_data_bind; [apply keeps_data_lift|]. intros a.
  apply keeps_data_bind; [apply keeps_data_lift|]. intros b.
  apply keeps_data_bind; [apply keeps_data_get_edge_risk_weight|]. intros w.
  apply keeps_data_lift.
Qed.

Lemma reads_create_map_graph :
  reads (sampled MAP_NODES MAP_EDGES)
    (navigation.create_map_graph MAP_NODES MAP_EDGES).
Proof.
  unfold navigation.create_map_graph.
  apply reads_for_each.
  - intros G [u v] Hin.
    apply reads_lift_bind. intros a Ha.
    apply reads_lift_bind. intros b Hb.
    unfold dict.getitem in Ha, Hb.
    destruct (dict.get MAP_NODES u) as [a'|] eqn:Hu; [|discriminate].
    destruct (dict.get MAP_NODES v) as [b'|] eqn:Hv; [|discriminate].
    injection Ha as ->. injection Hb as ->.
    apply reads_bind.
    + apply reads_get_edge_risk_weight.
      apply (sample_points_intro u v a b Hin Hu Hv).
    + apply keeps_data_get_edge_risk_weight.
    + intros w. apply reads_lift.
  - intros G [u v] _.
    apply keeps_data_bind; [apply keeps_data_lift|]. intros a.
    apply keeps_data_bind; [apply keeps_data_lift|]. intros b.
    apply keeps_data_bind; [apply keeps_data_get_edge_risk_weight|]. intros w.
    apply keeps_data_lift.
Qed.

Lemma keeps_data_find_safest_route (s t : string) :
  keeps_data (navigation.find_safest_route MAP_NODES MAP_EDGES s t).
Proof.
  unfold navigation.find_safest_route.
  destruct (negb (dict.mem MAP_NODES s) || negb (dict.mem MAP_NODES t)).
  - apply keeps_data_ret.
  - apply keeps_data_bind; [apply keeps_data_create_map_graph|].
    intros G. apply keeps_data_lift.
Qed.

Lemma reads_find_safest_route (s t : string) :
  reads (sampled MAP_NODES MAP_EDGES)
    (navigation.find_safest_route MAP_NODES MAP_EDGES s t).
Proof.
  unfold navigation.find_safest_route.
  destruct (negb (dict.mem MAP_NODES s) || negb (dict.mem MAP_NODES t)).
  - apply reads_ret.
  - apply reads_bind.
    + apply reads_create_map_graph.
    + apply keeps_data_create_map_graph.
    + intros G. apply reads_lift.
Qed.

End any_map.

(** ** Weight assignment *)

(** C2: the weight of a street is decided by one query, at the arithmetic
    midpoint of its two ends: the call sends exactly that point to the risk
    index and nothing else, returns 100 exactly when the index finds a zone
    there and 1 exactly when it finds none, and so whatever it returns is 1
    or 100, and positive. *)
Theorem get_edge_risk_weight_midpoint (a b : coords) (db : Session) :
  let p := ((fst a + fst b) / 2, (snd a + snd b) / 2)%float in
  let run := navigation.get_edge_risk_weight a b db in
  issued (snd run) = (issued db ++ [p])%list /\
  answer (snd run) = answer db /\
  (fst run = Ok 100 <-> in_zone db p) /\
  (fst run = Ok 1 <-> zone_free db p) /\
  (forall w, fst run = Ok w -> (w = 1 \/ w = 100) /\ 0 < w).
Proof.
  cbv zeta. rewrite get_edge_risk_weight_run. unfold midpoint, in_zone, zone_free.
  simpl.
  split; [reflexivity|]. split; [reflexivity|].
  destruct (answer db _) as [[z|]|e].
  - split; [split; [exists z|]; reflexivity|].
    split; [split; discriminate|].
    intros w Hw. injection Hw as <-. split; [right|]; reflexivity.
  - split; [split; [discriminate|intros [z Hz]; discriminate]|].
    split; [split; reflexivity|].
    intros w Hw. injection Hw as <-. split; [left|]; reflexivity.
  - split; [split; [discriminate|intros [z Hz]; discriminate]|].
    split; [split; discriminate|].
    intros w Hw. discriminate.
Qed.

(** C10: the weight of a street does not depend on the order of its ends:
    both orders sample the same point, so the two calls return the same
    weight and leave the session in the same state. *)
Theorem get_edge_risk_weight_symmetric (a b : coords) (db : Session) :
  navigation.get_edge_risk_weight a b db = navigation.get_edge_risk_weight b a db.
Proof.
  rewrite !get_edge_risk_weight_run, (midpoint_comm a b). reflexivity.
Qed.

(** ** Validation comes first *)

(** C5: when the start or the end identifier is not a key of the node table,
    the planner returns [None] and the endpoint raises its 404, and either
    call leaves the session exactly as it found it: no graph was built and
    no point was sent to the risk index. *)
Theorem unknown_node_fails_before_build
    (MAP_NODES : dict.t coords) (MAP_EDGES : list (string * string))
    (s t : string) (db : Session) :
  dict.mem MAP_NODES s = false \/ dict.mem MAP_NODES t = false ->
  navigation.find_safest_route MAP_NODES MAP_EDGES s t db = (Ok None, db) /\
  routes.get_safest_route MAP_NODES MAP_EDGES
    {| routes.start_node := s; routes.end_node := t |} db
  = (Raise (not_found MAP_NODES), db).
Proof.
  intros H.
  assert (Hf : navigation.find_safest_route MAP_NODES MAP_EDGES s t db = (Ok None, db)).
  { unfold navigation.find_safest_route.
    destruct H as [H|H]; rewrite H; simpl; [|rewrite orb_true_r]; reflexivity. }
  split; [exact Hf|].
  unfold routes.get_safest_route, bind. simpl. rewrite Hf. reflexivity.
Qed.

Lemma unknown_node_fails_before_build_witness :
  navigation.find_safest_route navigation.MAP_NODES navigation.MAP_EDGES
    "A_Home" "Z_Unknown" {| answer := fun _ => Row None; issued := [] |}
  = (Ok None, {| answer := fun _ => Row None; issued := [] |}) /\
  routes.get_safest_route navigation.MAP_NODES navigation.MAP_EDGES
    {| routes.start_node := "A_Home"; routes.end_node := "Z_Unknown" |}
    {| answer := fun _ => Row None; issued := [] |}
  = (Raise (not_found navigation.MAP_NODES),
     {| answer := fun _ => Row None; issued := [] |}).
Proof.
  apply (unknown_node_fails_before_build navigation.MAP_NODES navigation.MAP_EDGES
           "A_Home" "Z_Unknown").
  right. reflexivity.
Defined.

(** ** A failed lookup fails the build *)

Lemma add_edge_returns_or_raises (G : nx.Graph) (u v : string)
    (attr : nx.edge_attr) :
  nx.add_edge G u v attr <> NoFuel.
Proof.
  unfold nx.add_edge, dict.getitem.
  destruct (dict.get _ u); simpl; [|discriminate].
  destruct (dict.get _ v); simpl; discriminate.
Qed.



(** ** The search ends *)

Lemma pop_min_length (x : nx.item) (xs : list nx.item) :
  List.length (snd (nx.pop_min x xs)) = List.length xs.
Proof.
  revert x. induction xs as [|y ys IH]; intros x; simpl; [reflexivity|].
  specialize (IH y). destruct (nx.pop_min y ys) as [m rest]. simpl in IH.
  destruct (nx.item_lt m x); simpl; [rewrite IH|]; reflexivity.
Qed.

Lemma heappop_length (heap rest : list nx.item) (x : nx.item) :
  nx.heappop heap = Some (x, rest) -> List.length heap = S (List.length rest).
Proof.
  destruct heap as [|y ys]; simpl; [discriminate|].
  intros H. injection H as H. pose proof (pop_min_length y ys) as Hl.
  rewrite H in Hl. simpl in Hl. rewrite Hl. reflexivity.
Qed.

Lemma relax_step weight v st ue :
  nx.relax weight v st ue <> NoFuel /\
  forall st', nx.relax weight v st ue = Ok st' ->
    nx.dist st' = nx.dist st /\
    (List.length (nx.fringe st') <= S (List.length (nx.fringe st)))%nat.
Proof.
  unfold nx.relax, dict.getitem. destruct ue as [u e].
  destruct (dict.get (nx.dist st) v) as [dv|]; simpl; [|split; discriminate].
  destruct (dict.get (nx.dist st) u) as [du|].
  { destruct (_ <? _); split; try discriminate.
    intros st' H. injection H as <-. split; [reflexivity|lia]. }
  destruct (match dict.get (nx.seen st) u with None => true | Some s => _ end).
  - destruct (dict.get (nx.paths st) v) as [pv|]; simpl; split; try discriminate.
    intros st' H. injection H as <-. simpl. split; [reflexivity|].
    unfold nx.heappush. rewrite length_app. simpl. lia.
  - split; [discriminate|]. intros st' H. injection H as <-.
    split; [reflexivity|lia].
Qed.

Lemma relax_all weight v nbrs st :
  ofold nbrs (nx.relax weight v) st <> NoFuel /\
  forall st', ofold nbrs (nx.relax weight v) st = Ok st' ->
    nx.dist st' = nx.dist st /\
    (List.length (nx.fringe st')
     <= List.length (nx.fringe st) + List.length nbrs)%nat.
Proof.
  revert st. induction nbrs as [|ue nbrs IH]; intros st; simpl.
  - split; [discriminate|]. intros st' H. injection H as <-.
    split; [reflexivity|lia].
  - destruct (relax_step weight v st ue) as [Hnf Hok].
    destruct (nx.relax weight v st ue) as [st1|e|]; simpl;
      [|split; discriminate|contradiction].
    destruct (Hok st1 eq_refl) as [Hd Hl].
    destruct (IH st1) as [Hnf1 Hok1]. split; [assumption|].
    intros st' H. destruct (Hok1 st' H) as [Hd' Hl'].
    split; [congruence|lia].
Qed.

Lemma unsettled_settle G_succ dist v d nbrs :
  dict.mem dist v = false -> dict.get G_succ v = Some nbrs ->
  (unsettled G_succ (dict.set dist v d) + List.length nbrs
   <= unsettled G_succ dist)%nat.
Proof.
  intros Hv. unfold unsettled.
  induction G_succ as [|[k ns] G_succ IH]; simpl; [discriminate|].
  rewrite mem_set.
  destruct (String.eqb_spec k v) as [->|Hkv].
  - intros H. injection H as ->. rewrite String.eqb_refl, Hv. simpl.
    assert (Hmono :
      (list_sum (map (fun kv => if dict.mem (dict.set dist v d) (fst kv)
                                then O else List.length (snd kv)) G_succ)
       <= list_sum (map (fun kv => if dict.mem dist (fst kv)
                                   then O else List.length (snd kv)) G_succ))%nat).
    { clear. induction G_succ as [|[k ns] G_succ IH]; simpl; [lia|].
      rewrite mem_set. destruct (String.eqb v k); simpl; [|destruct (dict.mem dist k)]; lia. }
    lia.
  - intros H. specialize (IH H).
    destruct (String.eqb_spec v k) as [->|_]; [contradiction|]. simpl.
    destruct (dict.mem dist k); lia.
Qed.

(** The loop ends within the fuel it is given. *)
Lemma search_loop_ends fuel G_succ weight target st :
  (work G_succ st < fuel)%nat ->
  nx.search_loop fuel G_succ weight target st <> NoFuel.
Proof.
  revert st. induction fuel as [|fuel IH]; intros st Hlt; [lia|].
  simpl. destruct (nx.heappop (nx.fringe st)) as [[[[d c] v] rest]|] eqn:Hpop;
    [|discriminate].
  apply heappop_length in Hpop. unfold work in Hlt.
  destruct (dict.mem (nx.dist st) v) eqn:Hv.
  - apply IH. unfold work. simpl. lia.
  - destruct (String.eqb v target); [discriminate|].
    unfold dict.getitem.
    destruct (dict.get G_succ v) as [nbrs|] eqn:Hn; simpl; [|discriminate].
    pose proof (unsettled_settle G_succ (nx.dist st) v d nbrs Hv Hn) as Hs.
    match goal with
    | |- obind (ofold ?l ?f ?s) _ <> _ =>
        destruct (relax_all weight v l s) as [Hnf Hok];
        destruct (ofold l f s) as [st'|e|]; simpl;
        [|discriminate|contradiction]
    end.
    destruct (Hok st' eq_refl) as [Hd Hl]. simpl in Hd, Hl.
    apply IH. unfold work. rewrite Hd. unfold dict.items in Hl. lia.
Qed.

Lemma push_sources_state (sources : list string) (st : nx.search) :
  let st' :=
    fold_left
      (fun st source =>
         {| nx.dist := nx.dist st;
            nx.seen := dict.set (nx.seen st) source 0;
            nx.paths := nx.paths st;
            nx.fringe := nx.heappush (nx.fringe st) (0, nx.c st, source);
            nx.c := S (nx.c st) |})
      sources st in
  nx.dist st' = nx.dist st /\
  nx.paths st' = nx.paths st /\
  List.length (nx.fringe st')
  = (List.length (nx.fringe st) + List.length sources)%nat.
Proof.
  revert st. induction sources as [|s sources IH]; intros st; simpl.
  - repeat split. lia.
  - destruct (IH {| nx.dist := nx.dist st;
                    nx.seen := dict.set (nx.seen st) s 0;
                    nx.paths := nx.paths st;
                    nx.fringe := nx.heappush (nx.fringe st) (0, nx.c st, s);
                    nx.c := S (nx.c st) |}) as (Hd & Hp & Hl).
    split; [exact Hd|]. split; [exact Hp|]. rewrite Hl. simpl.
    unfold nx.heappush. rewrite length_app. simpl. lia.
Qed.

Lemma push_sources_work G sources paths0 :
  (work (nx._adj G) (nx.push_sources sources paths0)
   < nx.search_fuel G sources)%nat.
Proof.
  unfold nx.search_fuel, nx.push_sources, work.
  destruct (push_sources_state sources
              {| nx.dist := dict.empty; nx.seen := dict.empty;
                 nx.paths := paths0; nx.fringe := []; nx.c := O |})
    as (Hd & _ & Hl).
  rewrite Hd, Hl. simpl. unfold unsettled. simpl. lia.
Qed.

(** [dijkstra_path] returns or raises, on every graph. *)
Lemma dijkstra_path_ends G source target weight :
  nx.dijkstra_path G source target weight <> NoFuel.
Proof.
  unfold nx.dijkstra_path, nx.single_source_dijkstra, nx.multi_source_dijkstra.
  destruct (find _ _); [simpl; discriminate|].
  destruct (existsb _ _); [simpl; discriminate|].
  unfold nx._dijkstra_multisource.
  pose proof (search_loop_ends _ _ (nx._weight_function weight) target _
                (push_sources_work G [source] (nx.source_paths [source])))
    as Hnf.
  destruct (nx.search_loop _ _ _ _ _) as [st|e|]; simpl;
    [|discriminate|contradiction].
  destruct (dict.get (nx.dist st) target), (dict.get (nx.paths st) target);
    simpl; discriminate.
Qed.

(** On every map, the planner returns or raises. *)
Lemma find_safest_route_ends
    (MAP_NODES : dict.t coords) (MAP_EDGES : list (string * string))
    (s t : string) (db : Session) :
  fst (navigation.find_safest_route MAP_NODES MAP_EDGES s t db) <> NoFuel.
Proof.
  unfold navigation.find_safest_route.
  destruct (negb (dict.mem MAP_NODES s) || negb (dict.mem MAP_NODES t));
    [discriminate|].
  unfold bind.
  assert (Hb : fst (navigation.create_map_graph MAP_NODES MAP_EDGES db) <> NoFuel).
  { unfold navigation.create_map_graph. apply for_each_ends.
    intros G [u v] db'. unfold bind, lift, dict.getitem.
    destruct (dict.get MAP_NODES u); [|discriminate].
    destruct (dict.get MAP_NODES v); [|discriminate].
    rewrite get_edge_risk_weight_run.
    destruct (answer db' _) as [[z|]|e0]; simpl;
      try discriminate; apply add_edge_returns_or_raises. }
  destruct (navigation.create_map_graph MAP_NODES MAP_EDGES db) as [[G|e|] db1];
    simpl in *; [|discriminate|contradiction].
  unfold lift. simpl.
  pose proof (dijkstra_path_ends G s t "weight") as Hd.
  destruct (nx.dijkstra_path G s t "weight") as [p|e|]; simpl;
    [|destruct e; discriminate|contradiction].
  pose proof (omap_getitem_ends MAP_NODES p) as Hcs.
  destruct (omap (dict.getitem MAP_NODES) p) as [cs|e|]; simpl;
    [discriminate|destruct e; discriminate|contradiction].
Qed.

(** ** The search follows edges *)

Section walks.

Variable G_succ : dict.t (dict.t nx.edge_attr).
Variable sources : list string.
Variable weight : string -> string -> nx.edge_attr -> Z.

Lemma relax_walks (v : string) (nbrs : dict.t nx.edge_attr) (st st' : nx.search)
    (ue : string * nx.edge_attr) :
  dict.get G_succ v = Some nbrs -> In ue nbrs ->
  paths_are_walks G_succ sources st ->
  nx.relax weight v st ue = Ok st' ->
  paths_are_walks G_succ sources st'.
Proof.
  intros Hv Hin Hst. unfold nx.relax, dict.getitem. destruct ue as [u e].
  destruct (dict.get (nx.dist st) v) as [dv|]; simpl; [|discriminate].
  destruct (dict.get (nx.dist st) u) as [du|].
  { destruct (_ <? _); [discriminate|]. intros H. injection H as <-. exact Hst. }
  destruct (match dict.get (nx.seen st) u with None => true | Some s => _ end).
  - destruct (dict.get (nx.paths st) v) as [pv|] eqn:Hpv; simpl; [|discriminate].
    intros H. injection H as <-. intros k p. simpl. rewrite get_set.
    destruct (String.eqb_spec u k) as [<-|_]; [|apply Hst].
    intros H. injection H as <-.
    apply (walk_snoc _ _ v u pv (Hst v pv Hpv)).
    destruct (get_in nbrs u e Hin) as [e' He']. exists nbrs, e'. auto.
  - intros H. injection H as <-. exact Hst.
Qed.

Lemma relax_all_walks (v : string) (nbrs : dict.t nx.edge_attr)
    (todo : list (string * nx.edge_attr)) (st st' : nx.search) :
  dict.get G_succ v = Some nbrs -> incl todo nbrs ->
  paths_are_walks G_succ sources st ->
  ofold todo (nx.relax weight v) st = Ok st' ->
  paths_are_walks G_succ sources st'.
Proof.
  intros Hv. revert st. induction todo as [|ue todo IH]; intros st Hincl Hst; simpl.
  - intros H. injection H as <-. exact Hst.
  - destruct (nx.relax weight v st ue) as [st1|e|] eqn:Hr; simpl; try discriminate.
    apply IH.
    + intros x Hx. apply Hincl. right. exact Hx.
    + apply (relax_walks v nbrs st st1 ue Hv); auto. apply Hincl. left. reflexivity.
Qed.

Lemma search_loop_walks (fuel : nat) (target : string) (st st' : nx.search) :
  paths_are_walks G_succ sources st ->
  nx.search_loop fuel G_succ weight target st = Ok st' ->
  paths_are_walks G_succ sources st'.
Proof.
  revert st. induction fuel as [|fuel IH]; intros st Hst; simpl; [discriminate|].
  destruct (nx.heappop (nx.fringe st)) as [[[[d c] v] rest]|].
  2:{ intros H. injection H as <-. exact Hst. }
  destruct (dict.mem (nx.dist st) v).
  - apply IH. exact Hst.
  - destruct (String.eqb v target).
    + intros H. injection H as <-. exact Hst.
    + unfold dict.getitem.
      destruct (dict.get G_succ v) as [nbrs|] eqn:Hv; simpl; [|discriminate].
      match goal with
      | |- obind (ofold ?l ?f ?s) _ = _ -> _ =>
          destruct (ofold l f s) as [st1|e|] eqn:Hfold; simpl; try discriminate
      end.
      apply IH.
      apply (relax_all_walks v nbrs _ _ st1 Hv (incl_refl _)) in Hfold;
        [exact Hfold|exact Hst].
Qed.

End walks.

Lemma source_paths_get (sources : list string) (u : string) (p : list string) :
  dict.get (nx.source_paths sources) u = Some p -> p = [u] /\ In u sources.
Proof.
  unfold nx.source_paths.
  assert (H : forall d : dict.t (list string),
             (forall k q, dict.get d k = Some q -> q = [k] /\ In k sources) ->
             forall acc,
               incl acc sources ->
               dict.get (fold_left (fun paths0 source => dict.set paths0 source [source])
                           acc d) u = Some p ->
               p = [u] /\ In u sources).
  { intros d Hd acc. revert d Hd. induction acc as [|s acc IH]; intros d Hd Hincl; simpl.
    - apply Hd.
    - apply IH.
      + intros k q. rewrite get_set. destruct (String.eqb_spec s k) as [<-|_].
        * intros H. injection H as <-. split; [reflexivity|].
          apply Hincl. left. reflexivity.
        * apply Hd.
      + intros x Hx. apply Hincl. right. exact Hx. }
  apply (H dict.empty).
  - intros k q H0. discriminate H0.
  - apply incl_refl.
Qed.

(** On every graph, the path [dijkstra_path] returns starts at the source,
    ends at the target and goes from neighbour to neighbour. *)
Lemma dijkstra_path_walk (G : nx.Graph) (source target weight : string)
    (p : list string) :
  nx.dijkstra_path G source target weight = Ok p ->
  walk_in (nx._adj G) [source] target p.
Proof.
  unfold nx.dijkstra_path, nx.single_source_dijkstra, nx.multi_source_dijkstra.
  destruct (find _ _); [simpl; discriminate|].
  destruct (existsb _ _) eqn:Hex.
  { simpl. intros H. injection H as <-.
    simpl in Hex. rewrite orb_false_r in Hex. apply String.eqb_eq in Hex.
    subst. apply walk_start. left. reflexivity. }
  unfold nx._dijkstra_multisource.
  destruct (nx.search_loop _ _ _ _ _) as [st|e|] eqn:Hloop; simpl; try discriminate.
  apply search_loop_walks with (sources := [source]) in Hloop.
  - destruct (dict.get (nx.dist st) target); [|discriminate].
    destruct (dict.get (nx.paths st) target) as [q|] eqn:Hq; [|discriminate].
    intros H. injection H as <-. apply Hloop. exact Hq.
  - intros u q. unfold nx.push_sources.
    destruct (push_sources_state [source]
                {| nx.dist := dict.empty; nx.seen := dict.empty;
                   nx.paths := nx.source_paths [source];
                   nx.fringe := []; nx.c := O |}) as (_ & Hp & _).
    rewrite Hp. simpl nx.paths. intros Hget.
    apply source_paths_get in Hget. destruct Hget as [-> Hin].
    apply walk_start. exact Hin.
Qed.

Lemma walk_in_last G_succ sources u p :
  walk_in G_succ sources u p -> exists p', p = (p' ++ [u])%list.
Proof.
  intros H. destruct H as [s Hs|v u p Hp Hadj].
  - exists []. reflexivity.
  - exists p. reflexivity.
Qed.

Lemma hops_snoc (p : list string) (v u : string) :
  hops ((p ++ [v]) ++ [u]) = (hops (p ++ [v]) ++ [(v, u)])%list.
Proof.
  induction p as [|a [|b p] IH]; try reflexivity.
  change (hops (((a :: b :: p) ++ [v]) ++ [u]))
    with ((a, b) :: hops (((b :: p) ++ [v]) ++ [u])).
  rewrite IH. reflexivity.
Qed.

Lemma walk_in_hops G_succ sources u p :
  walk_in G_succ sources u p ->
  Forall (fun ab => adjacent G_succ (fst ab) (snd ab)) (hops p).
Proof.
  intros H. induction H as [s Hs|v u p Hp IH Hadj].
  - constructor.
  - destruct (walk_in_last _ _ _ _ Hp) as [p' ->].
    rewrite hops_snoc. apply Forall_app. split; [exact IH|].
    constructor; [exact Hadj|constructor].
Qed.

(** ** What a returned route is made of *)

Section any_map_results.

Variable MAP_NODES : dict.t coords.
Variable MAP_EDGES : list (string * string).

(** A returned route comes from a search on the graph just built, between
    two known nodes, and its coordinates are those of its nodes. *)
Lemma find_safest_route_some (s t : string) (db : Session)
    (r : navigation.route) :
  fst (navigation.find_safest_route MAP_NODES MAP_EDGES s t db) = Ok (Some r) ->
  dict.mem MAP_NODES s = true /\ dict.mem MAP_NODES t = true /\
  exists G,
    fst (navigation.create_map_graph MAP_NODES MAP_EDGES db) = Ok G /\
    nx.dijkstra_path G s t "weight" = Ok (navigation.path_nodes r) /\
    omap (dict.getitem MAP_NODES) (navigation.path_nodes r)
    = Ok (navigation.path_coordinates r).
Proof.
  unfold navigation.find_safest_route.
  destruct (dict.mem MAP_NODES s); [|discriminate].
  destruct (dict.mem MAP_NODES t); [|discriminate].
  simpl. unfold bind, lift.
  destruct (navigation.create_map_graph MAP_NODES MAP_EDGES db) as [[G|e|] db1];
    try discriminate.
  simpl. intros H. split; [reflexivity|]. split; [reflexivity|].
  exists G. split; [reflexivity|].
  destruct (nx.dijkstra_path G s t "weight") as [p|[]|]; try discriminate.
  simpl in H.
  destruct (omap (dict.getitem MAP_NODES) p) as [cs|[]|] eqn:Hcs;
    try discriminate.
  simpl in H. injection H as <-. simpl. split; [reflexivity|exact Hcs].
Qed.

End any_map_results.

(** On every map, a returned route is a walk in the graph that was built:
    from the start node to the end node, each hop to a neighbour. *)
Lemma route_is_walk
    (MAP_NODES : dict.t coords) (MAP_EDGES : list (string * string))
    (s t : string) (db : Session) (r : navigation.route) :
  fst (navigation.find_safest_route MAP_NODES MAP_EDGES s t db) = Ok (Some r) ->
  exists G,
    fst (navigation.create_map_graph MAP_NODES MAP_EDGES db) = Ok G /\
    walk_in (nx._adj G) [s] t (navigation.path_nodes r).
Proof.
  intros H. apply find_safest_route_some in H.
  destruct H as (_ & _ & G & HG & Hp & _).
  exists G. split; [exact HG|]. apply (dijkstra_path_walk G s t "weight"). exact Hp.
Qed.

(** ** One failure for two causes *)




(** ** The shipped map, case by case

    On the shipped map the planner sees the session through five replies.
    A property of every session is therefore reduced to the sessions given
    by a table of five replies, where the planner is evaluated. *)

(** The plan depends on the session through the five replies only. *)
Lemma plan_table (s t : string) (db : Session) :
  plan s t db = plan s t (table (map (answer db) shipped_points)).
Proof.
  unfold plan. apply (reads_outcome _ _ _ _ (reads_find_safest_route _ _ s t)).
  intros p Hp. vm_compute in Hp.
  repeat (destruct Hp as [Hp|Hp]; [subst p; vm_compute; reflexivity|]).
  contradiction.
Qed.

(** So does the graph. *)
Lemma built_table (db : Session) :
  built db = built (table (map (answer db) shipped_points)).
Proof.
  unfold built. apply (reads_outcome _ _ _ _ (reads_create_map_graph _ _)).
  intros p Hp. vm_compute in Hp.
  repeat (destruct Hp as [Hp|Hp]; [subst p; vm_compute; reflexivity|]).
  contradiction.
Qed.

(** The known identifiers are the five names. *)
Lemma valid_cases (n : string) :
  valid n ->
  n = "A_Home" \/ n = "B_Intersection" \/ n = "C_Risky_Area" \/
  n = "D_Intersection" \/ n = "E_Work".
Proof.
  unfold valid, dict.mem, navigation.MAP_NODES, dict.get.
  destruct (String.eqb_spec "A_Home" n) as [<-|_]; [tauto|].
  destruct (String.eqb_spec "B_Intersection" n) as [<-|_]; [tauto|].
  destruct (String.eqb_spec "C_Risky_Area" n) as [<-|_]; [tauto|].
  destruct (String.eqb_spec "D_Intersection" n) as [<-|_]; [tauto|].
  destruct (String.eqb_spec "E_Work" n) as [<-|_]; [tauto|].
  discriminate.
Qed.

Lemma valid_in_names (n : string) : valid n -> In n names.
Proof.
  intros H. apply valid_cases in H. unfold names. simpl.
  repeat (destruct H as [->|H]; [tauto|]). subst n. tauto.
Qed.

(** Spell out the five sample points. *)
Ltac spell_points :=
  unfold shipped_points in *;
  let l := eval vm_compute in
             (sample_points navigation.MAP_NODES navigation.MAP_EDGES) in
  change (sample_points navigation.MAP_NODES navigation.MAP_EDGES) with l in *;
  cbn [map] in *.

(** Replace the session by the table of its replies at the five sample
    points. *)
Ltac tabulate db :=
  rewrite ?(plan_table _ _ db), ?(built_table db);
  spell_points.

(** Split on the replies that are still unknown. *)
Ltac split_replies db :=
  repeat match goal with
         | |- context [answer db ?p] => destruct (answer db p) as [[?|]|?] eqn:?
         end.

(** Turn a hypothesis on a street into the reply at its sample point. *)
Ltac street_reply H :=
  let p := fresh "p" in
  let Hp := fresh "Hp" in
  let z := fresh "z" in
  first [ destruct H as (p & Hp & z & H) | destruct H as (p & Hp & H) ];
  vm_compute in Hp; injection Hp as <-.

(** Spell out the sample point of each street in the goal. *)
Ltac spell_midpoints :=
  repeat match goal with
         | |- context [street_midpoint ?a ?b] =>
             let m := eval vm_compute in (street_midpoint a b) in
             change (street_midpoint a b) with m
         end;
  cbv beta iota.

(** Membership in a list that is written out. *)
Ltac in_list := repeat first [left; reflexivity | right].

(** With [Hav : sampled_available db], name the rows the lookups return. *)
Ltac name_rows db Hav :=
  unfold sampled_available in Hav; spell_points;
  repeat match goal with
         | |- context [answer db ?p] =>
             let f := fresh "f" in
             let Hf := fresh "Hf" in
             destruct (Hav p) as [f Hf]; [in_list | rewrite Hf]
         end.

(** Rewrite with the replies that are known. *)
Ltac use_rows db :=
  repeat match goal with
         | Hf : answer db ?p = _ |- context [answer db ?p] => rewrite Hf
         end.

(** Split each named row: a zone, or none. *)
Ltac split_rows :=
  repeat match goal with
         | f : option models.RiskZone |- _ => destruct f as [?|]
         end.

(** The ten cases of [Hst : street u v]. *)
Ltac street_cases Hst u v :=
  unfold street in Hst; simpl in Hst;
  decompose [or] Hst; try contradiction;
  match goal with
  | E : (_, _) = (u, v) |- _ => injection E as <- <-
  | E : (_, _) = (v, u) |- _ => injection E as <- <-
  end;
  clear Hst.

(** A street that is written out. *)
Ltac is_street :=
  unfold street; simpl; first [left; solve [in_list] | right; solve [in_list]].

(** A path that is written out. *)
Ltac walk :=
  repeat match goal with
         | |- connects ?s ?t (?s :: ?u :: ?p) =>
             apply (connects_hop s u t (u :: p)); [is_street|]
         end;
  apply connects_end; reflexivity.

(** A check of every route only needs the five replies. *)
Lemma every_route_table check db :
  every_route check db = every_route check (table (map (answer db) shipped_points)).
Proof.
  unfold every_route. apply forallb_pointwise. intros s.
  apply forallb_pointwise. intros t. rewrite (plan_table s t db). reflexivity.
Qed.

(** What a check of every route says about one pair of nodes. *)
Lemma every_route_at check db s t :
  every_route check db = true -> valid s -> valid t ->
  check s t (plan s t db) = true.
Proof.
  unfold every_route. intros H Hs Ht.
  rewrite forallb_forall in H. specialize (H s (valid_in_names s Hs)).
  rewrite forallb_forall in H. exact (H t (valid_in_names t Ht)).
Qed.

(** A check that passes on every table passes on every session. *)
Lemma every_route_any_replies check :
  (forall r1 r2 r3 r4 r5, every_route check (table [r1; r2; r3; r4; r5]) = true) ->
  forall db, every_route check db = true.
Proof.
  intros H db. rewrite every_route_table. spell_points. apply H.
Qed.

Lemma available_sampled (db : Session) : available db -> sampled_available db.
Proof. intros H p _. apply H. Qed.

(** A check that passes on every table of rows passes on every session
    whose five lookups return. *)
Lemma every_route_rows check :
  (forall f1 f2 f3 f4 f5,
     every_route check (table [Row f1; Row f2; Row f3; Row f4; Row f5]) = true) ->
  forall db, sampled_available db -> every_route check db = true.
Proof.
  intros H db Hav. rewrite every_route_table.
  unfold sampled_available in Hav. spell_points.
  repeat match goal with
         | |- context [answer db ?p] =>
             let f := fresh "f" in
             let Hf := fresh "Hf" in
             destruct (Hav p) as [f Hf]; [simpl; tauto | rewrite Hf]
         end.
  apply H.
Qed.

(** A build that returned a graph had a row, or none, from each of the five
    lookups. *)
Lemma built_rows (db : Session) (G : nx.Graph) :
  built db = Ok G -> sampled_available db.
Proof.
  intros H. rewrite built_table in H.
  unfold sampled_available. spell_points.
  intros p Hp. simpl in Hp.
  repeat (destruct Hp as [<-|Hp];
          [ match goal with
            | |- context [answer db ?q] =>
                destruct (answer db q) as [f|e];
                [ exists f; reflexivity | exfalso ]
            end;
            revert H; split_replies db; vm_compute; discriminate | ]).
  contradiction.
Qed.

(** The build returns a graph when the five lookups return. *)
Lemma built_when_available (db : Session) :
  sampled_available db -> exists G, built db = Ok G.
Proof.
  intros Hav. rewrite built_table. name_rows db Hav.
  split_rows; eexists; vm_compute; reflexivity.
Qed.

(** A returned route was planned between known nodes on a built graph. *)
Lemma plan_built (s t : string) (db : Session) (r : navigation.route) :
  plan s t db = Ok (Some r) ->
  valid s /\ valid t /\ exists G, built db = Ok G.
Proof.
  intros H. apply find_safest_route_some in H.
  destruct H as (Hs & Ht & G & HG & _). unfold valid, built. eauto.
Qed.

(** The shipped map is connected: between known nodes a route is returned
    whenever the risk index answers. *)
Lemma plan_returns (db : Session) (s t : string) :
  sampled_available db -> valid s -> valid t ->
  exists r, plan s t db = Ok (Some r).
Proof.
  intros Hav Hs Ht.
  assert (H : every_route returns_route db = true).
  { apply every_route_rows; [|assumption].
    intros [z1|] [z2|] [z3|] [z4|] [z5|]; vm_compute; reflexivity. }
  apply (every_route_at _ db s t) in H; try assumption.
  unfold returns_route in H.
  destruct (plan s t db) as [[r|]|e|]; try discriminate. exists r. reflexivity.
Qed.

(** The build sends the five sample points to the risk index, in the order
    of [MAP_EDGES], when the index answers. *)
Lemma create_map_graph_queries (db : Session) :
  sampled_available db ->
  issued (snd (navigation.create_map_graph navigation.MAP_NODES
                 navigation.MAP_EDGES db))
  = (issued db ++ shipped_points)%list.
Proof.
  intros Hav.
  destruct (reads_create_map_graph navigation.MAP_NODES navigation.MAP_EDGES
              db (table (map (answer db) shipped_points)))
    as [_ (sent & Hs & Hs')].
  { intros p Hp. vm_compute in Hp.
    repeat (destruct Hp as [Hp|Hp]; [subst p; vm_compute; reflexivity|]).
    contradiction. }
  rewrite Hs. f_equal. revert Hs'. clear Hs.
  name_rows db Hav. split_rows; vm_compute; intros H; symmetry; exact H.
Qed.

(** ** The weights in the graph *)

(** The graph stores, for every street and in both orientations, the weight
    of the policy. *)
Lemma built_weights (db : Session) (G : nx.Graph) (u v : string) :
  built db = Ok G -> street u v ->
  edge_weight G u v = Some (risk_weight db u v).
Proof.
  intros H Hst. pose proof (built_rows db G H) as Hav.
  rewrite built_table in H. unfold risk_weight.
  revert H. name_rows db Hav. intros H. clear Hav.
  street_cases Hst u v.
  all: spell_midpoints; use_rows db; split_rows.
  all: vm_compute in H; injection H as <-; reflexivity.
Qed.

Lemma risk_weight_free (db : Session) (u v : string) :
  street_zone_free db u v -> risk_weight db u v = 1.
Proof.
  intros (p & Hp & Hz). unfold risk_weight. rewrite Hp, Hz. reflexivity.
Qed.

Lemma risk_weight_in_zone (db : Session) (u v : string) :
  street_in_zone db u v -> risk_weight db u v = 100.
Proof.
  intros (p & Hp & z & Hz). unfold risk_weight. rewrite Hp, Hz. reflexivity.
Qed.

Lemma risk_weight_positive (db : Session) (u v : string) :
  1 <= risk_weight db u v.
Proof.
  unfold risk_weight.
  destruct (street_midpoint u v); [|lia].
  destruct (answer db _) as [[z|]|e]; lia.
Qed.

(** ** Scenario A *)

(** C1: on the shipped map, when the risk index places the midpoints of the
    streets B-C and C-E inside a zone and those of A-B, B-D and D-E outside,
    the graph is built and the route planned from [A_Home] to [E_Work] is
    A_Home, B_Intersection, D_Intersection, E_Work; its weight in the graph
    is 3, it does not pass through [C_Risky_Area], and the path through
    [C_Risky_Area] weighs 201. *)
Theorem scenario_A (db : Session) :
  street_in_zone db "B_Intersection" "C_Risky_Area" ->
  street_in_zone db "C_Risky_Area" "E_Work" ->
  street_zone_free db "A_Home" "B_Intersection" ->
  street_zone_free db "B_Intersection" "D_Intersection" ->
  street_zone_free db "D_Intersection" "E_Work" ->
  exists G r,
    built db = Ok G /\
    plan "A_Home" "E_Work" db = Ok (Some r) /\
    navigation.path_nodes r
    = ["A_Home"; "B_Intersection"; "D_Intersection"; "E_Work"] /\
    path_weight G (navigation.path_nodes r) = Some 3 /\
    ~ In "C_Risky_Area" (navigation.path_nodes r) /\
    path_weight G ["A_Home"; "B_Intersection"; "C_Risky_Area"; "E_Work"]
    = Some 201.
Proof.
  intros H1 H2 H3 H4 H5.
  street_reply H1. street_reply H2. street_reply H3. street_reply H4.
  street_reply H5. unfold zone_free in *.
  tabulate db. rewrite H1, H2, H3, H4, H5.
  eexists. eexists.
  split; [vm_compute; reflexivity|].
  split; [vm_compute; reflexivity|].
  split; [reflexivity|].
  split; [vm_compute; reflexivity|].
  split; [|vm_compute; reflexivity].
  simpl. intros [H|[H|[H|[H|[]]]]]; discriminate H.
Qed.

Lemma scenario_A_witness :
  exists G r,
    built east_village_db = Ok G /\
    plan "A_Home" "E_Work" east_village_db = Ok (Some r) /\
    navigation.path_nodes r
    = ["A_Home"; "B_Intersection"; "D_Intersection"; "E_Work"] /\
    path_weight G (navigation.path_nodes r) = Some 3 /\
    ~ In "C_Risky_Area" (navigation.path_nodes r) /\
    path_weight G ["A_Home"; "B_Intersection"; "C_Risky_Area"; "E_Work"]
    = Some 201.
Proof.
  apply (scenario_A east_village_db).
  - eexists. split; [reflexivity|]. exists east_village. vm_compute. reflexivity.
  - eexists. split; [reflexivity|]. exists east_village. vm_compute. reflexivity.
  - eexists. split; [reflexivity|]. vm_compute. reflexivity.
  - eexists. split; [reflexivity|]. vm_compute. reflexivity.
  - eexists. split; [reflexivity|]. vm_compute. reflexivity.
Defined.

(** ** The trivial route *)

(** C6: on the shipped map, for a node [n] with coordinate [c] and any
    risk-zone data the index can be asked about, the route planned from [n]
    to [n] is the one node [n] with the one coordinate [c]. *)
Theorem same_node_route (db : Session) (n : string) (c : coords) :
  available db ->
  dict.get navigation.MAP_NODES n = Some c ->
  plan n n db
  = Ok (Some {| navigation.path_nodes := [n]; navigation.path_coordinates := [c] |}).
Proof.
  intros Hav Hn. apply available_sampled in Hav.
  assert (Hv : valid n) by (unfold valid, dict.mem; rewrite Hn; reflexivity).
  apply valid_cases in Hv. rewrite plan_table.
  name_rows db Hav.
  decompose [or] Hv; subst n; vm_compute in Hn; injection Hn as <-;
    split_rows; vm_compute; reflexivity.
Qed.

Lemma same_node_route_witness :
  plan "C_Risky_Area" "C_Risky_Area" east_village_db
  = Ok (Some {| navigation.path_nodes := ["C_Risky_Area"];
                navigation.path_coordinates := [(-73.9860, 40.7328)%float] |}).
Proof.
  apply (same_node_route east_village_db).
  - intros p. unfold east_village_db. simpl.
    destruct (in_box _ _ p); eexists; reflexivity.
  - reflexivity.
Defined.

(** ** Routes follow streets *)

Lemma streetb_street (u v : string) : streetb u v = true -> street u v.
Proof.
  unfold streetb, street. rewrite existsb_exists.
  intros [[a b] [Hin H]]. simpl in H.
  apply orb_true_iff in H. destruct H as [H|H];
    apply andb_true_iff in H; destruct H as [Ha Hb];
    apply String.eqb_eq in Ha, Hb; subst; [left|right]; assumption.
Qed.

Lemma streets_only_all (db : Session) : every_route streets_only db = true.
Proof.
  apply every_route_any_replies.
  intros [[z1|]|e1] [[z2|]|e2] [[z3|]|e3] [[z4|]|e4] [[z5|]|e5];
    vm_compute; reflexivity.
Qed.

(** C9: every hop of a returned route is a declared street, in one
    orientation or the other, and an edge of the graph the search ran on. *)
Theorem route_follows_streets (db : Session) (s t : string) (r : navigation.route) :
  plan s t db = Ok (Some r) ->
  exists G,
    built db = Ok G /\
    Forall (fun uv => street (fst uv) (snd uv) /\
                      exists w, edge_weight G (fst uv) (snd uv) = Some w)
      (hops (navigation.path_nodes r)).
Proof.
  intros H. destruct (plan_built s t db r H) as (Hs & Ht & G & HG).
  exists G. split; [assumption|].
  pose proof (every_route_at _ db s t (streets_only_all db) Hs Ht) as Hc.
  rewrite H in Hc. simpl in Hc. rewrite forallb_forall in Hc.
  apply Forall_forall. intros [u v] Huv. simpl.
  pose proof (streetb_street u v (Hc (u, v) Huv)) as Hst.
  split; [assumption|]. eexists. apply (built_weights db G u v HG Hst).
Qed.

Lemma route_follows_streets_witness :
  exists G,
    built east_village_db = Ok G /\
    Forall (fun uv => street (fst uv) (snd uv) /\
                      exists w, edge_weight G (fst uv) (snd uv) = Some w)
      (hops ["A_Home"; "B_Intersection"; "D_Intersection"; "E_Work"]).
Proof.
  apply (route_follows_streets east_village_db "A_Home" "E_Work"
           {| navigation.path_nodes :=
                ["A_Home"; "B_Intersection"; "D_Intersection"; "E_Work"];
              navigation.path_coordinates :=
                [(-74.0060, 40.7128); (-73.9960, 40.7228);
                 (-73.9950, 40.7428); (-73.9850, 40.7528)]%float |}).
  vm_compute. reflexivity.
Defined.

(** ** The planned route is a lightest one

    The routes the planner returns towards a node [t] give every node a
    potential, the weight of its route.  Once no street can lower the
    potential of either of its ends, no path to [t] is lighter than the
    route planned from its start.  The first part is checked on the tables;
    the second is an induction on the path. *)

(** The check of the potential only needs the five replies. *)
Lemma potential_ok_table (db : Session) :
  potential_ok db = potential_ok (table (map (answer db) shipped_points)).
Proof.
  unfold potential_ok. rewrite (built_table db).
  destruct (built (table _)) as [G|e|]; try reflexivity.
  apply forallb_pointwise. intros t. unfold potential_at.
  rewrite (plan_table t t db). f_equal.
  apply forallb_pointwise. intros [u v]. unfold relaxed. simpl.
  rewrite (plan_table u t db), (plan_table v t db). reflexivity.
Qed.

(** The potential is feasible whenever the five lookups return. *)
Lemma potential_ok_holds (db : Session) :
  sampled_available db -> potential_ok db = true.
Proof.
  intros Hav. rewrite potential_ok_table. name_rows db Hav.
  split_rows; vm_compute; reflexivity.
Qed.

(** A path from [s] starts with [s]. *)
Lemma connects_head (s t : string) (p : list string) :
  connects s t p -> exists p', p = s :: p'.
Proof. intros H. destruct H; eexists; reflexivity. Qed.

(** A path ends at a known node. *)
Lemma connects_valid_end (s t : string) (p : list string) :
  connects s t p -> valid t.
Proof. intros H. induction H; assumption. Qed.

(** What the check says about one street. *)
Lemma relaxed_street (db : Session) (G : nx.Graph) (t u v : string) :
  built db = Ok G -> potential_ok db = true -> valid t -> street u v ->
  relaxed G db t u v = true.
Proof.
  intros HG Hpot Ht Hst. unfold potential_ok in Hpot. rewrite HG in Hpot.
  rewrite forallb_forall in Hpot. specialize (Hpot t (valid_in_names t Ht)).
  unfold potential_at in Hpot. apply andb_true_iff in Hpot.
  destruct Hpot as [_ Hpot]. rewrite forallb_forall in Hpot.
  destruct Hst as [Hst|Hst]; specialize (Hpot _ Hst); simpl in Hpot;
    apply andb_true_iff in Hpot; tauto.
Qed.

(** The planned route weighs no more than any path along streets between
    the same nodes. *)
Lemma plan_optimal (db : Session) (G : nx.Graph) (s t : string) (p : list string) :
  built db = Ok G -> connects s t p ->
  exists r wr wp,
    plan s t db = Ok (Some r) /\
    path_weight G (navigation.path_nodes r) = Some wr /\
    path_weight G p = Some wp /\
    wr <= wp.
Proof.
  intros HG Hp.
  pose proof (potential_ok_holds db (built_rows db G HG)) as Hpot.
  induction Hp as [t Ht|s u t p Hst Hp IH].
  - unfold potential_ok in Hpot. rewrite HG in Hpot.
    rewrite forallb_forall in Hpot. specialize (Hpot t (valid_in_names t Ht)).
    unfold potential_at in Hpot. apply andb_true_iff in Hpot.
    destruct Hpot as [Hpot _]. unfold route_weight in Hpot.
    destruct (plan t t db) as [[r|]|e|]; try discriminate.
    destruct (path_weight G (navigation.path_nodes r)) as [[| |]|] eqn:Hw;
      try discriminate.
    exists r, 0, 0.
    split; [reflexivity|]. split; [exact Hw|]. split; [reflexivity|lia].
  - destruct IH as (r & wr & wp & Hr & Hwr & Hwp & Hle).
    pose proof (connects_valid_end u t p Hp) as Ht.
    pose proof (relaxed_street db G t s u HG Hpot Ht Hst) as Hrel.
    unfold relaxed in Hrel. rewrite Hr in Hrel. simpl in Hrel. rewrite Hwr in Hrel.
    destruct (plan s t db) as [[r'|]|e|]; try discriminate.
    simpl in Hrel.
    destruct (path_weight G (navigation.path_nodes r')) as [a|] eqn:Ha;
      try discriminate.
    destruct (edge_weight G s u) as [w|] eqn:Hw; try discriminate.
    apply Z.leb_le in Hrel.
    destruct (connects_head u t p Hp) as [p' ->].
    exists r', a, (w + wp).
    split; [reflexivity|]. split; [exact Ha|]. split; [|lia].
    change (path_weight G (s :: u :: p'))
      with (match edge_weight G s u, path_weight G (u :: p') with
            | Some w, Some r => Some (w + r)
            | _, _ => None
            end).
    rewrite Hw, Hwp. reflexivity.
Qed.

Lemma hops_cons (s u : string) (p : list string) :
  hops (s :: u :: p) = (s, u) :: hops (u :: p).
Proof. reflexivity. Qed.

Lemma path_weight_cons (G : nx.Graph) (s u : string) (p : list string) :
  path_weight G (s :: u :: p)
  = match edge_weight G s u, path_weight G (u :: p) with
    | Some w, Some r => Some (w + r)
    | _, _ => None
    end.
Proof. reflexivity. Qed.

(** A path along streets has a weight, at least one per hop. *)
Lemma path_weight_at_least (db : Session) (G : nx.Graph) (s t : string)
    (p : list string) :
  built db = Ok G -> connects s t p ->
  exists w, path_weight G p = Some w /\ Z.of_nat (List.length (hops p)) <= w.
Proof.
  intros HG Hp. induction Hp as [t Ht|s u t p Hst Hp IH].
  - exists 0. split; [reflexivity|]. simpl. lia.
  - destruct IH as (w & Hw & Hle).
    destruct (connects_head u t p Hp) as [p' ->].
    rewrite path_weight_cons, hops_cons, (built_weights db G s u HG Hst), Hw.
    eexists. split; [reflexivity|].
    pose proof (risk_weight_positive db s u).
    cbn [List.length]. lia.
Qed.

(** A path along zone-free streets weighs one per hop. *)
Lemma path_weight_zone_free (db : Session) (G : nx.Graph) (s t : string)
    (p : list string) :
  built db = Ok G -> connects s t p ->
  Forall (fun uv => street_zone_free db (fst uv) (snd uv)) (hops p) ->
  path_weight G p = Some (Z.of_nat (List.length (hops p))).
Proof.
  intros HG Hp. induction Hp as [t Ht|s u t p Hst Hp IH]; intros Hfree.
  - reflexivity.
  - destruct (connects_head u t p Hp) as [p' ->].
    rewrite hops_cons in Hfree. inversion Hfree as [|x l Hsu Hrest]; subst.
    rewrite path_weight_cons, hops_cons, (built_weights db G s u HG Hst),
      (IH Hrest), (risk_weight_free db s u Hsu).
    f_equal. cbn [List.length]. lia.
Qed.

(** A path with a street in a zone weighs at least 99 more than its hops. *)
Lemma path_weight_risky (db : Session) (G : nx.Graph) (s t : string)
    (q : list string) :
  built db = Ok G -> connects s t q ->
  Exists (fun uv => street_in_zone db (fst uv) (snd uv)) (hops q) ->
  exists w, path_weight G q = Some w /\
            Z.of_nat (List.length (hops q)) + 99 <= w.
Proof.
  intros HG Hq. induction Hq as [t Ht|s u t q Hst Hq IH]; intros Hrisk.
  - inversion Hrisk.
  - destruct (connects_head u t q Hq) as [q' ->].
    rewrite hops_cons in Hrisk.
    rewrite path_weight_cons, hops_cons, (built_weights db G s u HG Hst).
    inversion Hrisk as [x l Hsu|x l Hrest]; subst.
    + destruct (path_weight_at_least db G u t (u :: q') HG Hq) as (w & Hw & Hle).
      rewrite Hw, (risk_weight_in_zone db s u Hsu).
      eexists. split; [reflexivity|]. cbn [List.length]. lia.
    + destruct (IH Hrest) as (w & Hw & Hle). rewrite Hw.
      eexists. split; [reflexivity|].
      pose proof (risk_weight_positive db s u).
      cbn [List.length]. lia.
Qed.

(** A sequence of nodes has one hop less than nodes. *)
Lemma hops_length (p : list string) :
  List.length (hops p) = pred (List.length p).
Proof.
  induction p as [|a [|b p] IH]; try reflexivity.
  rewrite hops_cons. cbn [List.length] in *. rewrite IH. reflexivity.
Qed.

Lemma leadsb_connects (p : list string) :
  forall s t, valid t -> leadsb s t p = true -> connects s t p.
Proof.
  induction p as [|a rest IH]; intros s t Ht H; [discriminate|].
  simpl in H. apply andb_true_iff in H. destruct H as [Ha H].
  apply String.eqb_eq in Ha. subst a.
  destruct rest as [|b rest'].
  - apply String.eqb_eq in H. subst t. apply connects_end. exact Ht.
  - apply andb_true_iff in H. destruct H as [Hst H].
    apply (connects_hop s b t (b :: rest')).
    + apply streetb_street. exact Hst.
    + apply IH; assumption.
Qed.

Lemma leads_there_all (db : Session) : every_route leads_there db = true.
Proof.
  apply every_route_any_replies.
  intros [[z1|]|e1] [[z2|]|e2] [[z3|]|e3] [[z4|]|e4] [[z5|]|e5];
    vm_compute; reflexivity.
Qed.

(** A returned route leads from the start node to the end node along
    declared streets. *)
Lemma plan_connects (db : Session) (s t : string) (r : navigation.route) :
  plan s t db = Ok (Some r) -> connects s t (navigation.path_nodes r).
Proof.
  intros H. destruct (plan_built s t db r H) as (Hs & Ht & _).
  pose proof (every_route_at _ db s t (leads_there_all db) Hs Ht) as Hc.
  rewrite H in Hc. apply leadsb_connects; assumption.
Qed.

Lemma weights_split_table (db : Session) :
  weights_split db = weights_split (table (map (answer db) shipped_points)).
Proof.
  unfold weights_split. rewrite (built_table db).
  destruct (built (table _)) as [G|e|]; try reflexivity.
  apply every_route_table.
Qed.

Lemma weights_split_holds (db : Session) :
  sampled_available db -> weights_split db = true.
Proof.
  intros Hav. rewrite weights_split_table. name_rows db Hav.
  split_rows; vm_compute; reflexivity.
Qed.

(** Where a path along zone-free streets leads to [t], the planned route
    weighs at most 4. *)
Lemma plan_light (db : Session) (G : nx.Graph) (s t : string) (p : list string) :
  built db = Ok G -> connects s t p ->
  Forall (fun uv => street_zone_free db (fst uv) (snd uv)) (hops p) ->
  exists r w,
    plan s t db = Ok (Some r) /\
    path_weight G (navigation.path_nodes r) = Some w /\ w <= 4.
Proof.
  intros HG Hp.
  pose proof (built_rows db G HG) as Hav.
  pose proof (potential_ok_holds db Hav) as Hpot.
  pose proof (weights_split_holds db Hav) as Hsplit.
  unfold weights_split in Hsplit. rewrite HG in Hsplit.
  induction Hp as [t Ht|s u t p Hst Hp IH]; intros Hfree.
  - destruct (plan_optimal db G t t [t] HG (connects_end t Ht))
      as (r & wr & wp & Hr & Hwr & Hwp & Hle).
    simpl in Hwp. injection Hwp as <-.
    destruct (path_weight_at_least db G t t (navigation.path_nodes r) HG
                (plan_connects db t t r Hr)) as (w & Hw & Hge).
    rewrite Hwr in Hw. injection Hw as <-.
    exists r, wr. split; [exact Hr|]. split; [exact Hwr|lia].
  - destruct (connects_head u t p Hp) as [p' ->].
    rewrite hops_cons in Hfree. inversion Hfree as [|x l Hsu Hrest]; subst.
    destruct (IH Hrest) as (r & w & Hr & Hw & Hle).
    pose proof (connects_valid_end u t _ Hp) as Ht.
    pose proof (relaxed_street db G t s u HG Hpot Ht Hst) as Hrel.
    unfold relaxed, route_weight in Hrel.
    rewrite Hr, Hw, (built_weights db G s u HG Hst),
      (risk_weight_free db s u Hsu) in Hrel.
    destruct (plan s t db) as [[r'|]|e|] eqn:Hr'; try discriminate.
    destruct (path_weight G (navigation.path_nodes r')) as [a|] eqn:Ha;
      try discriminate.
    apply Z.leb_le in Hrel.
    assert (Hs : valid s).
    { destruct (plan_built s t db r' Hr') as (Hs & _). exact Hs. }
    pose proof (every_route_at _ db s t Hsplit Hs Ht) as Hc.
    rewrite Hr' in Hc. simpl in Hc. rewrite Ha in Hc.
    apply orb_true_iff in Hc.
    exists r', a. split; [reflexivity|]. split; [exact Ha|].
    destruct Hc as [Hc|Hc]; [apply Z.leb_le in Hc; exact Hc|].
    apply Z.leb_le in Hc. lia.
Qed.

(** The streets of a path. *)
Lemma connects_streets (s t : string) (p : list string) :
  connects s t p -> Forall (fun uv => street (fst uv) (snd uv)) (hops p).
Proof.
  intros H. induction H as [t Ht|s u t p Hst Hp IH]; [constructor|].
  destruct (connects_head u t p Hp) as [p' ->].
  rewrite hops_cons. constructor; assumption.
Qed.

(** When the index answers, a street is in a zone or free of zones. *)
Lemma street_zoned_or_free (db : Session) (u v : string) :
  sampled_available db -> street u v ->
  street_zone_free db u v \/ street_in_zone db u v.
Proof.
  intros Hav Hst. unfold street_zone_free, street_in_zone, zone_free, in_zone.
  assert (Hp : exists p, street_midpoint u v = Some p /\ In p shipped_points).
  { spell_points. street_cases Hst u v;
      (eexists; split; [reflexivity|]; vm_compute; tauto). }
  destruct Hp as (p & Hp & Hin). destruct (Hav p Hin) as [[z|] Hf].
  - right. exists p. split; [exact Hp|]. exists z. exact Hf.
  - left. exists p. split; [exact Hp|exact Hf].
Qed.

(** A path whose weight stays under 100 has every street free of zones. *)
Lemma light_path_zone_free (db : Session) (G : nx.Graph) (s t : string)
    (p : list string) (w : Z) :
  built db = Ok G -> connects s t p -> path_weight G p = Some w -> w < 99 ->
  Forall (fun uv => street_zone_free db (fst uv) (snd uv)) (hops p).
Proof.
  intros HG Hp. revert w.
  pose proof (built_rows db G HG) as Hav.
  induction Hp as [t Ht|s u t p Hst Hp IH]; intros w Hw Hlt; [constructor|].
  destruct (connects_head u t p Hp) as [p' ->].
  rewrite path_weight_cons, (built_weights db G s u HG Hst) in Hw.
  destruct (path_weight_at_least db G u t (u :: p') HG Hp) as (w' & Hw' & Hge).
  rewrite Hw' in Hw. injection Hw as <-.
  rewrite hops_cons.
  pose proof (risk_weight_positive db s u) as Hpos.
  constructor.
  - simpl. destruct (street_zoned_or_free db s u Hav Hst) as [Hf|Hz];
      [exact Hf|].
    rewrite (risk_weight_in_zone db s u Hz) in Hlt. lia.
  - apply (IH w'); [exact Hw'|lia].
Qed.

(** C3: on the shipped map, let [p] and [q] be two paths along streets from
    [s] to [t] with the same number of nodes, every street of [p] with its
    midpoint outside all zones and some street of [q] with its midpoint in a
    zone.  Then a route the planner returns for [s] and [t] leads from [s]
    to [t] along streets, has every street with its midpoint outside all
    zones, has no more nodes than [p], and is not [q]; and when the risk
    index answers, the planner does return a route. *)
Theorem detour_around_risk (db : Session) (s t : string) (p q : list string) :
  connects s t p -> connects s t q ->
  List.length p = List.length q ->
  Forall (fun uv => street_zone_free db (fst uv) (snd uv)) (hops p) ->
  Exists (fun uv => street_in_zone db (fst uv) (snd uv)) (hops q) ->
  (forall r,
     plan s t db = Ok (Some r) ->
     connects s t (navigation.path_nodes r) /\
     Forall (fun uv => street_zone_free db (fst uv) (snd uv))
       (hops (navigation.path_nodes r)) /\
     (List.length (navigation.path_nodes r) <= List.length p)%nat /\
     navigation.path_nodes r <> q) /\
  (available db ->
   exists r, plan s t db = Ok (Some r) /\ navigation.path_nodes r <> q).
Proof.
  intros Hp Hq Hlen Hfree Hrisk.
  assert (Hmain : forall r,
    plan s t db = Ok (Some r) ->
    connects s t (navigation.path_nodes r) /\
    Forall (fun uv => street_zone_free db (fst uv) (snd uv))
      (hops (navigation.path_nodes r)) /\
    (List.length (navigation.path_nodes r) <= List.length p)%nat /\
    navigation.path_nodes r <> q).
  { intros r Hr.
    destruct (plan_built s t db r Hr) as (_ & _ & G & HG).
    pose proof (plan_connects db s t r Hr) as Hcr.
    destruct (plan_light db G s t p HG Hp Hfree) as (r1 & w & Hr1 & Hw & Hle).
    rewrite Hr in Hr1. injection Hr1 as <-.
    assert (Hrfree : Forall (fun uv => street_zone_free db (fst uv) (snd uv))
                       (hops (navigation.path_nodes r))).
    { apply (light_path_zone_free db G s t _ w HG Hcr Hw). lia. }
    destruct (plan_optimal db G s t p HG Hp)
      as (r' & wr & wp & Hr' & Hwr & Hwp & Hle').
    rewrite Hr in Hr'. injection Hr' as <-.
    rewrite (path_weight_zone_free db G s t p HG Hp Hfree) in Hwp.
    injection Hwp as <-.
    rewrite (path_weight_zone_free db G s t _ HG Hcr Hrfree) in Hwr.
    injection Hwr as <-.
    split; [exact Hcr|]. split; [exact Hrfree|]. split.
    - rewrite !hops_length in Hle'.
      destruct (connects_head s t _ Hcr) as [r0 Hr0].
      destruct (connects_head s t p Hp) as [p0 Hp0].
      rewrite Hr0, Hp0 in *. cbn [List.length pred] in *. lia.
    - intros Heq. rewrite Heq in Hrfree.
      apply Exists_exists in Hrisk. destruct Hrisk as ([a b] & Hin & Hz).
      rewrite Forall_forall in Hrfree. specialize (Hrfree _ Hin).
      simpl in *. destruct Hrfree as (m & Hm & Hf).
      destruct Hz as (m' & Hm' & z & Hz). rewrite Hm in Hm'.
      injection Hm' as <-. unfold zone_free in Hf. congruence. }
  split; [exact Hmain|].
  intros Hav.
  destruct (built_when_available db (available_sampled db Hav)) as [G HG].
  destruct (plan_optimal db G s t p HG Hp) as (r & wr & wp & Hr & _).
  exists r. split; [exact Hr|]. apply (Hmain r Hr).
Qed.

Lemma detour_around_risk_witness :
  (forall r,
     plan "A_Home" "E_Work" east_village_db = Ok (Some r) ->
     connects "A_Home" "E_Work" (navigation.path_nodes r) /\
     Forall (fun uv => street_zone_free east_village_db (fst uv) (snd uv))
       (hops (navigation.path_nodes r)) /\
     (List.length (navigation.path_nodes r)
      <= List.length ["A_Home"; "B_Intersection"; "D_Intersection"; "E_Work"])%nat /\
     navigation.path_nodes r
     <> ["A_Home"; "B_Intersection"; "C_Risky_Area"; "E_Work"]) /\
  (available east_village_db ->
   exists r, plan "A_Home" "E_Work" east_village_db = Ok (Some r) /\
             navigation.path_nodes r
             <> ["A_Home"; "B_Intersection"; "C_Risky_Area"; "E_Work"]).
Proof.
  apply (detour_around_risk east_village_db "A_Home" "E_Work"
           ["A_Home"; "B_Intersection"; "D_Intersection"; "E_Work"]
           ["A_Home"; "B_Intersection"; "C_Risky_Area"; "E_Work"]).
  - walk.
  - walk.
  - reflexivity.
  - repeat constructor; (eexists; split; [reflexivity|vm_compute; reflexivity]).
  - apply Exists_cons_tl. apply Exists_cons_hd.
    eexists. split; [reflexivity|]. exists east_village. vm_compute. reflexivity.
Defined.

(** ** Determinism *)

(** With no zone anywhere, A-B-C-E and A-B-D-E both weigh 3; the planner
    returns the first, the one whose middle node entered the fringe first. *)
Lemma tie_goes_to_the_first_pushed (db : Session) :
  (forall p, In p shipped_points -> zone_free db p) ->
  exists r,
    plan "A_Home" "E_Work" db = Ok (Some r) /\
    navigation.path_nodes r
    = ["A_Home"; "B_Intersection"; "C_Risky_Area"; "E_Work"].
Proof.
  intros Hfree. rewrite plan_table. unfold zone_free in Hfree. spell_points.
  repeat match goal with
         | |- context [answer db ?p] => rewrite (Hfree p) by in_list
         end.
  eexists. split; vm_compute; reflexivity.
Qed.

(** C7: the result of the planner is a function of the two identifiers and
    of the risk-zone data alone.  A session over the same data gives the same
    result whatever was queried through it before, and a second call made
    through the session the first call left behind repeats the first
    result.  Ties are broken by the order of the search, not by chance: on
    the shipped map with no zone anywhere the route from [A_Home] to
    [E_Work] is always the one through [C_Risky_Area]. *)
Theorem find_safest_route_deterministic
    (MAP_NODES : dict.t coords) (MAP_EDGES : list (string * string))
    (s t : string) (db : Session) :
  (forall db', same_data db db' ->
     fst (navigation.find_safest_route MAP_NODES MAP_EDGES s t db')
     = fst (navigation.find_safest_route MAP_NODES MAP_EDGES s t db)) /\
  fst (navigation.find_safest_route MAP_NODES MAP_EDGES s t
         (snd (navigation.find_safest_route MAP_NODES MAP_EDGES s t db)))
  = fst (navigation.find_safest_route MAP_NODES MAP_EDGES s t db) /\
  (forall db0,
     (forall p, In p shipped_points -> zone_free db0 p) ->
     exists r,
       fst (navigation.find_safest_route navigation.MAP_NODES
              navigation.MAP_EDGES "A_Home" "E_Work" db0) = Ok (Some r) /\
       navigation.path_nodes r
       = ["A_Home"; "B_Intersection"; "C_Risky_Area"; "E_Work"]).
Proof.
  split; [|split].
  - intros db' Hsame. symmetry.
    apply (reads_outcome _ _ _ _ (reads_find_safest_route _ _ s t)).
    intros p _. apply Hsame.
  - apply (reads_outcome _ _ _ _ (reads_find_safest_route _ _ s t)).
    intros p _. rewrite keeps_data_find_safest_route. reflexivity.
  - intros db0 Hfree. apply (tie_goes_to_the_first_pushed db0 Hfree).
Qed.

(** ** More on the planner *)

(** X1: on the shipped map the route the planner returns is a lightest
    one: it leads from [s] to [t] along declared streets, and no node
    sequence that leads from [s] to [t] along declared streets weighs
    less, in the graph the request built, than the returned route. *)
Theorem planned_route_is_lightest (db : Session) (s t : string)
    (r : navigation.route) (p : list string) :
  plan s t db = Ok (Some r) -> connects s t p ->
  connects s t (navigation.path_nodes r) /\
  exists G wr wp,
    built db = Ok G /\
    path_weight G (navigation.path_nodes r) = Some wr /\
    path_weight G p = Some wp /\
    wr <= wp.
Proof.
  intros Hr Hp. split; [apply (plan_connects db s t r Hr)|].
  destruct (plan_built s t db r Hr) as (_ & _ & G & HG).
  destruct (plan_optimal db G s t p HG Hp) as (r' & wr & wp & Hr' & Hwr & Hwp & Hle).
  rewrite Hr in Hr'. injection Hr' as <-.
  exists G, wr, wp. auto.
Qed.

Lemma planned_route_is_lightest_witness :
  connects "A_Home" "E_Work"
    ["A_Home"; "B_Intersection"; "D_Intersection"; "E_Work"] /\
  exists G wr wp,
    built east_village_db = Ok G /\
    path_weight G ["A_Home"; "B_Intersection"; "D_Intersection"; "E_Work"]
    = Some wr /\
    path_weight G ["A_Home"; "B_Intersection"; "C_Risky_Area"; "E_Work"]
    = Some wp /\
    wr <= wp.
Proof.
  apply (planned_route_is_lightest east_village_db "A_Home" "E_Work"
           {| navigation.path_nodes :=
                ["A_Home"; "B_Intersection"; "D_Intersection"; "E_Work"];
              navigation.path_coordinates :=
                [(-74.0060, 40.7128); (-73.9960, 40.7228);
                 (-73.9950, 40.7428); (-73.9850, 40.7528)]%float |}
           ["A_Home"; "B_Intersection"; "C_Risky_Area"; "E_Work"]).
  - vm_compute. reflexivity.
  - walk.
Defined.

Lemma walk_in_head G_succ (s u : string) (p : list string) :
  walk_in G_succ [s] u p -> hd_error p = Some s.
Proof.
  intros H. induction H as [s' Hs|v u p Hp IH Hadj].
  - destruct Hs as [->|[]]. reflexivity.
  - destruct p; [discriminate|]. exact IH.
Qed.

Lemma walk_in_end G_succ sources (u : string) (p : list string) (d : string) :
  walk_in G_succ sources u p -> last p d = u.
Proof.
  intros H. destruct H as [s Hs|v u p Hp Hadj]; [reflexivity|].
  apply last_last.
Qed.

(** X2: on any map, a returned route starts at the requested start node,
    ends at the requested end node, and each of its hops joins two
    neighbours in the graph built for the request. *)
Theorem route_runs_from_start_to_end
    (MAP_NODES : dict.t coords) (MAP_EDGES : list (string * string))
    (s t : string) (db : Session) (r : navigation.route) :
  fst (navigation.find_safest_route MAP_NODES MAP_EDGES s t db) = Ok (Some r) ->
  hd_error (navigation.path_nodes r) = Some s /\
  last (navigation.path_nodes r) s = t /\
  exists G,
    fst (navigation.create_map_graph MAP_NODES MAP_EDGES db) = Ok G /\
    Forall (fun ab => adjacent (nx._adj G) (fst ab) (snd ab))
      (hops (navigation.path_nodes r)).
Proof.
  intros H. apply find_safest_route_some in H.
  destruct H as (_ & _ & G & HG & Hp & _).
  apply dijkstra_path_walk in Hp.
  split; [apply (walk_in_head _ _ _ _ Hp)|].
  split; [apply (walk_in_end _ _ _ _ s Hp)|].
  exists G. split; [exact HG|]. apply (walk_in_hops _ _ _ _ Hp).
Qed.

Lemma route_runs_from_start_to_end_witness :
  hd_error ["A_Home"; "B_Intersection"; "D_Intersection"; "E_Work"]
  = Some "A_Home" /\
  last ["A_Home"; "B_Intersection"; "D_Intersection"; "E_Work"] "A_Home"
  = "E_Work" /\
  exists G,
    fst (navigation.create_map_graph navigation.MAP_NODES navigation.MAP_EDGES
           east_village_db) = Ok G /\
    Forall (fun ab => adjacent (nx._adj G) (fst ab) (snd ab))
      (hops ["A_Home"; "B_Intersection"; "D_Intersection"; "E_Work"]).
Proof.
  apply (route_runs_from_start_to_end navigation.MAP_NODES navigation.MAP_EDGES
           "A_Home" "E_Work" east_village_db
           {| navigation.path_nodes :=
                ["A_Home"; "B_Intersection"; "D_Intersection"; "E_Work"];
              navigation.path_coordinates :=
                [(-74.0060, 40.7128); (-73.9960, 40.7228);
                 (-73.9950, 40.7428); (-73.9850, 40.7528)]%float |}).
  vm_compute. reflexivity.
Defined.

Lemma omap_getitem_pairs {V : Type} (d : dict.t V) (ks : list string)
    (vs : list V) :
  omap (dict.getitem d) ks = Ok vs ->
  Forall2 (fun k v => dict.get d k = Some v) ks vs.
Proof.
  revert vs. induction ks as [|k ks IH]; intros vs; simpl.
  - intros H. injection H as <-. constructor.
  - unfold dict.getitem at 1. destruct (dict.get d k) as [v|] eqn:Hk; simpl;
      [|discriminate].
    destruct (omap (dict.getitem d) ks) as [vs'|e|]; simpl; try discriminate.
    intros H. injection H as <-. constructor; [exact Hk|]. apply IH. reflexivity.
Qed.

(** X3: on any map, a returned route lists one coordinate per node, and
    the coordinate at each position is the one [MAP_NODES] holds for the
    node at that position. *)
Theorem coordinates_follow_nodes
    (MAP_NODES : dict.t coords) (MAP_EDGES : list (string * string))
    (s t : string) (db : Session) (r : navigation.route) :
  fst (navigation.find_safest_route MAP_NODES MAP_EDGES s t db) = Ok (Some r) ->
  Forall2 (fun n c => dict.get MAP_NODES n = Some c)
    (navigation.path_nodes r) (navigation.path_coordinates r) /\
  List.length (navigation.path_coordinates r)
  = List.length (navigation.path_nodes r).
Proof.
  intros H. apply find_safest_route_some in H.
  destruct H as (_ & _ & G & _ & _ & Hcs).
  apply omap_getitem_pairs in Hcs. split; [exact Hcs|].
  symmetry. apply (Forall2_length Hcs).
Qed.

Lemma coordinates_follow_nodes_witness :
  Forall2 (fun n c => dict.get navigation.MAP_NODES n = Some c)
    ["A_Home"; "B_Intersection"; "D_Intersection"; "E_Work"]
    [(-74.0060, 40.7128); (-73.9960, 40.7228);
     (-73.9950, 40.7428); (-73.9850, 40.7528)]%float /\
  List.length [(-74.0060, 40.7128); (-73.9960, 40.7228);
               (-73.9950, 40.7428); (-73.9850, 40.7528)]%float
  = List.length ["A_Home"; "B_Intersection"; "D_Intersection"; "E_Work"].
Proof.
  apply (coordinates_follow_nodes navigation.MAP_NODES navigation.MAP_EDGES
           "A_Home" "E_Work" east_village_db
           {| navigation.path_nodes :=
                ["A_Home"; "B_Intersection"; "D_Intersection"; "E_Work"];
              navigation.path_coordinates :=
                [(-74.0060, 40.7128); (-73.9960, 40.7228);
                 (-73.9950, 40.7428); (-73.9850, 40.7528)]%float |}).
  vm_compute. reflexivity.
Defined.

(** X4: on any map and with any session, [find_safest_route] and the
    endpoint come to an end: the search never uses up the iterations it is
    given. *)
Theorem route_request_ends
    (MAP_NODES : dict.t coords) (MAP_EDGES : list (string * string))
    (s t : string) (db : Session) :
  fst (navigation.find_safest_route MAP_NODES MAP_EDGES s t db) <> NoFuel /\
  fst (routes.get_safest_route MAP_NODES MAP_EDGES
         {| routes.start_node := s; routes.end_node := t |} db) <> NoFuel.
Proof.
  pose proof (find_safest_route_ends MAP_NODES MAP_EDGES s t db) as H.
  split; [exact H|].
  unfold routes.get_safest_route, bind. simpl.
  destruct (navigation.find_safest_route MAP_NODES MAP_EDGES s t db)
    as [[[r|]|e|] db1]; simpl in *; try discriminate. contradiction.
Qed.

Lemma unknown_node_route_is_none
    (MAP_NODES : dict.t coords) (MAP_EDGES : list (string * string))
    (s t : string) (db : Session) :
  dict.mem MAP_NODES s = false \/ dict.mem MAP_NODES t = false ->
  navigation.find_safest_route MAP_NODES MAP_EDGES s t db = (Ok None, db).
Proof.
  intros H. unfold navigation.find_safest_route.
  destruct H as [H|H]; rewrite H; simpl; [|rewrite orb_true_r]; reflexivity.
Qed.

(** X5: on the shipped map, when the risk index answers at the five sample
    points, the endpoint returns a route exactly when both identifiers are
    known, and raises the 404 that lists the valid nodes exactly when one
    of them is not: the shipped map is connected. *)
Theorem known_nodes_always_get_a_route (db : Session) (s t : string) :
  sampled_available db ->
  (valid s /\ valid t <->
   exists r,
     fst (routes.get_safest_route navigation.MAP_NODES navigation.MAP_EDGES
            {| routes.start_node := s; routes.end_node := t |} db) = Ok r) /\
  (~ (valid s /\ valid t) <->
   fst (routes.get_safest_route navigation.MAP_NODES navigation.MAP_EDGES
          {| routes.start_node := s; routes.end_node := t |} db)
   = Raise (not_found navigation.MAP_NODES)).
Proof.
  intros Hav.
  assert (Hserve : forall o,
            plan s t db = o ->
            fst (routes.get_safest_route navigation.MAP_NODES navigation.MAP_EDGES
                   {| routes.start_node := s; routes.end_node := t |} db)
            = match o with
              | Ok (Some r) => Ok r
              | Ok None => Raise (not_found navigation.MAP_NODES)
              | Raise e => Raise e
              | NoFuel => NoFuel
              end).
  { intros o <-. unfold plan, routes.get_safest_route, bind. simpl.
    destruct (navigation.find_safest_route _ _ s t db) as [[[r|]|e|] db1];
      reflexivity. }
  destruct (dict.mem navigation.MAP_NODES s) eqn:Hs.
  - destruct (dict.mem navigation.MAP_NODES t) eqn:Ht.
    + destruct (plan_returns db s t Hav Hs Ht) as [r Hr].
      rewrite (Hserve _ Hr). split; split.
      * intros _. exists r. reflexivity.
      * intros _. split; assumption.
      * intros H. exfalso. apply H. split; assumption.
      * discriminate.
    + assert (Hnone : plan s t db = Ok None).
      { unfold plan.
        rewrite (unknown_node_route_is_none _ _ s t db (or_intror Ht)).
        reflexivity. }
      rewrite (Hserve _ Hnone). unfold valid. rewrite Ht. split; split.
      * intros [_ H]. discriminate.
      * intros [r H]. discriminate.
      * reflexivity.
      * intros _ [_ H]. discriminate.
  - assert (Hnone : plan s t db = Ok None).
    { unfold plan.
      rewrite (unknown_node_route_is_none _ _ s t db (or_introl Hs)).
      reflexivity. }
    rewrite (Hserve _ Hnone). unfold valid. rewrite Hs. split; split.
    * intros [H _]. discriminate.
    * intros [r H]. discriminate.
    * reflexivity.
    * intros _ [H _]. discriminate.
Qed.

Lemma known_nodes_always_get_a_route_witness :
  (valid "A_Home" /\ valid "Z_Unknown" <->
   exists r,
     fst (routes.get_safest_route navigation.MAP_NODES navigation.MAP_EDGES
            {| routes.start_node := "A_Home"; routes.end_node := "Z_Unknown" |}
            east_village_db) = Ok r) /\
  (~ (valid "A_Home" /\ valid "Z_Unknown") <->
   fst (routes.get_safest_route navigation.MAP_NODES navigation.MAP_EDGES
          {| routes.start_node := "A_Home"; routes.end_node := "Z_Unknown" |}
          east_village_db)
   = Raise (not_found navigation.MAP_NODES)).
Proof.
  apply (known_nodes_always_get_a_route east_village_db "A_Home" "Z_Unknown").
  intros p _. unfold east_village_db. simpl.
  destruct (in_box _ _ p); eexists; reflexivity.
Defined.

(** X6: on the shipped map, a request between known nodes, even from a node
    to itself, rebuilds the graph: when the index answers, the request sends
    it the sample point of every street, one lookup per entry of
    [MAP_EDGES] and in that order. *)
Theorem every_request_costs_five_lookups (db : Session) (s t : string) :
  sampled_available db -> valid s -> valid t ->
  issued (snd (navigation.find_safest_route navigation.MAP_NODES
                 navigation.MAP_EDGES s t db))
  = (issued db
     ++ sample_points navigation.MAP_NODES navigation.MAP_EDGES)%list /\
  List.length (sample_points navigation.MAP_NODES navigation.MAP_EDGES)
  = List.length navigation.MAP_EDGES.
Proof.
  intros Hav Hs Ht. split; [|reflexivity].
  pose proof (create_map_graph_queries db Hav) as Hq.
  unfold navigation.find_safest_route. unfold valid in Hs, Ht.
  rewrite Hs, Ht. simpl. unfold bind, lift.
  destruct (navigation.create_map_graph navigation.MAP_NODES
              navigation.MAP_EDGES db) as [[G|e|] db1]; exact Hq.
Qed.

Lemma every_request_costs_five_lookups_witness :
  issued (snd (navigation.find_safest_route navigation.MAP_NODES
                 navigation.MAP_EDGES "C_Risky_Area" "C_Risky_Area"
                 east_village_db))
  = (issued east_village_db
     ++ sample_points navigation.MAP_NODES navigation.MAP_EDGES)%list /\
  List.length (sample_points navigation.MAP_NODES navigation.MAP_EDGES)
  = List.length navigation.MAP_EDGES.
Proof.
  apply (every_request_costs_five_lookups east_village_db
           "C_Risky_Area" "C_Risky_Area").
  - intros p _. unfold east_village_db. simpl.
    destruct (in_box _ _ p); eexists; reflexivity.
  - reflexivity.
  - reflexivity.
Defined.

Lemma for_each_related {A S : Type} (R : Session -> Session -> Prop)
    (body : S -> A -> M S) (xs : list A) :
  (forall acc x db db', R db db' ->
     fst (body acc x db) = fst (body acc x db') /\
     R (snd (body acc x db)) (snd (body acc x db'))) ->
  forall acc db db', R db db' ->
    fst (for_each xs body acc db) = fst (for_each xs body acc db') /\
    R (snd (for_each xs body acc db)) (snd (for_each xs body acc db')).
Proof.
  intros Hb. induction xs as [|x xs IH]; intros acc db db' HR; simpl.
  - split; [reflexivity|exact HR].
  - unfold bind. destruct (Hb acc x db db' HR) as [Hfst HR1].
    destruct (body acc x db) as [o db1], (body acc x db') as [o' db1'].
    simpl in *. subst o'. destruct o as [acc'|e|]; simpl; auto.
Qed.

Lemma get_edge_risk_weight_same_zoning (a b : coords) (db db' : Session) :
  same_zoning db db' ->
  fst (navigation.get_edge_risk_weight a b db)
  = fst (navigation.get_edge_risk_weight a b db') /\
  same_zoning (snd (navigation.get_edge_risk_weight a b db))
    (snd (navigation.get_edge_risk_weight a b db')).
Proof.
  intros H. rewrite !get_edge_risk_weight_run. simpl. split; [|exact H].
  specialize (H (midpoint a b)). unfold same_kind in H.
  destruct (answer db _) as [[z|]|e], (answer db' _) as [[z'|]|e'];
    try contradiction; try reflexivity. subst. reflexivity.
Qed.

Lemma create_map_graph_same_zoning
    (MAP_NODES : dict.t coords) (MAP_EDGES : list (string * string))
    (db db' : Session) :
  same_zoning db db' ->
  fst (navigation.create_map_graph MAP_NODES MAP_EDGES db)
  = fst (navigation.create_map_graph MAP_NODES MAP_EDGES db').
Proof.
  intros H. unfold navigation.create_map_graph.
  apply (for_each_related same_zoning); [|exact H].
  intros G [u v] d d' Hd. unfold bind, lift, dict.getitem.
  destruct (dict.get MAP_NODES u) as [a|]; [|auto].
  destruct (dict.get MAP_NODES v) as [b|]; [|auto].
  destruct (get_edge_risk_weight_same_zoning a b d d' Hd) as [Hfst Hsnd].
  destruct (navigation.get_edge_risk_weight a b d) as [o d1],
           (navigation.get_edge_risk_weight a b d') as [o' d1'].
  simpl in *. subst o'. destruct o; auto.
Qed.

(** X7: on any map, the planner's result depends on the risk index only
    through whether a lookup finds a zone, finds none, or fails: which zone
    is found, and its [risk_score], make no difference. *)
Theorem route_ignores_which_zone
    (MAP_NODES : dict.t coords) (MAP_EDGES : list (string * string))
    (s t : string) (db db' : Session) :
  same_zoning db db' ->
  fst (navigation.find_safest_route MAP_NODES MAP_EDGES s t db)
  = fst (navigation.find_safest_route MAP_NODES MAP_EDGES s t db').
Proof.
  intros H. unfold navigation.find_safest_route.
  destruct (negb (dict.mem MAP_NODES s) || negb (dict.mem MAP_NODES t));
    [reflexivity|].
  unfold bind. pose proof (create_map_graph_same_zoning MAP_NODES MAP_EDGES db db' H) as HG.
  destruct (navigation.create_map_graph MAP_NODES MAP_EDGES db) as [o d1],
           (navigation.create_map_graph MAP_NODES MAP_EDGES db') as [o' d1'].
  simpl in HG. subst o'. destruct o; reflexivity.
Qed.

Lemma route_ignores_which_zone_witness :
  fst (navigation.find_safest_route navigation.MAP_NODES navigation.MAP_EDGES
         "A_Home" "E_Work" east_village_db)
  = fst (navigation.find_safest_route navigation.MAP_NODES navigation.MAP_EDGES
           "A_Home" "E_Work" quiet_village_db).
Proof.
  apply (route_ignores_which_zone navigation.MAP_NODES navigation.MAP_EDGES
           "A_Home" "E_Work" east_village_db quiet_village_db).
  intros p. unfold east_village_db, quiet_village_db. simpl.
  destruct (in_box _ _ p); exact I.
Defined.

Lemma nodupb_NoDup (l : list string) : nodupb l = true -> NoDup l.
Proof.
  induction l as [|x l IH]; simpl; [constructor|].
  intros H. apply andb_true_iff in H. destruct H as [Hx Hl].
  constructor; [|auto].
  intros Hin. apply negb_true_iff in Hx.
  assert (H : existsb (String.eqb x) l = true).
  { apply existsb_exists. exists x. split; [exact Hin|apply String.eqb_refl]. }
  congruence.
Qed.

Lemma simple_route_all (db : Session) : every_route simple_route db = true.
Proof.
  apply every_route_any_replies.
  intros [[z1|]|e1] [[z2|]|e2] [[z3|]|e3] [[z4|]|e4] [[z5|]|e5];
    vm_compute; reflexivity.
Qed.

(** X8: on the shipped map, a returned route visits known nodes only, and
    none of them twice. *)
Theorem route_visits_no_node_twice (db : Session) (s t : string)
    (r : navigation.route) :
  plan s t db = Ok (Some r) ->
  NoDup (navigation.path_nodes r) /\
  Forall valid (navigation.path_nodes r).
Proof.
  intros H. destruct (plan_built s t db r H) as (Hs & Ht & _).
  pose proof (every_route_at _ db s t (simple_route_all db) Hs Ht) as Hc.
  rewrite H in Hc. simpl in Hc. apply andb_true_iff in Hc.
  destruct Hc as [Hnd Hval]. split; [apply nodupb_NoDup; exact Hnd|].
  apply Forall_forall. rewrite forallb_forall in Hval. exact Hval.
Qed.

Lemma route_visits_no_node_twice_witness :
  NoDup ["A_Home"; "B_Intersection"; "D_Intersection"; "E_Work"] /\
  Forall valid ["A_Home"; "B_Intersection"; "D_Intersection"; "E_Work"].
Proof.
  apply (route_visits_no_node_twice east_village_db "A_Home" "E_Work"
           {| navigation.path_nodes :=
                ["A_Home"; "B_Intersection"; "D_Intersection"; "E_Work"];
              navigation.path_coordinates :=
                [(-74.0060, 40.7128); (-73.9960, 40.7228);
                 (-73.9950, 40.7428); (-73.9850, 40.7528)]%float |}).
  vm_compute. reflexivity.
Defined.

(** X9: on the shipped map, if the lookup at the sample point of index [i]
    is the first that fails, the build raises that lookup's exception and
    stops there: the sample points up to that one have been sent to the
    index, the later ones have not. *)
Theorem first_failed_lookup_stops_the_build (db : Session) (i : nat)
    (p : coords) (e : exn) :
  nth_error shipped_points i = Some p ->
  answer db p = Fault e ->
  (forall q, In q (firstn i shipped_points) -> exists f, answer db q = Row f) ->
  built db = Raise e /\
  issued (snd (navigation.create_map_graph navigation.MAP_NODES
                 navigation.MAP_EDGES db))
  = (issued db ++ firstn (S i) shipped_points)%list.
Proof.
  intros Hnth Hfault Hrows.
  destruct (reads_create_map_graph navigation.MAP_NODES navigation.MAP_EDGES
              db (table (map (answer db) shipped_points)))
    as [Hfst (sent & Hs & Hs')].
  { intros q Hq. vm_compute in Hq.
    repeat (destruct Hq as [Hq|Hq]; [subst q; vm_compute; reflexivity|]).
    contradiction. }
  unfold built. rewrite Hfst, Hs. clear Hfst Hs.
  assert (Hgoal :
    fst (navigation.create_map_graph navigation.MAP_NODES navigation.MAP_EDGES
           (table (map (answer db) shipped_points))) = Raise e /\
    issued (snd (navigation.create_map_graph navigation.MAP_NODES
                   navigation.MAP_EDGES
                   (table (map (answer db) shipped_points))))
    = firstn (S i) shipped_points).
  { clear Hs' sent. revert Hnth Hrows. spell_points.
    do 5 (destruct i as [|i];
          [ intros Hnth Hrows; simpl in Hnth; injection Hnth as <-;
            rewrite Hfault; simpl in Hrows;
            repeat match goal with
                   | |- context [answer db ?q] =>
                       let f := fresh "f" in
                       let Hf := fresh "Hf" in
                       destruct (Hrows q) as [f Hf]; [solve [in_list] | rewrite Hf]
                   end;
            split_rows; split; vm_compute; reflexivity | ]).
    intros Hnth. destruct i; discriminate Hnth. }
  destruct Hgoal as [H1 H2]. split; [exact H1|].
  rewrite H2 in Hs'. simpl in Hs'. rewrite <- Hs'. reflexivity.
Qed.

Lemma first_failed_lookup_stops_the_build_witness :
  built east_village_outage = Raise (DBAPIError "statement timeout") /\
  issued (snd (navigation.create_map_graph navigation.MAP_NODES
                 navigation.MAP_EDGES east_village_outage))
  = (issued east_village_outage
     ++ firstn 2 shipped_points)%list.
Proof.
  apply (first_failed_lookup_stops_the_build east_village_outage 1
           (-73.991, 40.7278)%float (DBAPIError "statement timeout")).
  - vm_compute. reflexivity.
  - vm_compute. reflexivity.
  - intros q Hq. vm_compute in Hq. destruct Hq as [<-|[]].
    exists None. vm_compute. reflexivity.
Defined.

(** X10: on any map, if [MAP_EDGES] names a street one end of which is not
    a key of [MAP_NODES], the build raises, and every request between known
    nodes raises the same exception. *)
Theorem undeclared_street_end_fails_every_request
    (MAP_NODES : dict.t coords) (MAP_EDGES : list (string * string))
    (db : Session) (u v : string) :
  In (u, v) MAP_EDGES ->
  dict.mem MAP_NODES u = false \/ dict.mem MAP_NODES v = false ->
  exists k,
    (k = u \/ k = v) /\ dict.mem MAP_NODES k = false /\
    exists e,
    fst (navigation.create_map_graph MAP_NODES MAP_EDGES db) = Raise e /\
    forall s t,
      dict.mem MAP_NODES s = true -> dict.mem MAP_NODES t = true ->
      fst (routes.get_safest_route MAP_NODES MAP_EDGES
             {| routes.start_node := s; routes.end_node := t |} db) = Raise e.
Proof.
  intros Hin Hbad.
  assert (Hk : exists k, (k = u \/ k = v) /\ dict.mem MAP_NODES k = false).
  { destruct Hbad as [H|H]; [exists u|exists v]; tauto. }
  destruct Hk as (k & Hk & Hmem). exists k. split; [exact Hk|].
  split; [exact Hmem|].
  assert (Hbuild : exists e,
             fst (navigation.create_map_graph MAP_NODES MAP_EDGES db) = Raise e).
  { unfold navigation.create_map_graph.
    apply (for_each_raises _ _ (u, v) (answer db)); try assumption; try reflexivity.
    - intros G [u' v'] db'. unfold bind, lift, dict.getitem.
      destruct (dict.get MAP_NODES u'); [|discriminate].
      destruct (dict.get MAP_NODES v'); [|discriminate].
      rewrite get_edge_risk_weight_run.
      destruct (answer db' _) as [[z|]|e0]; simpl;
        try discriminate; apply add_edge_returns_or_raises.
    - intros G [u' v'].
      apply keeps_data_bind; [apply keeps_data_lift|]. intros a'.
      apply keeps_data_bind; [apply keeps_data_lift|]. intros b'.
      apply keeps_data_bind; [apply keeps_data_get_edge_risk_weight|]. intros w.
      apply keeps_data_lift.
    - intros G db' _. unfold bind, lift, dict.getitem.
      unfold dict.mem in Hbad.
      destruct (dict.get MAP_NODES u) as [a|]; [|eexists; reflexivity].
      destruct (dict.get MAP_NODES v) as [b|]; [|eexists; reflexivity].
      destruct Hbad; discriminate. }
  destruct Hbuild as [e He]. exists e. split; [exact He|].
  intros s t Hs Ht.
  unfold routes.get_safest_route, navigation.find_safest_route, bind. simpl.
  rewrite Hs, Ht. simpl. unfold bind.
  destruct (navigation.create_map_graph MAP_NODES MAP_EDGES db) as [o db1].
  simpl in He. subst o. reflexivity.
Qed.

Lemma undeclared_street_end_fails_every_request_witness :
  exists k,
    (k = "E_Work" \/ k = "F_Harbor") /\
    dict.mem navigation.MAP_NODES k = false /\
    exists e,
    fst (navigation.create_map_graph navigation.MAP_NODES edges_with_typo
           no_zones) = Raise e /\
    forall s t,
      dict.mem navigation.MAP_NODES s = true ->
      dict.mem navigation.MAP_NODES t = true ->
      fst (routes.get_safest_route navigation.MAP_NODES edges_with_typo
             {| routes.start_node := s; routes.end_node := t |} no_zones)
      = Raise e.
Proof.
  apply (undeclared_street_end_fails_every_request navigation.MAP_NODES
           edges_with_typo no_zones "E_Work" "F_Harbor").
  - unfold edges_with_typo. simpl. in_list.
  - right. reflexivity.
Defined.

Lemma built_node_table (db : Session) (G : nx.Graph) :
  built db = Ok G ->
  nx._node G
  = map (fun item => (fst item, [("pos", snd item)])) navigation.MAP_NODES /\
  dict.keys (nx._adj G) = names /\
  adjacency_in_map G = true.
Proof.
  intros H. pose proof (built_rows db G H) as Hav.
  rewrite built_table in H. revert H. name_rows db Hav. intros H. clear Hav.
  split_rows.
  all: vm_compute in H; injection H as <-; repeat split; vm_compute; reflexivity.
Qed.

Lemma risk_weight_sym (db : Session) (u v : string) :
  risk_weight db u v = risk_weight db v u.
Proof.
  unfold risk_weight, street_midpoint.
  destruct (dict.get navigation.MAP_NODES u) as [a|],
           (dict.get navigation.MAP_NODES v) as [b|]; try reflexivity.
  rewrite (midpoint_comm a b). reflexivity.
Qed.

Lemma get_some_in {V : Type} (d : dict.t V) (k : string) (x : V) :
  dict.get d k = Some x -> In (k, x) d.
Proof.
  induction d as [|[a y] d IH]; simpl; [discriminate|].
  destruct (String.eqb_spec a k) as [->|_].
  - intros H. injection H as ->. left. reflexivity.
  - intros H. right. auto.
Qed.

Lemma edge_weight_street (G : nx.Graph) (u v : string) (w : Z) :
  adjacency_in_map G = true -> edge_weight G u v = Some w -> street u v.
Proof.
  unfold adjacency_in_map, edge_weight. intros Hc H.
  destruct (dict.get (nx._adj G) u) as [nbrs|] eqn:Hu; [|discriminate].
  destruct (dict.get nbrs v) as [data|] eqn:Hv; [|discriminate].
  apply get_some_in in Hu. apply get_some_in in Hv.
  rewrite forallb_forall in Hc. specialize (Hc _ Hu). simpl in Hc.
  rewrite forallb_forall in Hc. specialize (Hc _ Hv). simpl in Hc.
  apply streetb_street. exact Hc.
Qed.

(** X11: on the shipped map, the graph a request builds is the declared
    map: its nodes are the keys of [MAP_NODES], each with its coordinates
    under [pos]; two nodes are joined exactly when a street is declared
    between them, in either orientation; and the weight of a street is the
    one the policy gives it, the same in both directions. *)
Theorem graph_is_the_declared_map (db : Session) (G : nx.Graph) :
  built db = Ok G ->
  nx._node G
  = map (fun item => (fst item, [("pos", snd item)])) navigation.MAP_NODES /\
  dict.keys (nx._adj G) = names /\
  forall u v,
    (street u v -> edge_weight G u v = Some (risk_weight db u v)) /\
    (~ street u v -> edge_weight G u v = None) /\
    edge_weight G u v = edge_weight G v u.
Proof.
  intros H. destruct (built_node_table db G H) as (Hn & Ha & Hc).
  split; [exact Hn|]. split; [exact Ha|]. intros u v.
  assert (Hnone : forall a b, ~ street a b -> edge_weight G a b = None).
  { intros a b Hns. destruct (edge_weight G a b) as [w|] eqn:Hw; [|reflexivity].
    exfalso. apply Hns. apply (edge_weight_street G a b w Hc Hw). }
  split; [apply built_weights; exact H|]. split; [apply Hnone|].
  destruct (edge_weight G u v) as [w|] eqn:Hw.
  - pose proof (edge_weight_street G u v w Hc Hw) as Hst.
    assert (Hst' : street v u) by (unfold street in *; tauto).
    rewrite (built_weights db G u v H Hst) in Hw.
    rewrite (built_weights db G v u H Hst'). rewrite <- risk_weight_sym.
    symmetry. exact Hw.
  - destruct (edge_weight G v u) as [w'|] eqn:Hw'; [|reflexivity].
    pose proof (edge_weight_street G v u w' Hc Hw') as Hst.
    assert (Hst' : street u v) by (unfold street in *; tauto).
    rewrite (built_weights db G u v H Hst') in Hw. discriminate.
Qed.

Lemma graph_is_the_declared_map_witness :
  dict.keys (nx._adj east_village_graph) = names /\
  edge_weight east_village_graph "B_Intersection" "C_Risky_Area" = Some 100 /\
  edge_weight east_village_graph "D_Intersection" "B_Intersection" = Some 1 /\
  edge_weight east_village_graph "A_Home" "E_Work" = None.
Proof.
  destruct (graph_is_the_declared_map east_village_db east_village_graph)
    as (_ & Hk & Hw).
  - vm_compute. reflexivity.
  - split; [exact Hk|]. split; [|split].
    + destruct (Hw "B_Intersection" "C_Risky_Area") as (H & _).
      rewrite H by is_street. vm_compute. reflexivity.
    + destruct (Hw "D_Intersection" "B_Intersection") as (H & _).
      rewrite H by is_street. vm_compute. reflexivity.
    + destruct (Hw "A_Home" "E_Work") as (_ & H & _).
      apply H. unfold street. simpl. intuition discriminate.
Defined.

(** ** The other endpoints *)

Lemma find_user_none (l : list User.t) (user_id : Z) :
  ~ In user_id (map User.id l) ->
  find (fun u => User.id u =? user_id) l = None.
Proof.
  intros H. destruct (find _ l) as [u|] eqn:Hf; [|reflexivity].
  apply find_some in Hf. destruct Hf as [Hin Heq].
  apply Z.eqb_eq in Heq. exfalso. apply H. rewrite <- Heq.
  apply in_map. exact Hin.
Qed.

Section handler_properties.

Variable faults : nat -> option exn.
Variable now : nat -> Z.
Variable Client : attempt unit.
Variable messages_create : nat -> Sms.t -> attempt string.
Variable twilio_phone_number : string.
Variable crisis_chain_invoke : routes.context.t -> attempt string.
Variable str_float : float -> string.
Variable str_strip : string -> string.
Variable str_upper : string -> string.

(** Drop the services a statement does not speak of. *)
Ltac unused_services :=
  try clear str_upper; try clear str_strip; try clear str_float;
  try clear crisis_chain_invoke; try clear twilio_phone_number;
  try clear messages_create; try clear Client; try clear now.

Lemma query_user_by_id_run (w : World) (user_id : Z) :
  faults (statements w) = None ->
  routes.query_user_by_id faults user_id w
  = (Ok (find (fun u => User.id u =? user_id) (users w)),
     {| session := session w; users := users w; guardians := guardians w;
        users_id_seq := users_id_seq w;
        guardians_id_seq := guardians_id_seq w;
        statements := S (statements w); outbox := outbox w;
        stdout := stdout w |}).
Proof using Type.
  unused_services.
  intros Hf. unfold routes.query_user_by_id, routes.statement.
  rewrite Hf. reflexivity.
Qed.

(** X13: when no row of [users] has the given [id], the six handlers that
    take a user id raise 404 [User not found] after one statement, and
    nothing is written, sent, printed or asked of the risk index. *)
Theorem unknown_user_is_refused (w : World) (user_id : Z)
    (guardian : routes.GuardianCreate.t)
    (location : routes.LocationUpdate.t)
    (report : routes.SituationReportRequest.t) :
  faults (statements w) = None ->
  ~ known_user w user_id ->
  refuses 1 (routes.get_user faults user_id) w user_not_found /\
  refuses 1 (routes.create_guardian_for_user faults user_id guardian) w
    user_not_found /\
  refuses 1 (routes.get_guardians_for_user faults user_id) w user_not_found /\
  refuses 1 (routes.update_user_location faults user_id location) w
    user_not_found /\
  refuses 1 (routes.create_sos_alert faults Client messages_create
             twilio_phone_number str_float user_id) w user_not_found /\
  refuses 1 (routes.post_situation_report faults crisis_chain_invoke
             str_strip str_upper user_id report) w user_not_found.
Proof using Type.
  unused_services.
  intros Hf Hu. apply find_user_none in Hu.
  unfold refuses, routes.get_user, routes.create_guardian_for_user,
    routes.get_guardians_for_user, routes.update_user_location,
    routes.create_sos_alert, routes.post_situation_report, hbind.
  rewrite (query_user_by_id_run w user_id Hf), Hu. simpl.
  unfold read_only, rows_kept. simpl. tauto.
Qed.


Lemma find_email_none (l : list User.t) (email : string) :
  ~ In email (map User.email l) ->
  find (fun u => String.eqb (User.email u) email) l = None.
Proof using Type.
  unused_services.
  intros H. destruct (find _ l) as [u|] eqn:Hf; [|reflexivity].
  apply find_some in Hf. destruct Hf as [Hin Heq].
  apply String.eqb_eq in Heq. exfalso. apply H. rewrite <- Heq.
  apply in_map. exact Hin.
Qed.

Lemma find_email_some (l : list User.t) (email : string) :
  In email (map User.email l) ->
  exists u, find (fun u => String.eqb (User.email u) email) l = Some u.
Proof using Type.
  unused_services.
  intros H. apply in_map_iff in H. destruct H as (u & He & Hin).
  destruct (find _ l) as [u'|] eqn:Hf; [eexists; reflexivity|].
  pose proof (find_none _ _ Hf u Hin) as Hn. simpl in Hn.
  rewrite He, String.eqb_refl in Hn. discriminate.
Qed.

Lemma find_user_some (l : list User.t) (user_id : Z) :
  In user_id (map User.id l) ->
  exists u, find (fun u => User.id u =? user_id) l = Some u /\
            In u l /\ User.id u = user_id.
Proof using Type.
  unused_services.
  intros H. apply in_map_iff in H. destruct H as (u & He & Hin).
  destruct (find _ l) as [u'|] eqn:Hf.
  - exists u'. apply find_some in Hf. destruct Hf as [Hin' Heq].
    apply Z.eqb_eq in Heq. auto.
  - pose proof (find_none _ _ Hf u Hin) as Hn. simpl in Hn.
    rewrite He, Z.eqb_refl in Hn. discriminate.
Qed.

Lemma find_app_new {A : Type} (f : A -> bool) (l : list A) (x : A) :
  find f l = None -> f x = true -> find f (l ++ [x]) = Some x.
Proof using Type.
  unused_services.
  induction l as [|a l IH]; simpl; intros Hn Hx.
  - rewrite Hx. reflexivity.
  - destruct (f a); [discriminate|auto].
Qed.

Lemma find_app_old {A : Type} (f : A -> bool) (l : list A) (x y : A) :
  find f l = Some y -> find f (l ++ [x]) = Some y.
Proof using Type.
  unused_services.
  induction l as [|a l IH]; simpl; intros Hn; [discriminate|].
  destruct (f a); auto.
Qed.

Lemma existsb_false_forall {A : Type} (f : A -> bool) (l : list A) :
  (forall x, In x l -> f x = false) -> existsb f l = false.
Proof using Type.
  unused_services.
  intros H. induction l as [|a l IH]; simpl; [reflexivity|].
  rewrite (H a (or_introl eq_refl)). simpl. apply IH.
  intros x Hx. apply H. right. exact Hx.
Qed.

Lemma filter_none {A : Type} (f : A -> bool) (l : list A) :
  (forall x, In x l -> f x = false) -> filter f l = [].
Proof using Type.
  unused_services.
  intros H. induction l as [|a l IH]; simpl; [reflexivity|].
  rewrite (H a (or_introl eq_refl)). apply IH.
  intros x Hx. apply H. right. exact Hx.
Qed.

(** The insert of [create_user] meets no duplicate. *)
Lemma add_user_fresh (w : World) (name email : string) :
  Forall (fun u => User.id u <= users_id_seq w) (users w) ->
  ~ In email (map User.email (users w)) ->
  existsb (fun u => (User.id u =? users_id_seq w + 1)
                    || String.eqb (User.email u) email) (users w) = false.
Proof using Type.
  unused_services.
  intros Hseq Hnew. apply existsb_false_forall. intros u Hu.
  rewrite Forall_forall in Hseq. specialize (Hseq u Hu). simpl in Hseq.
  apply orb_false_iff. split.
  - apply Z.eqb_neq. lia.
  - apply String.eqb_neq. intros He. apply Hnew. rewrite <- He.
    apply in_map. exact Hu.
Qed.

(** X14: with a server that refuses no statement and tables within the
    schema, [create_user] refuses an email some user already has with 400
    and changes nothing; for a new email it appends one row with the given
    name and email, no location and an [id] no user had, and that user is
    then returned by [get_user] and has no guardians. *)
Theorem an_email_registers_once (w : World) (user : routes.UserCreate.t) :
  reachable faults -> consistent w ->
  (In (routes.UserCreate.email user) (map User.email (users w)) ->
   refuses 1 (routes.create_user faults now user) w
     (HTTPException 400
        "Email already registered. Please use a different email.")) /\
  (~ In (routes.UserCreate.email user) (map User.email (users w)) ->
   exists new_user,
     fst (routes.create_user faults now user w) = Ok new_user /\
     User.name new_user = routes.UserCreate.name user /\
     User.email new_user = routes.UserCreate.email user /\
     User.last_known_location new_user = None /\
     ~ known_user w (User.id new_user) /\
     users (snd (routes.create_user faults now user w))
     = (users w ++ [new_user])%list /\
     guardians (snd (routes.create_user faults now user w)) = guardians w /\
     fst (routes.get_user faults (User.id new_user)
            (snd (routes.create_user faults now user w))) = Ok new_user /\
     fst (routes.get_guardians_for_user faults (User.id new_user)
            (snd (routes.create_user faults now user w))) = Ok []).
Proof using Type.
  unused_services.
  intros Hup (Hid & Hemail & Hgid & Hfk & Hseq & Hgseq). split.
  - intros Hin. apply find_email_some in Hin. destruct Hin as [u Hu].
    unfold refuses, routes.create_user, hbind, routes.query_user_by_email,
      routes.statement.
    rewrite Hup. simpl. rewrite Hu. simpl.
    unfold read_only, rows_kept. simpl. tauto.
  - intros Hnew.
    pose proof (add_user_fresh w (routes.UserCreate.name user)
                  (routes.UserCreate.email user) Hseq Hnew) as Hfresh.
    assert (Hunknown : ~ known_user w (users_id_seq w + 1)).
    { unfold known_user. intros Hin. apply in_map_iff in Hin.
      destruct Hin as (u & He & Hu). rewrite Forall_forall in Hseq.
      specialize (Hseq u Hu). simpl in Hseq. lia. }
    eexists.
    unfold routes.create_user, routes.get_user,
      routes.get_guardians_for_user, hbind, routes.query_user_by_email,
      routes.query_user_by_id, routes.add_user, routes.refresh,
      routes.load_guardians, routes.statement.
    rewrite ?Hup. simpl. rewrite (find_email_none _ _ Hnew). simpl.
    rewrite ?Hup. simpl. rewrite Hfresh. simpl. rewrite ?Hup. simpl.
    split; [reflexivity|]. simpl.
    rewrite (find_app_new _ _ _ (find_user_none _ _ Hunknown))
      by (simpl; apply Z.eqb_refl).
    simpl. rewrite ?Hup. simpl.
    repeat split; try reflexivity; try assumption.
    f_equal. apply filter_none. intros g Hg. simpl.
    rewrite Forall_forall in Hfk. specialize (Hfk g Hg). simpl in Hfk.
    apply Z.eqb_neq. intros He. apply Hunknown. rewrite <- He. exact Hfk.
Qed.


(** X15: [create_user] commits before it reads the row back: if the server
    refuses the third statement, the refresh, the request fails with the
    driver's exception although the user is stored, and the same request
    sent again is refused with 400. *)
Theorem user_is_stored_though_the_request_fails (w : World)
    (user : routes.UserCreate.t) (e : exn) :
  consistent w ->
  ~ In (routes.UserCreate.email user) (map User.email (users w)) ->
  faults (statements w) = None ->
  faults (1 + statements w)%nat = None ->
  faults (2 + statements w)%nat = Some e ->
  faults (3 + statements w)%nat = None ->
  let w' := snd (routes.create_user faults now user w) in
  fst (routes.create_user faults now user w) = Raise e /\
  (exists new_user,
     users w' = (users w ++ [new_user])%list /\
     User.name new_user = routes.UserCreate.name user /\
     User.email new_user = routes.UserCreate.email user) /\
  fst (routes.create_user faults now user w')
  = Raise (HTTPException 400
             "Email already registered. Please use a different email.").
Proof using Type.
  unused_services.
  intros (Hid & Hemail & Hgid & Hfk & Hseq & Hgseq) Hnew H0 H1 H2 H3.
  pose proof (add_user_fresh w (routes.UserCreate.name user)
                (routes.UserCreate.email user) Hseq Hnew) as Hfresh.
  unfold routes.create_user, hbind, routes.query_user_by_email,
    routes.add_user, routes.refresh, routes.statement.
  simpl in *. rewrite H0. simpl. rewrite (find_email_none _ _ Hnew). simpl.
  rewrite H1. simpl. rewrite Hfresh. simpl. rewrite H2. simpl.
  split; [reflexivity|]. split.
  - eexists. split; [reflexivity|]. simpl. split; reflexivity.
  - rewrite H3. simpl.
    rewrite (find_app_new _ _ _ (find_email_none _ _ Hnew))
      by (simpl; apply String.eqb_refl).
    reflexivity.
Qed.

Lemma filter_app_one {A : Type} (f : A -> bool) (l : list A) (x : A) :
  filter f (l ++ [x]) = (filter f l ++ if f x then [x] else [])%list.
Proof using Type.
  unused_services.
  rewrite filter_app. simpl. destruct (f x); reflexivity.
Qed.

(** X16: for a known user, [create_guardian_for_user] returns a guardian
    with the given name and phone number, linked to that user, under an
    [id] no guardian had, and changes no user.  [get_guardians_for_user]
    returns the guardians of a user in the order of the table; after the
    call it returns, for that user, the former list followed by the new
    guardian, and for any other user the former list. *)
Theorem a_guardian_joins_one_list (w : World) (user_id : Z)
    (guardian : routes.GuardianCreate.t) :
  reachable faults -> consistent w -> known_user w user_id ->
  let w' :=
    snd (routes.create_guardian_for_user faults user_id guardian w) in
  exists new_guardian,
    fst (routes.create_guardian_for_user faults user_id guardian w)
    = Ok new_guardian /\
    Guardian.name new_guardian = routes.GuardianCreate.name guardian /\
    Guardian.phone_number new_guardian
    = routes.GuardianCreate.phone_number guardian /\
    Guardian.user_id new_guardian = user_id /\
    ~ In (Guardian.id new_guardian) (map Guardian.id (guardians w)) /\
    users w' = users w /\
    forall other,
      known_user w other ->
      fst (routes.get_guardians_for_user faults other w) 
      = Ok (guardians_of w other) /\
      fst (routes.get_guardians_for_user faults other w')
      = Ok (guardians_of w other
            ++ if other =? user_id then [new_guardian] else [])%list.
Proof using Type.
  unused_services.
  intros Hup (Hid & Hemail & Hgid & Hfk & Hseq & Hgseq) Hknown.
  destruct (find_user_some _ _ Hknown) as (u & Hfind & Hin & Hu).
  assert (Hfresh :
    existsb (fun g => Guardian.id g =? guardians_id_seq w + 1) (guardians w)
    = false).
  { apply existsb_false_forall. intros g Hg.
    rewrite Forall_forall in Hgseq. specialize (Hgseq g Hg). simpl in Hgseq.
    apply Z.eqb_neq. lia. }
  assert (Hfk_ok : existsb (fun u => User.id u =? user_id) (users w) = true).
  { apply existsb_exists. exists u. split; [exact Hin|].
    apply Z.eqb_eq. exact Hu. }
  eexists.
  unfold routes.create_guardian_for_user, routes.get_guardians_for_user,
    hbind, routes.query_user_by_id, routes.add_guardian, routes.refresh,
    routes.load_guardians, routes.statement.
  simpl. rewrite ?Hup. simpl. rewrite Hfind. simpl. rewrite ?Hup. simpl.
  rewrite Hfresh, Hfk_ok. simpl. rewrite ?Hup. simpl.
  split; [reflexivity|]. simpl.
  repeat (split; [reflexivity|]). split.
  - intros Hdup. apply in_map_iff in Hdup. destruct Hdup as (g & He & Hg).
    rewrite Forall_forall in Hgseq. specialize (Hgseq g Hg). simpl in Hgseq.
    lia.
  - split; [reflexivity|]. intros other Hother.
    destruct (find_user_some _ _ Hother) as (u' & Hfind' & Hin' & Hu').
    rewrite ?Hup. simpl. rewrite Hfind'. simpl. rewrite ?Hup. simpl.
    rewrite Hu'. split; [reflexivity|].
    rewrite filter_app_one. simpl. rewrite (Z.eqb_sym user_id other).
    reflexivity.
Qed.

Lemma find_map_update (l : list User.t) (user_id target : Z)
    (f : User.t -> User.t) :
  (forall u, User.id (f u) = User.id u) ->
  find (fun u => User.id u =? user_id)
    (map (fun u => if User.id u =? target then f u else u) l)
  = match find (fun u => User.id u =? user_id) l with
    | Some u => Some (if User.id u =? target then f u else u)
    | None => None
    end.
Proof using Type.
  unused_services.
  intros Hf. induction l as [|a l IH]; simpl; [reflexivity|].
  destruct (User.id a =? target) eqn:Ht.
  - rewrite Hf. destruct (User.id a =? user_id); [rewrite Ht|]; auto.
  - destruct (User.id a =? user_id); [rewrite Ht|]; auto.
Qed.

(** X17: for a known user, [update_user_location] answers with the message
    for that id and stores the point, longitude first: [get_user] then
    returns the same user with that location, returns every other user as
    before, and no id, email or guardian has changed. *)
Theorem a_location_update_is_read_back (w : World) (user_id : Z)
    (location : routes.LocationUpdate.t) :
  reachable faults -> known_user w user_id ->
  let w' := snd (routes.update_user_location faults user_id location w) in
  fst (routes.update_user_location faults user_id location w)
  = Ok [("message", "Location updated for user " ++ str_int user_id)] /\
  (exists user,
     fst (routes.get_user faults user_id w) = Ok user /\
     fst (routes.get_user faults user_id w')
     = Ok {| User.id := User.id user; User.name := User.name user;
             User.email := User.email user;
             User.created_at := User.created_at user;
             User.last_known_location :=
               Some (routes.LocationUpdate.longitude location,
                     routes.LocationUpdate.latitude location) |}) /\
  (forall other,
     other <> user_id ->
     fst (routes.get_user faults other w')
     = fst (routes.get_user faults other w)) /\
  map User.id (users w') = map User.id (users w) /\
  map User.email (users w') = map User.email (users w) /\
  guardians w' = guardians w.
Proof using Type.
  unused_services.
  intros Hup Hknown.
  destruct (find_user_some _ _ Hknown) as (u & Hfind & Hin & Hu).
  unfold routes.update_user_location, routes.get_user, hbind,
    routes.query_user_by_id, routes.set_last_known_location,
    routes.statement.
  simpl. rewrite ?Hup. simpl. rewrite Hfind. simpl. rewrite ?Hup. simpl.
  split; [reflexivity|]. rewrite Hu. split; [|split; [|split; [|split]]].
  - exists u. split; [reflexivity|].
    rewrite find_map_update by reflexivity. rewrite Hfind, Hu, Z.eqb_refl.
    reflexivity.
  - intros other Hother. rewrite ?Hup. simpl.
    rewrite find_map_update by reflexivity.
    destruct (find (fun u0 => User.id u0 =? other) (users w)) as [u'|] eqn:Hf';
      [|reflexivity].
    apply find_some in Hf'. destruct Hf' as [_ He]. apply Z.eqb_eq in He.
    rewrite He. destruct (Z.eqb_spec other user_id); [contradiction|].
    reflexivity.
  - rewrite map_map. apply map_ext. intros a.
    destruct (User.id a =? user_id); reflexivity.
  - rewrite map_map. apply map_ext. intros a.
    destruct (User.id a =? user_id); reflexivity.
  - reflexivity.
Qed.


Lemma find_user_in (l : list User.t) (user : User.t) :
  NoDup (map User.id l) -> In user l ->
  find (fun u => User.id u =? User.id user) l = Some user.
Proof using Type.
  unused_services.
  induction l as [|a l IH]; simpl; [contradiction|].
  intros Hnd [->|Hin].
  - rewrite Z.eqb_refl. reflexivity.
  - inversion Hnd as [|? ? Hnotin Hnd']; subst.
    destruct (Z.eqb_spec (User.id a) (User.id user)) as [He|_]; [|auto].
    exfalso. apply Hnotin. rewrite He. apply in_map. exact Hin.
Qed.

(** The loop of [create_sos_alert]. *)
Lemma sos_loop (user : User.t) (location : coords) (gs : list Guardian.t) :
  forall (acc : list routes.SosResponse.sent) (w : World),
    let messages := map (alert str_float twilio_phone_number user location) gs in
    let ds := deliveries messages_create (List.length (outbox w)) messages in
    hfor_each gs
      (fun sent_messages guardian =>
         (message <-
            routes.send_message messages_create
              {| Sms.body := routes.message_body str_float user
                               (snd location) (fst location);
                 Sms.from_ := twilio_phone_number;
                 Sms.to := Guardian.phone_number guardian |} ;;
          match message with
          | Returned sid =>
              hret
                (sent_messages
                 ++ [{| routes.SosResponse.to :=
                          Guardian.phone_number guardian;
                        routes.SosResponse.sid := sid |}])%list
          | Raised e =>
              print
                ("Failed to send SMS to "
                 ++ Guardian.phone_number guardian ++ ": " ++ e) ;;;
              hret sent_messages
          end)%api)
      acc w
    = (Ok (acc ++ delivered ds)%list,
       {| session := session w; users := users w; guardians := guardians w;
          users_id_seq := users_id_seq w;
          guardians_id_seq := guardians_id_seq w;
          statements := statements w;
          outbox := (outbox w ++ messages)%list;
          stdout := (stdout w ++ failures ds)%list |}).
Proof using Type.
  unused_services.
  induction gs as [|g gs IH]; intros acc w; simpl.
  - unfold hret. rewrite !app_nil_r. destruct w; reflexivity.
  - unfold hbind at 1. unfold hbind at 1. unfold routes.send_message at 1.
    simpl.
    destruct (messages_create (List.length (outbox w)) _) as [sid|e] eqn:Hm;
      simpl.
    + rewrite IH. simpl. rewrite length_app. simpl.
      rewrite Nat.add_1_r. rewrite <- !app_assoc. simpl.
      reflexivity.
    + rewrite IH. simpl. rewrite length_app. simpl.
      rewrite Nat.add_1_r. rewrite <- !app_assoc. simpl.
      reflexivity.
Qed.

(** X18: when the user has guardians and a location and the Twilio client
    is created, [create_sos_alert] hands Twilio one message per guardian, in
    the order of the list and whether or not earlier ones failed; it prints
    one line per failure, changes no row, returns the messages Twilio took
    with their [sid]s, and raises 500 exactly when Twilio took none. *)
Theorem every_guardian_is_tried_once (w : World) (user : User.t)
    (location : coords) :
  faults (statements w) = None ->
  faults (1 + statements w)%nat = None ->
  consistent w ->
  In user (users w) ->
  User.last_known_location user = Some location ->
  guardians_of w (User.id user) <> [] ->
  Client = Returned tt ->
  let messages :=
    map (alert str_float twilio_phone_number user location)
      (guardians_of w (User.id user)) in
  let ds := deliveries messages_create (List.length (outbox w)) messages in
  let run :=
    routes.create_sos_alert faults Client messages_create
      twilio_phone_number str_float (User.id user) w in
  outbox (snd run) = (outbox w ++ messages)%list /\
  stdout (snd run) = (stdout w ++ failures ds)%list /\
  rows_kept w (snd run) /\
  session (snd run) = session w /\
  fst run
  = match delivered ds with
    | [] => Raise (HTTPException 500 "Failed to send SMS to any guardian.")
    | _ :: _ =>
        Ok {| routes.SosResponse.message := "SOS alerts sent successfully";
              routes.SosResponse.details := delivered ds |}
    end.
Proof using Type.
  unused_services.
  intros H0 H1 (Hid & _) Hin Hloc Hgs HClient messages ds run.
  assert (Hrun :
    run
    = (match delivered ds with
       | [] => Raise (HTTPException 500 "Failed to send SMS to any guardian.")
       | _ :: _ =>
           Ok {| routes.SosResponse.message :=
                   "SOS alerts sent successfully";
                 routes.SosResponse.details := delivered ds |}
       end,
       {| session := session w; users := users w; guardians := guardians w;
          users_id_seq := users_id_seq w;
          guardians_id_seq := guardians_id_seq w;
          statements := S (S (statements w));
          outbox := (outbox w ++ messages)%list;
          stdout := (stdout w ++ failures ds)%list |})).
  { subst run ds messages.
    unfold routes.create_sos_alert, hbind at 1.
    rewrite (query_user_by_id_run w _ H0), (find_user_in _ _ Hid Hin).
    unfold hbind at 1. unfold routes.load_guardians, routes.statement.
    simpl in *. rewrite H1. simpl. fold (guardians_of w (User.id user)).
    destruct (guardians_of w (User.id user)) as [|g gs] eqn:Hg;
      [contradiction|].
    rewrite Hloc, HClient. unfold hbind at 1.
    rewrite (sos_loop user location (g :: gs) []). cbn [app outbox].
    destruct (delivered _); reflexivity. }
  rewrite Hrun. unfold rows_kept. simpl. tauto.
Qed.

(** X19: [create_sos_alert] checks, in this order, that the user has
    guardians (400), that the user's location is known (400) and that the
    Twilio client can be created (500); when a check fails, nothing is sent
    or printed and no row changes. *)
Theorem no_alert_before_the_checks_pass (w : World) (user : User.t) :
  faults (statements w) = None ->
  faults (1 + statements w)%nat = None ->
  consistent w ->
  In user (users w) ->
  let sos :=
    routes.create_sos_alert faults Client messages_create
      twilio_phone_number str_float (User.id user) in
  (guardians_of w (User.id user) = [] ->
   refuses 2 sos w (HTTPException 400 "User has no guardians registered")) /\
  (guardians_of w (User.id user) <> [] ->
   User.last_known_location user = None ->
   refuses 2 sos w (HTTPException 400 "User location is unknown")) /\
  (guardians_of w (User.id user) <> [] ->
   User.last_known_location user <> None ->
   forall e,
     Client = Raised e ->
     refuses 2 sos w
       (HTTPException 500 ("Twilio configuration error: " ++ e))).
Proof using Type.
  unused_services.
  intros H0 H1 (Hid & _) Hin sos.
  assert (Hstart : forall e,
    match guardians_of w (User.id user) with
    | [] => Some (HTTPException 400 "User has no guardians registered")
    | _ :: _ =>
        match User.last_known_location user with
        | None => Some (HTTPException 400 "User location is unknown")
        | Some _ =>
            match Client with
            | Raised e =>
                Some (HTTPException 500 ("Twilio configuration error: " ++ e))
            | Returned _ => None
            end
        end
    end = Some e ->
    sos w
    = (Raise e,
       snd (routes.load_guardians faults user
              (snd (routes.query_user_by_id faults (User.id user) w))))).
  { intros e. subst sos. unfold routes.create_sos_alert, hbind at 1.
    rewrite (query_user_by_id_run w _ H0), (find_user_in _ _ Hid Hin).
    unfold hbind at 1. unfold routes.load_guardians, routes.statement.
    simpl in *. rewrite H1. simpl. fold (guardians_of w (User.id user)).
    destruct (guardians_of w (User.id user)) as [|g gs].
    { intros He. injection He as <-. reflexivity. }
    destruct (User.last_known_location user).
    2:{ intros He. injection He as <-. reflexivity. }
    destruct Client; [discriminate|].
    intros He. injection He as <-. reflexivity. }
  assert (Hworld :
    read_only 2 w
      (snd (routes.load_guardians faults user
              (snd (routes.query_user_by_id faults (User.id user) w))))).
  { rewrite (query_user_by_id_run w _ H0).
    unfold routes.load_guardians, routes.statement. simpl in *.
    rewrite H1. unfold read_only, rows_kept. simpl. tauto. }
  unfold refuses. split; [|split].
  - intros Hg. rewrite (Hstart _ ltac:(rewrite Hg; reflexivity)).
    split; [reflexivity|exact Hworld].
  - intros Hg Hl.
    rewrite (Hstart (HTTPException 400 "User location is unknown")).
    + split; [reflexivity|exact Hworld].
    + rewrite Hl. destruct (guardians_of w (User.id user));
        [contradiction|reflexivity].
  - intros Hg Hl e He.
    rewrite (Hstart (HTTPException 500 ("Twilio configuration error: " ++ e))).
    + split; [reflexivity|exact Hworld].
    + rewrite He. destruct (guardians_of w (User.id user)); [contradiction|].
      destruct (User.last_known_location user); [reflexivity|contradiction].
Qed.





Ltac crunch :=
  repeat (simpl;
          match goal with
          | |- context [match faults ?n with _ => _ end] =>
              destruct (faults n)
          | |- context [match find ?f ?l with _ => _ end] =>
              destruct (find f l) eqn:?
          | |- context [if existsb ?f ?l then _ else _] =>
              destruct (existsb f l) eqn:?
          | |- context [if negb (existsb ?f ?l) then _ else _] =>
              destruct (existsb f l) eqn:?
          | |- context [match User.last_known_location ?u with _ => _ end] =>
              destruct (User.last_known_location u)
          | |- context [match crisis_chain_invoke ?c with _ => _ end] =>
              destruct (crisis_chain_invoke c)
          | |- context [match answer ?s ?p with _ => _ end] =>
              destruct (answer s p) as [[?|]|?]
          end).



Lemma keeps_data_get_safest_route (MAP_NODES : dict.t coords)
    (MAP_EDGES : list (string * string)) (route : routes.RouteRequest) :
  keeps_data (routes.get_safest_route MAP_NODES MAP_EDGES route).
Proof using Type.
  unused_services.
  unfold routes.get_safest_route.
  apply keeps_data_bind; [apply keeps_data_find_safest_route|].
  intros [x|]; intros db; reflexivity.
Qed.

Lemma keeps_data_get_risk_score (lat lon : float) :
  keeps_data (routes.get_risk_score lat lon).
Proof using Type.
  unused_services.
  unfold routes.get_risk_score.
  apply keeps_data_bind; [apply keeps_data_query|].
  intros [x|]; apply keeps_data_ret.
Qed.

(** [create_sos_alert] changes the outbox, the printed lines and the count
    of statements, and nothing else. *)
Lemma sos_world (user_id : Z) (w : World) :
  exists n out lines,
    snd (routes.create_sos_alert faults Client messages_create
           twilio_phone_number str_float user_id w)
    = {| session := session w; users := users w; guardians := guardians w;
         users_id_seq := users_id_seq w;
         guardians_id_seq := guardians_id_seq w;
         statements := n; outbox := out; stdout := lines |}.
Proof using Type.
  unused_services.
  unfold routes.create_sos_alert, hbind at 1.
  unfold routes.query_user_by_id, routes.statement.
  destruct (faults (statements w)); [simpl; eauto|]. simpl.
  destruct (find _ (users w)) as [user|]; [|simpl; eauto].
  unfold hbind at 1. unfold routes.load_guardians, routes.statement.
  simpl. destruct (faults (S (statements w))); [simpl; eauto|]. simpl.
  destruct (filter _ (guardians w)) as [|g gs]; [simpl; eauto|].
  destruct (User.last_known_location user) as [location|]; [|simpl; eauto].
  destruct Client; [|simpl; eauto].
  unfold hbind at 1. rewrite (sos_loop user location (g :: gs) []).
  cbn [app]. destruct (delivered _); simpl; eauto.
Qed.

Ltac settle :=
  simpl; unfold rows_kept; simpl;
  repeat split; try reflexivity; eauto 7.

(** X22: no endpoint changes the data of the risk index; only
    [POST /users], [POST /users/{user_id}/guardians] and
    [POST /users/{user_id}/location] change a row; only
    [POST /users/{user_id}/sos] sends a message or prints a line. *)
Theorem three_endpoints_write_and_one_sends (r : request) (w : World) :
  let w' :=
    snd (endpoint faults now Client messages_create twilio_phone_number
           crisis_chain_invoke str_float str_strip str_upper r w) in
  answer (session w') = answer (session w) /\
  (rows_kept w w' \/
   (exists user, r = POST_users user) \/
   (exists user_id guardian, r = POST_users_id_guardians user_id guardian) \/
   (exists user_id location, r = POST_users_id_location user_id location)) /\
  (outbox w' = outbox w /\ stdout w' = stdout w \/
   exists user_id, r = POST_users_id_sos user_id).
Proof using Type.
  unused_services.
  destruct r as [|user|user_id|user_id guardian|user_id|user_id location
                |lat lon|user_id|user_id report|route]; unfold endpoint.
  - settle.
  - unfold hbind, routes.create_user, hbind, routes.query_user_by_email,
      routes.add_user, routes.refresh, routes.statement, hret, hraise.
    crunch; settle.
  - unfold hbind, routes.get_user, hbind, routes.query_user_by_id,
      routes.statement, hret, hraise.
    crunch; settle.
  - unfold hbind, routes.create_guardian_for_user, hbind,
      routes.query_user_by_id, routes.add_guardian, routes.refresh,
      routes.statement, hret, hraise.
    crunch; settle.
  - unfold hbind, routes.get_guardians_for_user, hbind,
      routes.query_user_by_id, routes.load_guardians,
      routes.statement, hret, hraise.
    crunch; settle.
  - unfold hbind, routes.update_user_location, hbind,
      routes.query_user_by_id, routes.set_last_known_location,
      routes.statement, hret, hraise.
    crunch; settle.
  - pose proof (keeps_data_get_risk_score lat lon (session w)) as Hk.
    unfold hbind, with_session.
    destruct (routes.get_risk_score lat lon (session w)) as [[x|e|] s];
      simpl in *; rewrite Hk; settle.
  - destruct (sos_world user_id w) as (n & out & lines & Hw).
    unfold hbind.
    destruct (routes.create_sos_alert _ _ _ _ _ user_id w) as [[x|e|] w1];
      simpl in *; subst w1; settle.
  - unfold hbind, routes.post_situation_report, hbind,
      routes.query_user_by_id, routes.statement, with_session,
      query_first_zone_within, hret, hraise.
    crunch; settle.
  - pose proof (keeps_data_get_safest_route navigation.MAP_NODES
                  navigation.MAP_EDGES route (session w)) as Hk.
    unfold hbind, with_session.
    destruct (routes.get_safest_route _ _ route (session w)) as [[x|e|] s];
      simpl in *; rewrite Hk; settle.
Qed.

End handler_properties.

(** X12: [get_risk_score] at the midpoint of a street and
    [get_edge_risk_weight] for that street send the same point to the risk
    index and fail together.  When the index returns a zone, the endpoint
    reports that zone's score and name and the planner weighs the street
    100, whatever the score; when it returns none, the endpoint reports the
    score 1 and the planner weighs the street 1. *)
Theorem risk_endpoint_and_planner_read_alike (a b : coords) (db : Session) :
  let m := midpoint a b in
  let risk := routes.get_risk_score (snd m) (fst m) db in
  let weight := navigation.get_edge_risk_weight a b db in
  snd risk = snd weight /\
  (forall e, fst risk = Raise e <-> fst weight = Raise e) /\
  (forall r,
     fst risk = Ok r ->
     (exists z,
        answer db m = Row (Some z) /\
        r = {| routes.RiskResponse.risk_score := models.risk_score z;
               routes.RiskResponse.zone_name := models.name z |} /\
        fst weight = Ok 100) \/
     (zone_free db m /\
      r = {| routes.RiskResponse.risk_score := 1;
             routes.RiskResponse.zone_name := "No specific risk zone" |} /\
      fst weight = Ok 1)).
Proof.
  unfold routes.get_risk_score, navigation.get_edge_risk_weight, bind,
    query_first_zone_within, zone_free, midpoint.
  simpl.
  destruct (answer db _) as [[z|]|e] eqn:Ha; simpl.
  - split; [reflexivity|]. split; [split; discriminate|].
    intros r Hr. injection Hr as <-. left. exists z. auto.
  - split; [reflexivity|]. split; [split; discriminate|].
    intros r Hr. injection Hr as <-. right. auto.
  - split; [reflexivity|]. split; [|discriminate].
    intros e'. split; intros H; injection H as ->; reflexivity.
Qed.

(** The rows of an example satisfy the schema. *)
Ltac schema_holds :=
  unfold consistent, known_user; simpl;
  repeat split; repeat constructor; simpl;
  intuition (try discriminate; try lia).

Lemma unknown_user_is_refused_witness :
  refuses 1 (routes.get_user no_faults 7) two_users user_not_found /\
  refuses 1
    (routes.create_sos_alert no_faults (Returned tt) first_message_fails
       "+15550000" some_text 7) two_users user_not_found.
Proof.
  destruct (unknown_user_is_refused no_faults (Returned tt)
              first_message_fails "+15550000" lower_case_alert some_text
              same_text same_text two_users 7
              {| routes.GuardianCreate.name := "Eve";
                 routes.GuardianCreate.phone_number := "+15550102" |}
              {| routes.LocationUpdate.latitude := 40.7128%float;
                 routes.LocationUpdate.longitude := (-74.0060)%float |}
              (routes.SituationReportRequest.of_transcript "help"))
    as (H1 & _ & _ & _ & H5 & _).
  - reflexivity.
  - unfold known_user. simpl. intuition discriminate.
  - split; assumption.
Defined.

Lemma an_email_registers_once_witness :
  refuses 1
    (routes.create_user no_faults server_time
       {| routes.UserCreate.name := "Ada L.";
          routes.UserCreate.email := "ada@example.org" |})
    two_users
    (HTTPException 400
       "Email already registered. Please use a different email.") /\
  exists new_user,
    fst (routes.create_user no_faults server_time
           {| routes.UserCreate.name := "Cy";
              routes.UserCreate.email := "cy@example.org" |} two_users)
    = Ok new_user /\
    User.id new_user = 3.
Proof.
  split.
  - apply (an_email_registers_once no_faults server_time two_users
             {| routes.UserCreate.name := "Ada L.";
                routes.UserCreate.email := "ada@example.org" |}).
    + intros n. reflexivity.
    + schema_holds.
    + simpl. left. reflexivity.
  - exists {| User.id := 3; User.name := "Cy"; User.email := "cy@example.org";
              User.created_at := server_time 2;
              User.last_known_location := None |}.
    split; reflexivity.
Defined.

Lemma user_is_stored_though_the_request_fails_witness :
  fst (routes.create_user third_fails server_time
         {| routes.UserCreate.name := "Cy";
            routes.UserCreate.email := "cy@example.org" |} two_users)
  = Raise (DBAPIError "server closed the connection") /\
  map User.email
    (users
       (snd (routes.create_user third_fails server_time
               {| routes.UserCreate.name := "Cy";
                  routes.UserCreate.email := "cy@example.org" |}
               two_users)))
  = ["ada@example.org"; "bo@example.org"; "cy@example.org"].
Proof.
  destruct (user_is_stored_though_the_request_fails third_fails server_time
              two_users
              {| routes.UserCreate.name := "Cy";
                 routes.UserCreate.email := "cy@example.org" |}
              (DBAPIError "server closed the connection"))
    as (H1 & _ & _).
  - schema_holds.
  - simpl. intuition discriminate.
  - reflexivity.
  - reflexivity.
  - reflexivity.
  - reflexivity.
  - split; [exact H1|reflexivity].
Defined.

Lemma a_guardian_joins_one_list_witness :
  exists new_guardian,
    fst (routes.create_guardian_for_user no_faults 2
           {| routes.GuardianCreate.name := "Eve";
              routes.GuardianCreate.phone_number := "+15550102" |}
           two_users) = Ok new_guardian /\
    fst (routes.get_guardians_for_user no_faults 2
           (snd (routes.create_guardian_for_user no_faults 2
                   {| routes.GuardianCreate.name := "Eve";
                      routes.GuardianCreate.phone_number := "+15550102" |}
                   two_users))) = Ok [new_guardian] /\
    fst (routes.get_guardians_for_user no_faults 1
           (snd (routes.create_guardian_for_user no_faults 2
                   {| routes.GuardianCreate.name := "Eve";
                      routes.GuardianCreate.phone_number := "+15550102" |}
                   two_users))) = Ok [carl; dee].
Proof.
  destruct (a_guardian_joins_one_list no_faults two_users 2
              {| routes.GuardianCreate.name := "Eve";
                 routes.GuardianCreate.phone_number := "+15550102" |})
    as (g & Hg & _ & _ & _ & _ & _ & Hlists).
  - intros n. reflexivity.
  - schema_holds.
  - unfold known_user. simpl. tauto.
  - exists g. split; [exact Hg|]. split.
    + apply (Hlists 2). unfold known_user. simpl. tauto.
    + apply (Hlists 1). unfold known_user. simpl. tauto.
Defined.

Lemma a_location_update_is_read_back_witness :
  fst (routes.update_user_location no_faults 2
         {| routes.LocationUpdate.latitude := 40.7128%float;
            routes.LocationUpdate.longitude := (-74.0060)%float |}
         two_users)
  = Ok [("message", "Location updated for user 2")] /\
  fst (routes.get_user no_faults 2
         (snd (routes.update_user_location no_faults 2
                 {| routes.LocationUpdate.latitude := 40.7128%float;
                    routes.LocationUpdate.longitude := (-74.0060)%float |}
                 two_users)))
  = Ok {| User.id := 2; User.name := "Bo"; User.email := "bo@example.org";
          User.created_at := 1700000060;
          User.last_known_location := Some (-74.0060, 40.7128)%float |}.
Proof.
  destruct (a_location_update_is_read_back no_faults two_users 2
              {| routes.LocationUpdate.latitude := 40.7128%float;
                 routes.LocationUpdate.longitude := (-74.0060)%float |})
    as (Hmsg & (u & Hu & Hback) & _).
  - intros n. reflexivity.
  - unfold known_user. simpl. tauto.
  - split; [exact Hmsg|].
    vm_compute in Hu. injection Hu as <-. exact Hback.
Defined.

Lemma every_guardian_is_tried_once_witness :
  fst (routes.create_sos_alert no_faults (Returned tt) first_message_fails
         "+15550000" some_text 1 two_users)
  = Ok {| routes.SosResponse.message := "SOS alerts sent successfully";
          routes.SosResponse.details :=
            [{| routes.SosResponse.to := "+15550101";
                routes.SosResponse.sid := "SM0002" |}] |} /\
  map Sms.to
    (outbox
       (snd (routes.create_sos_alert no_faults (Returned tt)
               first_message_fails "+15550000" some_text 1 two_users)))
  = ["+15550100"; "+15550101"] /\
  stdout
    (snd (routes.create_sos_alert no_faults (Returned tt)
            first_message_fails "+15550000" some_text 1 two_users))
  = ["Failed to send SMS to +15550100: unreachable number"].
Proof.
  destruct (every_guardian_is_tried_once no_faults (Returned tt)
              first_message_fails "+15550000" some_text two_users ada
              (-73.9860, 40.7328)%float)
    as (Hout & Hlines & _ & _ & Hfst).
  - reflexivity.
  - reflexivity.
  - schema_holds.
  - simpl. tauto.
  - reflexivity.
  - discriminate.
  - reflexivity.
  - split; [exact Hfst|]. split.
    + change (User.id ada) with 1 in Hout. rewrite Hout. reflexivity.
    + change (User.id ada) with 1 in Hlines. rewrite Hlines. reflexivity.
Defined.

Lemma no_alert_before_the_checks_pass_witness :
  refuses 2
    (routes.create_sos_alert no_faults (Returned tt) first_message_fails
       "+15550000" some_text 2)
    two_users (HTTPException 400 "User has no guardians registered").
Proof.
  destruct (no_alert_before_the_checks_pass no_faults (Returned tt)
              first_message_fails "+15550000" some_text two_users bo)
    as (H & _).
  - reflexivity.
  - reflexivity.
  - schema_holds.
  - simpl. tauto.
  - apply H. reflexivity.
Defined.


